(** * speak_term web client: the WebTerminal session controller

  A shallow embedding of the browser-side controller of the terminal
  page.  Two copies of the script exist in the repository:

  - [static/app.js], the reconnect-dialog variant (module [App]);
  - an older copy without status badge, themes and dialog, which
    retries the connection from a timer (module [Legacy]).

  JavaScript strings are modelled by [string]; the only string
  operation that inspects characters is the replacement of U+000A,
  and the encoding of any other character never contains the byte 10,
  so working on the encoded text is faithful for it. *)

From stdpp Require Import base option list strings gmap.
From Stdlib Require Import Ascii String Bool Arith Lia.

Local Open Scope string_scope.
#[local] Arguments String.append !_ _.

(** ** Strings *)

Module JsString.

Definition LF : ascii := Ascii.ascii_of_nat 10.
Definition CR : ascii := Ascii.ascii_of_nat 13.
Definition ETX : ascii := Ascii.ascii_of_nat 3.

(** The literal ['\r\n']. *)
Definition CRLF : string := String CR (String LF "").

(** [s.substring(from, to)] for [from <= to]. *)
Definition js_substring (from to : nat) (s : string) : string :=
  String.substring from (to - from) s.

(** Match positions of the one-character pattern [c] in [s], left to
    right; [i] is the index of the first character of [s] in the
    subject string (the [lastIndex] of the global regular
    expression). *)
Fixpoint match_positions (c : ascii) (s : string) (i : nat) : list nat :=
  match s with
  | "" => []
  | String a s' =>
      if Ascii.eqb a c then i :: match_positions c s' (S i)
      else match_positions c s' (S i)
  end.

(** Second half of RegExp.prototype[Symbol.replace]: walk the match
    results, copying the text between matches and the replacement
    text into the accumulated result. *)
Fixpoint assemble (subject rep : string) (results : list nat)
    (nextSourcePosition : nat) (accumulated : string) : string :=
  match results with
  | [] =>
      accumulated ++
      js_substring nextSourcePosition (String.length subject) subject
  | position :: rest =>
      if (nextSourcePosition <=? position)%nat then
        assemble subject rep rest (position + 1)
          (accumulated
             ++ js_substring nextSourcePosition position subject ++ rep)
      else assemble subject rep rest nextSourcePosition accumulated
  end.

(** [subject.replace(/c/g, rep)] for a one-character pattern and a
    replacement text without [$]. *)
Definition replace_global (c : ascii) (rep subject : string) : string :=
  assemble subject rep (match_positions c subject 0) 0 "".

(** Character-wise reading of the same rewrite, after the wording
    "every [c] becomes [rep]; no other bytes are altered". *)
Fixpoint rewrite_each (c : ascii) (rep s : string) : string :=
  match s with
  | "" => ""
  | String a s' =>
      if Ascii.eqb a c then rep ++ rewrite_each c rep s'
      else String a (rewrite_each c rep s')
  end.

(** [s.split(c)]: the maximal pieces of [s] free of [c]. *)
Fixpoint split_on (c : ascii) (s : string) : list string :=
  match s with
  | "" => [""]
  | String a s' =>
      if Ascii.eqb a c then "" :: split_on c s'
      else match split_on c s' with
           | [] => [String a ""]
           | piece :: pieces => String a piece :: pieces
           end
  end.

(** [pieces.join(sep)]. *)
Fixpoint join (sep : string) (pieces : list string) : string :=
  match pieces with
  | [] => ""
  | [piece] => piece
  | piece :: rest => piece ++ sep ++ join sep rest
  end.

Fixpoint occurs (c : ascii) (s : string) : bool :=
  match s with
  | "" => false
  | String a s' => Ascii.eqb a c || occurs c s'
  end.

Fixpoint count (c : ascii) (s : string) : nat :=
  match s with
  | "" => 0
  | String a s' => (if Ascii.eqb a c then 1 else 0) + count c s'
  end.

(** Inverse reading of the rewrite: drop one CR in front of every
    LF. *)
Fixpoint strip_cr_before_lf (s : string) : string :=
  match s with
  | "" => ""
  | String a s' =>
      match s' with
      | String b _ =>
          if Ascii.eqb a CR && Ascii.eqb b LF then strip_cr_before_lf s'
          else String a (strip_cr_before_lf s')
      | "" => String a ""
      end
  end.

Definition starts_with (c : ascii) (s : string) : bool :=
  match s with
  | "" => false
  | String a _ => Ascii.eqb a c
  end.

End JsString.

(** ** JavaScript values and property lookup *)

Module Js.

(** The values the script handles as untyped data: the colour tables
    and what a lookup in them can produce.  [VBuiltin path] is a value
    of the standard library (the function [Object], the object
    [Object.prototype], or a member of one of them), named by its
    path. *)
#[warnings="-register-all"]
Inductive value : Type :=
| VUndefined
| VString (s : string)
| VObject (own : gmap string value)
| VBuiltin (path : string).

Inductive exn : Type :=
| Error (msg : string)
| TypeError (msg : string)
| SyntaxError (msg : string)
| InvalidStateError (msg : string).

(** Own property names of [Object.prototype] other than
    [constructor] and [__proto__]. *)
Definition object_prototype_methods : list string :=
  [ "__defineGetter__"; "__defineSetter__"; "hasOwnProperty";
    "__lookupGetter__"; "__lookupSetter__"; "isPrototypeOf";
    "propertyIsEnumerable"; "toString"; "valueOf"; "toLocaleString" ].

(** Own property names of [Function.prototype] and of every function
    object. *)
Definition function_members : list string :=
  [ "length"; "name"; "prototype"; "arguments"; "caller"; "apply";
    "bind"; "call" ].

(** Static members of the constructor [Object]. *)
Definition object_statics : list string :=
  [ "assign"; "create"; "defineProperties"; "defineProperty"; "entries";
    "freeze"; "fromEntries"; "getOwnPropertyDescriptor";
    "getOwnPropertyDescriptors"; "getOwnPropertyNames";
    "getOwnPropertySymbols"; "getPrototypeOf"; "groupBy"; "hasOwn"; "is";
    "isExtensible"; "isFrozen"; "isSealed"; "keys"; "preventExtensions";
    "seal"; "setPrototypeOf"; "values" ].

(** [Object.prototype[k]]: the end of every prototype chain. *)
Definition object_prototype_get (k : string) : value :=
  if decide (k = "constructor") then VBuiltin "Object"
  else if decide (k = "__proto__") then VBuiltin "Object.prototype"
  else if bool_decide (k ∈ object_prototype_methods)
       then VBuiltin ("Object.prototype." ++ k)
       else VUndefined.

(** [v[k]] (and [v.k]).  An object literal finds its own properties
    first and then those of [Object.prototype]; reading a property of
    [undefined] throws.  The members of a string (its length and its
    characters) are left out: no string is ever read from. *)
Definition get_property (v : value) (k : string) : exn + value :=
  match v with
  | VUndefined =>
      inl (TypeError ("Cannot read properties of undefined (reading '" ++ k ++ "')"))
  | VString _ => inr VUndefined
  | VObject own =>
      match own !! k with
      | Some x => inr x
      | None => inr (object_prototype_get k)
      end
  | VBuiltin path =>
      if decide (path = "Object.prototype") then inr (object_prototype_get k)
      else if bool_decide (k ∈ function_members)
              || (bool_decide (path = "Object") && bool_decide (k ∈ object_statics))
           then inr (VBuiltin (path ++ "." ++ k))
           else inr (object_prototype_get k)
  end.

(** ToBoolean.  Every built-in a lookup in an object literal can reach
    ([Object], [Object.prototype] and its methods) is an object, hence
    truthy. *)
Definition truthy (v : value) : bool :=
  match v with
  | VUndefined => false
  | VString s => negb (String.eqb s "")
  | VObject _ => true
  | VBuiltin _ => true
  end.

(** An object literal, from its properties in source order. *)
Definition object_literal (props : list (string * value)) : gmap string value :=
  foldl (λ o kv, <[kv.1 := kv.2]> o) ∅ props.

End Js.

(** ** The page: controller fields, sockets, document, effects *)

Module Page.
Import Js.

Inductive readyState : Type := CONNECTING | OPEN | CLOSING | CLOSED.

#[global] Instance readyState_eq_dec : EqDecision readyState.
Proof. solve_decision. Defined.

(** A [WebSocket] object of the browser: its address, its state and
    the messages handed to [send] so far. *)
Record WebSocket : Type := {
  url : string;
  ws_readyState : readyState;
  sent : list string
}.

(** Options of the terminal widget.  The font family is kept as the
    list of its font names. *)
Record TerminalOptions : Type := {
  cursorBlink : bool;
  theme : gmap string value;
  fontSize : nat;
  fontFamily : list string;
  cols : nat;
  rows : nat
}.

(** The terminal widget: its options and whether the input callback
    of [setupTerminal] is installed. *)
Record Terminal : Type := {
  options : TerminalOptions;
  onData : bool
}.

Record ShellInfo : Type := {
  shell : string;
  args : list string;
  full_command : string
}.

(** The status badge: its class list and its markup. *)
Record Badge : Type := {
  classList : gset string;
  innerHTML : string
}.

(** Click listener of the reconnect button; there is one arrow
    function in the script that is ever registered on it. *)
Inductive listener : Type := ReconnectClick.

(** The reconnect button; listeners are those added through
    [addEventListener], in registration order. *)
Record Button : Type := { listeners : list listener }.

(** What the script reads and writes in the document.  [elements]
    holds the selectors of elements that are only looked up. *)
Record Document : Type := {
  elements : gset string;
  header_title : option string;
  shell_info : option string;
  badge : option Badge;
  reconnect_modal : option bool;
  reconnect_btn : option Button;
  data_theme : option string;
  theme_controllers : list (option string)
}.

(** Functions handed to [setTimeout]. *)
Inductive callback : Type :=
| CbFit
| CbFocus
| CbRestoreScale
| CbConnect.

(** Listeners installed on [window], [document] and the page
    controls. *)
Inductive handler : Type :=
| OnResize
| OnBeforeUnload
| OnCloseClick
| OnMinimizeClick
| OnMaximizeClick
| OnKeydown
| OnThemeClick (controller : nat).

#[global] Instance handler_eq_dec : EqDecision handler.
Proof. solve_decision. Defined.

(** Calls into collaborators, in the order they are made. *)
Inductive effect : Type :=
| TermOpen (mounted : bool)
| TermLoadAddon
| TermClear
| TermWrite (data : string)
| TermWriteln (line : string)
| TermFocus
| Fit
| WsNew (sock : nat) (address : string)
| WsSend (sock : nat) (data : string)
| WsClose (sock : nat)
| ConsoleLog (msg : string)
| ConsoleError (msg : string)
| ModalShow
| ModalClose
| SetTimeout (cb : callback) (ms : nat)
| PreventDefault
| WindowClose
| RequestFullscreen
| SetStyle (target property val : string).

Record World : Type := {
  (* fields of the WebTerminal instance *)
  terminal : option Terminal;
  websocket : option nat;
  fitAddon : bool;
  currentLine : string;
  connected : bool;
  shellInfo : option ShellInfo;
  (* the browser *)
  sockets : list WebSocket;
  document : Document;
  location_protocol : string;
  location_host : string;
  localStorage : gmap string string;
  installed : list handler;
  timers : list (callback * nat);
  trace : list effect
}.

Definition set_terminal (v : option Terminal) (w : World) : World :=
  {| terminal := v; websocket := websocket w; fitAddon := fitAddon w;
     currentLine := currentLine w; connected := connected w;
     shellInfo := shellInfo w; sockets := sockets w;
     document := document w; location_protocol := location_protocol w;
     location_host := location_host w; localStorage := localStorage w;
     installed := installed w; timers := timers w; trace := trace w |}.

Definition set_websocket (v : option nat) (w : World) : World :=
  {| terminal := terminal w; websocket := v; fitAddon := fitAddon w;
     currentLine := currentLine w; connected := connected w;
     shellInfo := shellInfo w; sockets := sockets w;
     document := document w; location_protocol := location_protocol w;
     location_host := location_host w; localStorage := localStorage w;
     installed := installed w; timers := timers w; trace := trace w |}.

Definition set_fitAddon (v : bool) (w : World) : World :=
  {| terminal := terminal w; websocket := websocket w; fitAddon := v;
     currentLine := currentLine w; connected := connected w;
     shellInfo := shellInfo w; sockets := sockets w;
     document := document w; location_protocol := location_protocol w;
     location_host := location_host w; localStorage := localStorage w;
     installed := installed w; timers := timers w; trace := trace w |}.

Definition set_connected (v : bool) (w : World) : World :=
  {| terminal := terminal w; websocket := websocket w; fitAddon := fitAddon w;
     currentLine := currentLine w; connected := v;
     shellInfo := shellInfo w; sockets := sockets w;
     document := document w; location_protocol := location_protocol w;
     location_host := location_host w; localStorage := localStorage w;
     installed := installed w; timers := timers w; trace := trace w |}.

Definition set_shellInfo (v : option ShellInfo) (w : World) : World :=
  {| terminal := terminal w; websocket := websocket w; fitAddon := fitAddon w;
     currentLine := currentLine w; connected := connected w;
     shellInfo := v; sockets := sockets w;
     document := document w; location_protocol := location_protocol w;
     location_host := location_host w; localStorage := localStorage w;
     installed := installed w; timers := timers w; trace := trace w |}.

Definition set_sockets (v : list WebSocket) (w : World) : World :=
  {| terminal := terminal w; websocket := websocket w; fitAddon := fitAddon w;
     currentLine := currentLine w; connected := connected w;
     shellInfo := shellInfo w; sockets := v;
     document := document w; location_protocol := location_protocol w;
     location_host := location_host w; localStorage := localStorage w;
     installed := installed w; timers := timers w; trace := trace w |}.

Definition set_document (v : Document) (w : World) : World :=
  {| terminal := terminal w; websocket := websocket w; fitAddon := fitAddon w;
     currentLine := currentLine w; connected := connected w;
     shellInfo := shellInfo w; sockets := sockets w;
     document := v; location_protocol := location_protocol w;
     location_host := location_host w; localStorage := localStorage w;
     installed := installed w; timers := timers w; trace := trace w |}.

Definition set_localStorage (v : gmap string string) (w : World) : World :=
  {| terminal := terminal w; websocket := websocket w; fitAddon := fitAddon w;
     currentLine := currentLine w; connected := connected w;
     shellInfo := shellInfo w; sockets := sockets w;
     document := document w; location_protocol := location_protocol w;
     location_host := location_host w; localStorage := v;
     installed := installed w; timers := timers w; trace := trace w |}.

Definition set_installed (v : list handler) (w : World) : World :=
  {| terminal := terminal w; websocket := websocket w; fitAddon := fitAddon w;
     currentLine := currentLine w; connected := connected w;
     shellInfo := shellInfo w; sockets := sockets w;
     document := document w; location_protocol := location_protocol w;
     location_host := location_host w; localStorage := localStorage w;
     installed := v; timers := timers w; trace := trace w |}.

Definition set_timers (v : list (callback * nat)) (w : World) : World :=
  {| terminal := terminal w; websocket := websocket w; fitAddon := fitAddon w;
     currentLine := currentLine w; connected := connected w;
     shellInfo := shellInfo w; sockets := sockets w;
     document := document w; location_protocol := location_protocol w;
     location_host := location_host w; localStorage := localStorage w;
     installed := installed w; timers := v; trace := trace w |}.

Definition set_trace (v : list effect) (w : World) : World :=
  {| terminal := terminal w; websocket := websocket w; fitAddon := fitAddon w;
     currentLine := currentLine w; connected := connected w;
     shellInfo := shellInfo w; sockets := sockets w;
     document := document w; location_protocol := location_protocol w;
     location_host := location_host w; localStorage := localStorage w;
     installed := installed w; timers := timers w; trace := v |}.

Definition set_header_title (v : option string) (d : Document) : Document :=
  {| elements := elements d; header_title := v; shell_info := shell_info d;
     badge := badge d; reconnect_modal := reconnect_modal d;
     reconnect_btn := reconnect_btn d; data_theme := data_theme d;
     theme_controllers := theme_controllers d |}.

Definition set_shell_info (v : option string) (d : Document) : Document :=
  {| elements := elements d; header_title := header_title d; shell_info := v;
     badge := badge d; reconnect_modal := reconnect_modal d;
     reconnect_btn := reconnect_btn d; data_theme := data_theme d;
     theme_controllers := theme_controllers d |}.

Definition set_badge (v : option Badge) (d : Document) : Document :=
  {| elements := elements d; header_title := header_title d;
     shell_info := shell_info d; badge := v;
     reconnect_modal := reconnect_modal d;
     reconnect_btn := reconnect_btn d; data_theme := data_theme d;
     theme_controllers := theme_controllers d |}.

Definition set_reconnect_modal (v : option bool) (d : Document) : Document :=
  {| elements := elements d; header_title := header_title d;
     shell_info := shell_info d; badge := badge d; reconnect_modal := v;
     reconnect_btn := reconnect_btn d; data_theme := data_theme d;
     theme_controllers := theme_controllers d |}.

Definition set_reconnect_btn (v : option Button) (d : Document) : Document :=
  {| elements := elements d; header_title := header_title d;
     shell_info := shell_info d; badge := badge d;
     reconnect_modal := reconnect_modal d;
     reconnect_btn := v; data_theme := data_theme d;
     theme_controllers := theme_controllers d |}.

Definition set_data_theme (v : option string) (d : Document) : Document :=
  {| elements := elements d; header_title := header_title d;
     shell_info := shell_info d; badge := badge d;
     reconnect_modal := reconnect_modal d;
     reconnect_btn := reconnect_btn d; data_theme := v;
     theme_controllers := theme_controllers d |}.

Definition set_theme (v : gmap string value) (t : Terminal) : Terminal :=
  {| options :=
       {| cursorBlink := cursorBlink (options t); theme := v;
          fontSize := fontSize (options t);
          fontFamily := fontFamily (options t);
          cols := cols (options t); rows := rows (options t) |};
     onData := onData t |}.

Definition set_readyState (v : readyState) (s : WebSocket) : WebSocket :=
  {| url := url s; ws_readyState := v; sent := sent s |}.

Definition push_sent (data : string) (s : WebSocket) : WebSocket :=
  {| url := url s; ws_readyState := ws_readyState s;
     sent := (sent s ++ [data])%list |}.

(** *** Computations: state, effects and exceptions *)

Inductive outcome (A : Type) : Type :=
| Normal (a : A)
| Throw (e : exn).
Arguments Normal {A} a.
Arguments Throw {A} e.

Definition M (A : Type) : Type := World → World * outcome A.

#[global] Instance M_ret : MRet M := λ A a w, (w, Normal a).

#[global] Instance M_bind : MBind M := λ A B f m w,
  match m w with
  | (w', Normal a) => f a w'
  | (w', Throw e) => (w', Throw e)
  end.

Definition get : M World := λ w, (w, Normal w).
Definition modify (f : World → World) : M unit := λ w, (f w, Normal tt).
Definition throw {A : Type} (e : exn) : M A := λ w, (w, Throw e).

(** [try { body } catch (error) { handler }] *)
Definition try_catch {A : Type} (body : M A) (handler : exn → M A) : M A :=
  λ w, match body w with
       | (w', Normal a) => (w', Normal a)
       | (w', Throw e) => handler e w'
       end.

Definition emit (e : effect) : M unit :=
  modify (λ w, set_trace (trace w ++ [e])%list w).

Definition skip : M unit := mret tt.

Definition exec {A : Type} (m : M A) (w : World) : World := (m w).1.

Definition returns {A : Type} (m : M A) (w : World) : Prop :=
  ∃ a, (m w).2 = Normal a.

Definition null_deref {A : Type} (what member : string) : M A :=
  throw (TypeError ("Cannot read properties of null (reading '"
                      ++ member ++ "') of " ++ what)).

End Page.

(** ** Code common to both copies of the script *)

Module Shared.
Import Js Page JsString.

(** [const x = o.member] on a field that may hold [null]. *)
Definition with_terminal {A : Type} (member : string) (k : Terminal → M A) : M A :=
  w ← get;
  match terminal w with
  | Some t => k t
  | None => null_deref "this.terminal" member
  end.

Definition term_clear : M unit := with_terminal "clear" (λ _, emit TermClear).
Definition term_write (data : string) : M unit :=
  with_terminal "write" (λ _, emit (TermWrite data)).
Definition term_writeln (line : string) : M unit :=
  with_terminal "writeln" (λ _, emit (TermWriteln line)).

Definition console_log (msg : string) : M unit := emit (ConsoleLog msg).
Definition console_error (msg : string) : M unit := emit (ConsoleError msg).

Definition setTimeout (cb : callback) (ms : nat) : M unit :=
  modify (λ w, set_timers (timers w ++ [(cb, ms)])%list w);;
  emit (SetTimeout cb ms).

Definition addEventListener (h : handler) : M unit :=
  modify (λ w, set_installed (installed w ++ [h])%list w).

(** [document.querySelector(sel).addEventListener('click', ...)] *)
Definition addClickListener (sel : string) (h : handler) : M unit :=
  w ← get;
  if bool_decide (sel ∈ elements (document w)) then addEventListener h
  else null_deref ("document.querySelector('" ++ sel ++ "')") "addEventListener".

(** [this.websocket && this.websocket.readyState === WebSocket.OPEN] *)
Definition websocket_is_open (w : World) : bool :=
  match websocket w with
  | Some i =>
      match sockets w !! i with
      | Some s => bool_decide (ws_readyState s = OPEN)
      | None => false
      end
  | None => false
  end.

(** [this.websocket.send(data)], with the behaviour of the browser's
    [send]: it throws while the socket is connecting, transmits while
    it is open and discards the data afterwards. *)
Definition websocket_send (data : string) : M unit :=
  w ← get;
  match websocket w with
  | None => null_deref "this.websocket" "send"
  | Some i =>
      match ws_readyState <$> sockets w !! i with
      | Some CONNECTING => throw (InvalidStateError "Still in CONNECTING state.")
      | Some OPEN =>
          modify (set_sockets (alter (push_sent data) i (sockets w)));;
          emit (WsSend i data)
      | _ => skip
      end
  end.

(** [this.websocket.close()]: the call is made on whatever socket the
    field names; the browser starts the closing handshake when that
    socket is connecting or open and does nothing otherwise. *)
Definition websocket_close : M unit :=
  w ← get;
  match websocket w with
  | None => null_deref "this.websocket" "close"
  | Some i =>
      match ws_readyState <$> sockets w !! i with
      | Some CONNECTING | Some OPEN =>
          modify (set_sockets (alter (set_readyState CLOSING) i (sockets w)));;
          emit (WsClose i)
      | _ => emit (WsClose i)
      end
  end.

(** [new WebSocket(wsUrl)]: a fresh socket, connecting. *)
Definition new_WebSocket (wsUrl : string) : M nat :=
  w ← get;
  let i := List.length (sockets w) in
  modify (set_sockets
            (sockets w ++ [{| url := wsUrl; ws_readyState := CONNECTING;
                              sent := [] |}])%list);;
  emit (WsNew i wsUrl);;
  mret i.

(** First lines of [connectWebSocket]: the address and the socket. *)
Definition open_socket : M unit :=
  w ← get;
  let protocol :=
    if String.eqb (location_protocol w) "https:" then "wss:" else "ws:" in
  let wsUrl := protocol ++ "//" ++ location_host w ++ "/ws" in
  i ← new_WebSocket wsUrl;
  modify (set_websocket (Some i)).

Definition initial_theme : gmap string value :=
  object_literal
    [ ("background", VString "#1e1e1e"); ("foreground", VString "#ffffff");
      ("cursor", VString "#ffffff");
      ("selection", VString "rgba(255, 255, 255, 0.3)");
      ("black", VString "#000000"); ("red", VString "#cd3131");
      ("green", VString "#0dbc79"); ("yellow", VString "#e5e510");
      ("blue", VString "#2472c8"); ("magenta", VString "#bc3fbc");
      ("cyan", VString "#11a8cd"); ("white", VString "#e5e5e5");
      ("brightBlack", VString "#666666"); ("brightRed", VString "#f14c4c");
      ("brightGreen", VString "#23d18b"); ("brightYellow", VString "#f5f543");
      ("brightBlue", VString "#3b8eea"); ("brightMagenta", VString "#d670d6");
      ("brightCyan", VString "#29b8db"); ("brightWhite", VString "#e5e5e5") ].

Definition initial_options : TerminalOptions :=
  {| cursorBlink := true; theme := initial_theme; fontSize := 14;
     fontFamily := ["Fira Code"; "Cascadia Code"; "Menlo"; "Monaco"; "monospace"];
     cols := 80; rows := 24 |}.

(** Callback of [terminal.onData]. *)
Definition on_data (data : string) : M unit :=
  w ← get;
  if websocket_is_open w then websocket_send data else skip.

(** [terminal.open(terminalElement)] throws when [getElementById]
    found no element: the widget requires a parent element. *)
Definition setupTerminal : M unit :=
  modify (set_terminal (Some {| options := initial_options; onData := false |}));;
  modify (set_fitAddon true);;
  with_terminal "loadAddon" (λ _, emit TermLoadAddon);;
  w ← get;
  let mounted := bool_decide ("#terminal" ∈ elements (document w)) in
  with_terminal "open"
    (λ _, emit (TermOpen mounted);;
          if mounted then skip
          else throw (Error "Terminal requires a parent element."));;
  setTimeout CbFit 100;;
  with_terminal "onData"
    (λ t, modify (set_terminal (Some {| options := options t; onData := true |})));;
  term_writeln "Welcome to Web Terminal";;
  term_writeln "Connecting to server...".

(** [websocket.onmessage] *)
Definition onmessage (event_data : string) : M unit :=
  let data := replace_global LF CRLF event_data in
  term_write data.

(** [websocket.onerror] *)
Definition onerror : M unit :=
  term_writeln (String CR (String LF (String LF "Connection error occurred")));;
  console_error "WebSocket error:".

Definition sendKeyboardInterrupt : M unit :=
  w ← get;
  if websocket_is_open w then websocket_send (String ETX "") else skip.

Definition focus : M unit :=
  w ← get;
  match terminal w with
  | Some _ => emit TermFocus
  | None => skip
  end.

(** [this.fitAddon.fit()] inside a timer. *)
Definition fit : M unit :=
  w ← get;
  if fitAddon w then emit Fit else null_deref "this.fitAddon" "fit".

Definition on_resize : M unit :=
  w ← get;
  if fitAddon w then setTimeout CbFit 100 else skip.

Definition on_beforeunload : M unit :=
  w ← get;
  match websocket w with
  | Some _ => websocket_close
  | None => skip
  end.

(** The close control; [confirmed] is the answer to [confirm]. *)
Definition on_close_click (confirmed : bool) : M unit :=
  if confirmed then emit WindowClose else skip.

Definition on_keydown (ctrlKey : bool) (key : string) : M unit :=
  if ctrlKey && String.eqb key "c" then
    emit PreventDefault;;
    sendKeyboardInterrupt
  else skip.

(** [if (element) element.textContent = text] *)
Definition set_text (present : option string) (text : string) : option string :=
  match present with
  | Some _ => Some text
  | None => None
  end.

(** A socket event reaches its handler when the socket exists and is
    in one of the states [from]; [to] is the state the browser gives
    it before the handler runs. *)
Definition socket_event (i : nat) (from : list readyState)
    (to : option readyState) (h : M unit) : M unit :=
  w ← get;
  match sockets w !! i with
  | Some s =>
      if bool_decide (ws_readyState s ∈ from) then
        match to with
        | Some st => modify (set_sockets (alter (set_readyState st) i (sockets w)))
        | None => skip
        end;;
        h
      else skip
  | None => skip
  end.

Definition when_installed (h : handler) (body : M unit) : M unit :=
  w ← get;
  if bool_decide (h ∈ installed w) then body else skip.

(** What the metadata request can end in: [fetch] rejects, the body
    is not JSON, or a description of the expected shape arrives. *)
Inductive fetch_outcome : Type :=
| NetworkError
| Unparsable
| Loaded (info : ShellInfo).

Definition await_shell_info (r : fetch_outcome) : M ShellInfo :=
  match r with
  | NetworkError => throw (TypeError "Failed to fetch")
  | Unparsable => throw (SyntaxError "Unexpected token in JSON")
  | Loaded info => mret info
  end.

Definition default_shellInfo : ShellInfo :=
  {| shell := "bash"; args := ["-i"]; full_command := "bash -i" |}.

(** State of the page when the script starts: the fields as the
    constructor leaves them. *)
Definition boot (doc : Document) (protocol host : string)
    (storage : gmap string string) : World :=
  {| terminal := None; websocket := None; fitAddon := false;
     currentLine := ""; connected := false; shellInfo := None;
     sockets := []; document := doc; location_protocol := protocol;
     location_host := host; localStorage := storage; installed := [];
     timers := []; trace := [] |}.

End Shared.

(** ** [static/app.js]: the copy with status badge, themes and
     reconnect dialog *)

Module App.
Import Js Page JsString Shared.

Definition dq : string := String (Ascii.ascii_of_nat 34) "".

Definition connected_markup : string :=
  "<div class=" ++ dq ++ "w-2 h-2 rounded-full bg-success animate-pulse"
    ++ dq ++ "></div>Connected".

Definition disconnected_markup : string :=
  "<div class=" ++ dq ++ "w-2 h-2 rounded-full bg-error"
    ++ dq ++ "></div>Disconnected".

(** A statement on [badge] guarded by [?.] or [if (badge)]. *)
Definition on_badge (f : Badge → Badge) : M unit :=
  modify (λ w, set_document (set_badge (f <$> badge (document w)) (document w)) w).

Definition classList_remove (c : string) (b : Badge) : Badge :=
  {| classList := classList b ∖ {[c]}; innerHTML := innerHTML b |}.
Definition classList_add (c : string) (b : Badge) : Badge :=
  {| classList := classList b ∪ {[c]}; innerHTML := innerHTML b |}.
Definition set_innerHTML (html : string) (b : Badge) : Badge :=
  {| classList := classList b; innerHTML := html |}.

Definition updateConnectionStatus : M unit :=
  w ← get;
  if connected w then
    on_badge (classList_remove "badge-error");;
    on_badge (classList_add "badge-success");;
    on_badge (set_innerHTML connected_markup)
  else
    on_badge (classList_remove "badge-success");;
    on_badge (classList_add "badge-error");;
    on_badge (set_innerHTML disconnected_markup).

(** [connectWebSocket]: every socket of this copy is created here and
    is given the four handlers [onopen], [onmessage], [onclose] and
    [onerror] below; [dispatch] runs them on the socket's events. *)
Definition connectWebSocket : M unit := open_socket.

Definition on_modal (member : string) (opened : bool) (e : effect) : M unit :=
  w ← get;
  match reconnect_modal (document w) with
  | None => null_deref "modal" member
  | Some _ =>
      modify (λ w, set_document (set_reconnect_modal (Some opened) (document w)) w);;
      emit e
  end.

(** Listener body registered by [showReconnectDialog]. *)
Definition reconnect_click : M unit :=
  on_modal "close" false ModalClose;;
  term_writeln "Attempting to reconnect...";;
  connectWebSocket.

(** [cloneNode(true)] copies attributes and children, not the
    listeners added with [addEventListener]. *)
Definition cloneNode (b : Button) : Button := {| listeners := [] |}.

Definition add_listener (l : listener) (b : Button) : Button :=
  {| listeners := (listeners b ++ [l])%list |}.

Definition put_reconnect_btn (b : Button) : M unit :=
  modify (λ w, set_document (set_reconnect_btn (Some b) (document w)) w).

Definition showReconnectDialog : M unit :=
  w ← get;
  match reconnect_btn (document w) with
  | None => null_deref "reconnectBtn" "cloneNode"
  | Some reconnectBtn =>
      let newReconnectBtn := cloneNode reconnectBtn in
      (* replaceChild puts the clone in the document; the listener is
         then added to that same node *)
      put_reconnect_btn newReconnectBtn;;
      put_reconnect_btn (add_listener ReconnectClick newReconnectBtn);;
      on_modal "showModal" true ModalShow
  end.

(** [websocket.onopen] *)
Definition onopen : M unit :=
  term_clear;;
  term_writeln "Connected to terminal server";;
  modify (set_connected true);;
  updateConnectionStatus;;
  console_log "WebSocket connected".

(** [websocket.onclose] *)
Definition onclose : M unit :=
  term_writeln (String CR (String LF (String LF "Connection closed.")));;
  modify (set_connected false);;
  updateConnectionStatus;;
  console_log "WebSocket closed";;
  showReconnectDialog.

Definition fetchShellInfo (r : fetch_outcome) : M unit :=
  try_catch
    (shellInfo ← await_shell_info r;
     modify (set_shellInfo (Some shellInfo));;
     modify (λ w, set_document
                    (set_header_title
                       (set_text (header_title (document w))
                          ("Web Terminal - " ++ shell shellInfo))
                       (document w)) w);;
     modify (λ w, set_document
                    (set_shell_info
                       (set_text (shell_info (document w))
                          ("Shell: " ++ shell shellInfo ++ " "
                             ++ join " " (args shellInfo)))
                       (document w)) w);;
     console_log "Shell info loaded:")
    (λ error,
       console_error "Failed to fetch shell info:";;
       modify (set_shellInfo (Some default_shellInfo))).

Definition on_minimize_click : M unit :=
  w ← get;
  if bool_decide (".container" ∈ elements (document w)) then
    emit (SetStyle ".container" "transform" "scale(0.9)");;
    emit (SetStyle ".container" "transition" "transform 0.2s ease");;
    setTimeout CbRestoreScale 200
  else null_deref "container" "style".

Definition on_maximize_click : M unit := emit RequestFullscreen.

Definition setupEventListeners : M unit :=
  addEventListener OnResize;;
  addEventListener OnBeforeUnload;;
  addClickListener ".control-button.close" OnCloseClick;;
  addClickListener ".control-button.minimize" OnMinimizeClick;;
  addClickListener ".control-button.maximize" OnMaximizeClick;;
  addEventListener OnKeydown.

Definition theme_object (background foreground cursor : string) : value :=
  VObject (object_literal
             [ ("background", VString background);
               ("foreground", VString foreground);
               ("cursor", VString cursor) ]).

(** The table [themes] of [updateTerminalTheme]. *)
Definition themes : value :=
  VObject (object_literal
             [ ("dark", theme_object "#1f2937" "#f9fafb" "#3b82f6");
               ("light", theme_object "#ffffff" "#111827" "#3b82f6");
               ("cyberpunk", theme_object "#0a0a0a" "#00ff00" "#ff00ff");
               ("synthwave", theme_object "#1a1a2e" "#ff6b9d" "#00d2ff") ]).

Definition read (v : value) (k : string) : M value :=
  match get_property v k with
  | inl e => throw e
  | inr x => mret x
  end.

(** [themes[theme] || themes.dark] *)
Definition select_theme (theme : string) : M value :=
  chosen ← read themes theme;
  if truthy chosen then mret chosen else read themes "dark".

Definition updateTerminalTheme (theme : string) : M unit :=
  w ← get;
  match terminal w with
  | None => skip
  | Some t =>
      selectedTheme ← select_theme theme;
      let spread := Page.theme (options t) in
      background ← read selectedTheme "background";
      foreground ← read selectedTheme "foreground";
      cursor ← read selectedTheme "cursor";
      modify (set_terminal
                (Some (set_theme
                         (<["cursor" := cursor]>
                            (<["foreground" := foreground]>
                               (<["background" := background]> spread)))
                         t)))
  end.

(** ToString of an attribute value that may be [null]. *)
Definition to_string (attr : option string) : string := default "null" attr.

Definition setAttribute_data_theme (val : string) : M unit :=
  modify (λ w, set_document (set_data_theme (Some val) (document w)) w).

(** Click listener of the theme control number [k]. *)
Definition on_theme_click (k : nat) : M unit :=
  w ← get;
  match theme_controllers (document w) !! k with
  | None => skip
  | Some attr =>
      emit PreventDefault;;
      let theme := to_string attr in
      setAttribute_data_theme theme;;
      updateTerminalTheme theme;;
      modify (λ w, set_localStorage (<["terminal-theme" := theme]> (localStorage w)) w)
  end.

Definition setupThemeController : M unit :=
  w ← get;
  modify (λ w, set_installed
                 (installed w
                    ++ imap (λ k _, OnThemeClick k) (theme_controllers (document w)))%list
                 w);;
  let savedTheme :=
    match localStorage w !! "terminal-theme" with
    | Some stored => if String.eqb stored "" then "dark" else stored
    | None => "dark"
    end in
  setAttribute_data_theme savedTheme;;
  updateTerminalTheme savedTheme.

Definition init (r : fetch_outcome) : M unit :=
  fetchShellInfo r;;
  setupTerminal;;
  connectWebSocket;;
  setupEventListeners;;
  setupThemeController;;
  updateConnectionStatus.

(** The [DOMContentLoaded] listener: the constructor starts [init],
    which waits for the metadata; the focus timer is set meanwhile. *)
Definition main (r : fetch_outcome) : M unit :=
  setTimeout CbFocus 500;;
  init r.

(** *** The event loop *)

Inductive event : Type :=
| SocketOpen (sock : nat)
| SocketMessage (sock : nat) (data : string)
| SocketError (sock : nat)
| SocketClose (sock : nat)
| Input (data : string)
| Keydown (ctrlKey : bool) (key : string)
| Resize
| BeforeUnload
| ClickClose (confirmed : bool)
| ClickMinimize
| ClickMaximize
| ClickTheme (controller : nat)
| ClickReconnect
| TimerFired (n : nat).

(** An exception in a listener is reported and the other listeners
    still run. *)
Definition isolated (body : M unit) : M unit := try_catch body (λ _, skip).

Definition run_listener (l : listener) : M unit :=
  match l with
  | ReconnectClick => reconnect_click
  end.

Fixpoint run_listeners (ls : list listener) : M unit :=
  match ls with
  | [] => skip
  | l :: rest => isolated (run_listener l);; run_listeners rest
  end.

(** This copy never schedules [CbConnect]. *)
Definition run_callback (cb : callback) : M unit :=
  match cb with
  | CbFit => fit
  | CbFocus => focus
  | CbRestoreScale => emit (SetStyle ".container" "transform" "scale(1)")
  | CbConnect => skip
  end.

Definition dispatch (e : event) : M unit :=
  match e with
  | SocketOpen i => socket_event i [CONNECTING] (Some OPEN) onopen
  | SocketMessage i data => socket_event i [OPEN; CLOSING] None (onmessage data)
  | SocketError i => socket_event i [CONNECTING; OPEN; CLOSING] None onerror
  | SocketClose i => socket_event i [CONNECTING; OPEN; CLOSING] (Some CLOSED) onclose
  | Input data =>
      w ← get;
      match terminal w with
      | Some t => if onData t then on_data data else skip
      | None => skip
      end
  | Keydown ctrlKey key => when_installed OnKeydown (on_keydown ctrlKey key)
  | Resize => when_installed OnResize on_resize
  | BeforeUnload => when_installed OnBeforeUnload on_beforeunload
  | ClickClose confirmed => when_installed OnCloseClick (on_close_click confirmed)
  | ClickMinimize => when_installed OnMinimizeClick on_minimize_click
  | ClickMaximize => when_installed OnMaximizeClick on_maximize_click
  | ClickTheme k => when_installed (OnThemeClick k) (on_theme_click k)
  | ClickReconnect =>
      w ← get;
      match reconnect_btn (document w) with
      | Some b => run_listeners (listeners b)
      | None => skip
      end
  | TimerFired n =>
      w ← get;
      match timers w !! n with
      | Some (cb, _) =>
          modify (set_timers (delete n (timers w)));;
          run_callback cb
      | None => skip
      end
  end.

(** One turn of the event loop; an exception escaping a handler ends
    that turn only. *)
Definition step (w : World) (e : event) : World := exec (dispatch e) w.

Definition run (w : World) (es : list event) : World := foldl step w es.

End App.

(** ** The older copy of the script: no badge, no themes, no dialog;
     the connection is retried from a timer *)

Module Legacy.
Import Js Page JsString Shared.

(** [connectWebSocket]: as in the other copy, every socket is created
    here and carries the four handlers below. *)
Definition connectWebSocket : M unit := open_socket.

(** [websocket.onopen] *)
Definition onopen : M unit :=
  term_clear;;
  term_writeln "Connected to terminal server";;
  console_log "WebSocket connected".

(** [websocket.onclose] *)
Definition onclose : M unit :=
  term_writeln
    (String CR (String LF (String LF
       "Connection closed. Attempting to reconnect...")));;
  console_log "WebSocket closed";;
  setTimeout CbConnect 3000.

Definition fetchShellInfo (r : fetch_outcome) : M unit :=
  try_catch
    (shellInfo ← await_shell_info r;
     modify (set_shellInfo (Some shellInfo));;
     modify (λ w, set_document
                    (set_header_title
                       (set_text (header_title (document w))
                          ("Web Terminal - " ++ shell shellInfo))
                       (document w)) w);;
     console_log "Shell info loaded:")
    (λ error,
       console_error "Failed to fetch shell info:";;
       modify (set_shellInfo (Some default_shellInfo))).

Definition on_minimize_click : M unit :=
  emit (SetStyle "body" "transform" "scale(0.8)");;
  emit (SetStyle "body" "transformOrigin" "top left").

Definition on_maximize_click : M unit :=
  emit (SetStyle "body" "transform" "scale(1)");;
  emit (SetStyle "body" "transformOrigin" "top left").

Definition setupEventListeners : M unit :=
  addEventListener OnResize;;
  addEventListener OnBeforeUnload;;
  addClickListener ".control-button.close" OnCloseClick;;
  addClickListener ".control-button.minimize" OnMinimizeClick;;
  addClickListener ".control-button.maximize" OnMaximizeClick;;
  addEventListener OnKeydown.

Definition init (r : fetch_outcome) : M unit :=
  fetchShellInfo r;;
  setupTerminal;;
  connectWebSocket;;
  setupEventListeners.

Definition main (r : fetch_outcome) : M unit :=
  setTimeout CbFocus 500;;
  init r.

Inductive event : Type :=
| SocketOpen (sock : nat)
| SocketMessage (sock : nat) (data : string)
| SocketError (sock : nat)
| SocketClose (sock : nat)
| Input (data : string)
| Keydown (ctrlKey : bool) (key : string)
| Resize
| BeforeUnload
| ClickClose (confirmed : bool)
| ClickMinimize
| ClickMaximize
| TimerFired (n : nat).

(** This copy never schedules [CbRestoreScale]. *)
Definition run_callback (cb : callback) : M unit :=
  match cb with
  | CbFit => fit
  | CbFocus => focus
  | CbRestoreScale => skip
  | CbConnect => connectWebSocket
  end.

Definition dispatch (e : event) : M unit :=
  match e with
  | SocketOpen i => socket_event i [CONNECTING] (Some OPEN) onopen
  | SocketMessage i data => socket_event i [OPEN; CLOSING] None (onmessage data)
  | SocketError i => socket_event i [CONNECTING; OPEN; CLOSING] None onerror
  | SocketClose i =>
      socket_event i [CONNECTING; OPEN; CLOSING] (Some CLOSED) onclose
  | Input data =>
      w ← get;
      match terminal w with
      | Some t => if onData t then on_data data else skip
      | None => skip
      end
  | Keydown ctrlKey key => when_installed OnKeydown (on_keydown ctrlKey key)
  | Resize => when_installed OnResize on_resize
  | BeforeUnload => when_installed OnBeforeUnload on_beforeunload
  | ClickClose confirmed =>
      when_installed OnCloseClick (on_close_click confirmed)
  | ClickMinimize => when_installed OnMinimizeClick on_minimize_click
  | ClickMaximize => when_installed OnMaximizeClick on_maximize_click
  | TimerFired n =>
      w ← get;
      match timers w !! n with
      | Some (cb, _) =>
          modify (set_timers (delete n (timers w)));;
          run_callback cb
      | None => skip
      end
  end.

Definition step (w : World) (e : event) : World := exec (dispatch e) w.

Definition run (w : World) (es : list event) : World := foldl step w es.

End Legacy.

(** ** Worlds and relations the properties are stated with *)

Module Obs.
Import Js Page JsString Shared.

(** [m] moves every world to one related to it by [R], whether it
    returns or throws. *)
Definition stable (R : World → World → Prop) {A : Type} (m : M A) : Prop :=
  ∀ w, R w (m w).1.

(** [m] returns normally from every world. *)
Definition safe {A : Type} (m : M A) : Prop := ∀ w, returns m w.

(** Worlds that agree on the observation [f]. *)
Definition same {A : Type} (f : World → A) : World → World → Prop :=
  λ w w', f w' = f w.

(** The page after [data] was handed to the open socket [i]. *)
Definition forwarded (i : nat) (data : string) (w : World) : World :=
  set_trace (trace w ++ [WsSend i data])%list
    (set_sockets (alter (push_sent data) i (sockets w)) w).

(** The address [connectWebSocket] computes. *)
Definition ws_address (w : World) : string :=
  (if String.eqb (location_protocol w) "https:" then "wss:" else "ws:")
    ++ "//" ++ location_host w ++ "/ws".

(** The page after [connectWebSocket]: one more socket, connecting, and
    [this.websocket] pointing at it. *)
Definition connecting (w : World) : World :=
  set_websocket (Some (List.length (sockets w)))
    (set_trace (trace w ++ [WsNew (List.length (sockets w)) (ws_address w)])%list
       (set_sockets
          (sockets w ++ [{| url := ws_address w; ws_readyState := CONNECTING;
                            sent := [] |}])%list w)).

(** The page once the reconnect listener has closed the dialog and
    written its notice. *)
Definition announced (w : World) : World :=
  set_trace (trace w ++ [ModalClose; TermWriteln "Attempting to reconnect..."])%list
    (set_document (set_reconnect_modal (Some false) (document w)) w).

(** Click listeners on the reconnect button that is in the document. *)
Definition btn_listeners (w : World) : list listener :=
  match reconnect_btn (document w) with
  | Some b => listeners b
  | None => []
  end.

Definition is_connect (e : effect) : bool :=
  match e with
  | WsNew _ _ => true
  | _ => false
  end.

Definition is_close (e : effect) : bool :=
  match e with
  | WsClose _ => true
  | _ => false
  end.

(** Number of connection attempts recorded in a trace. *)
Definition attempts (tr : list effect) : nat :=
  List.length (List.filter is_connect tr).

Definition at_most_one_listener : World → World → Prop :=
  λ w w', (List.length (btn_listeners w) ≤ 1)%nat →
          (List.length (btn_listeners w') ≤ 1)%nat.

Definition badge_disconnected (b : Badge) : Badge :=
  App.set_innerHTML App.disconnected_markup
    (App.classList_add "badge-error" (App.classList_remove "badge-success" b)).

Definition closed_notice : string :=
  String CR (String LF (String LF "Connection closed.")).
Definition retry_notice : string :=
  String CR (String LF (String LF "Connection closed. Attempting to reconnect...")).
Definition error_notice : string :=
  String CR (String LF (String LF "Connection error occurred")).

(** The page after [App.onclose]. *)
Definition after_close (w : World) : World :=
  set_trace
    (trace w ++
       [TermWriteln closed_notice; ConsoleLog "WebSocket closed"; ModalShow])%list
    (set_document
       (set_reconnect_modal (Some true)
          (set_reconnect_btn (Some {| listeners := [ReconnectClick] |})
             (set_badge (badge_disconnected <$> badge (document w)) (document w))))
       (set_connected false w)).

(** The page after [Legacy.onclose]. *)
Definition retry_scheduled (w : World) : World :=
  set_trace
    (trace w ++
       [TermWriteln retry_notice; ConsoleLog "WebSocket closed";
        SetTimeout CbConnect 3000])%list
    (set_timers (timers w ++ [(CbConnect, 3000)])%list w).

(** The page after [onerror]. *)
Definition error_reported (w : World) : World :=
  set_trace
    (trace w ++ [TermWriteln error_notice; ConsoleError "WebSocket error:"])%list w.

(** The browser marks socket [i] closed. *)
Definition mark_closed (i : nat) (w : World) : World :=
  set_sockets (alter (set_readyState CLOSED) i (sockets w)) w.

(** The page after the [catch] branch of [fetchShellInfo]. *)
Definition fallback (w : World) : World :=
  set_shellInfo (Some default_shellInfo)
    (set_trace (trace w ++ [ConsoleError "Failed to fetch shell info:"])%list w).

(** The page after [setupTerminal], when the document has the mount
    element. *)
Definition terminal_ready (w : World) : World :=
  set_trace
    (trace w ++
       [TermLoadAddon; TermOpen true;
        SetTimeout CbFit 100; TermWriteln "Welcome to Web Terminal";
        TermWriteln "Connecting to server..."])%list
    (set_timers (timers w ++ [(CbFit, 100)])%list
       (set_fitAddon true
          (set_terminal (Some {| options := initial_options; onData := true |}) w))).

(** What the steps of [init] after the transport step leave alone. *)
Definition started (w w' : World) : Prop :=
  shellInfo w' = shellInfo w
  ∧ websocket w' = websocket w
  ∧ sockets w' = sockets w
  ∧ elements (document w') = elements (document w)
  ∧ (∀ t, terminal w = Some t → ∃ t', terminal w' = Some t' ∧ onData t' = onData t)
  ∧ trace w `prefix_of` trace w'.

(** Field [k] of the widget's theme, when there is a widget. *)
Definition theme_field (k : string) (w : World) : option (option value) :=
  (λ t, theme (options t) !! k) <$> terminal w.

(** The widget after the three colours were overwritten. *)
Definition recoloured (background foreground cursor : value) (t : Terminal) : Terminal :=
  set_theme (<["cursor" := cursor]>
               (<["foreground" := foreground]>
                  (<["background" := background]> (theme (options t))))) t.

Definition known_themes : list string := ["dark"; "light"; "cyberpunk"; "synthwave"].

(** The theme fields other than the three colours: the selection and
    the sixteen ANSI colours. *)
Definition palette_fields : list string :=
  [ "selection"; "black"; "red"; "green"; "yellow"; "blue"; "magenta"; "cyan";
    "white"; "brightBlack"; "brightRed"; "brightGreen"; "brightYellow";
    "brightBlue"; "brightMagenta"; "brightCyan"; "brightWhite" ].

(** The selectors [setupEventListeners] dereferences. *)
Definition control_buttons : gset string :=
  {[ ".control-button.close"; ".control-button.minimize";
     ".control-button.maximize" ]}.

(** *** A page to run the script on *)

Definition sample_document : Document :=
  {| elements :=
       {[ "#terminal"; ".control-button.close"; ".control-button.minimize";
          ".control-button.maximize"; ".container" ]};
     header_title := Some "Web Terminal";
     shell_info := Some "";
     badge := Some {| classList := {[ "badge" ]}; innerHTML := "" |};
     reconnect_modal := Some false;
     reconnect_btn := Some {| listeners := [] |};
     data_theme := None;
     theme_controllers := [Some "dark"; Some "light"; Some "cyberpunk"; Some "synthwave"] |}.

Definition sample_boot : World :=
  boot sample_document "http:" "localhost:3000" ∅.

(** [static/app.js] started while the metadata endpoint is down. *)
Definition app_started : World := exec (App.main NetworkError) sample_boot.

(** ... and its first socket open. *)
Definition app_open : World := App.run app_started [App.SocketOpen 0].

(** The older copy, started the same way, its first socket open. *)
Definition legacy_open : World :=
  Legacy.run (exec (Legacy.main NetworkError) sample_boot) [Legacy.SocketOpen 0].

(** A page whose stored theme preference is the name [constructor]. *)
Definition constructor_boot : World :=
  boot sample_document "http:" "localhost:3000"
    {[ "terminal-theme" := "constructor" ]}.

End Obs.

(** ** Invariants and observations of whole runs *)

Module Inv.
Import Js Page JsString Shared Obs.

(** [m] relates the one world [w] to the world it leaves. *)
Definition stable_at (R : World → World → Prop) {A : Type} (m : M A)
    (w : World) : Prop :=
  R w (m w).1.

(** [P] holds again after [m] whenever it held before. *)
Definition keeps (P : World → Prop) : World → World → Prop :=
  λ w w', P w → P w'.

(** [this.websocket] is the socket created last, or [null] while no
    socket was created. *)
Definition newest (w : World) : Prop :=
  match websocket w with
  | Some i => S i = List.length (sockets w)
  | None => sockets w = []
  end.

Definition is_live (s : WebSocket) : bool :=
  negb (bool_decide (ws_readyState s = CLOSED)).

Definition is_retry (timer : callback * nat) : bool :=
  match timer.1 with
  | CbConnect => true
  | _ => false
  end.

(** Sockets that are not closed. *)
Definition live (w : World) : nat := List.length (List.filter is_live (sockets w)).

(** Reconnection timers that have not fired. *)
Definition pending (w : World) : nat := List.length (List.filter is_retry (timers w)).

(** Connection attempts made and sockets created so far. *)
Definition counts (w : World) : nat * nat :=
  (attempts (trace w), List.length (sockets w)).

(** The world a socket event hands to its handler. *)
Definition handed (to : option readyState) (i : nat) (w : World) : World :=
  match to with
  | Some st => set_sockets (alter (set_readyState st) i (sockets w)) w
  | None => w
  end.

(** Clicks on the reconnect button among the events [es]. *)
Definition clicks (es : list App.event) : nat :=
  List.length (List.filter (λ e, match e with App.ClickReconnect => true | _ => false end) es).

(** Timers among the events [es]. *)
Definition timer_events (es : list Legacy.event) : nat :=
  List.length (List.filter (λ e, match e with Legacy.TimerFired _ => true | _ => false end) es).

(** The older copy has one connection, live or about to be made. *)
Definition one_connection (w : World) : Prop :=
  is_Some (terminal w) ∧ live w + pending w = 1.

(** No connection and no retry under way. *)
Definition idle (w : World) : Prop := live w = 0 ∧ pending w = 0.

Definition status_markup (c : bool) : string :=
  if c then App.connected_markup else App.disconnected_markup.

(** The badge [b] is in the form [updateConnectionStatus] gives it for
    the flag [c]. *)
Definition badge_shows (c : bool) (b : Badge) : Prop :=
  innerHTML b = status_markup c
  ∧ ("badge-success" ∈ classList b ↔ c = true)
  ∧ ("badge-error" ∈ classList b ↔ c = false).

Definition badge_in_sync (w : World) : Prop :=
  ∀ b, badge (document w) = Some b → badge_shows (connected w) b.

(** The badge as [updateConnectionStatus] leaves it. *)
Definition badge_for (c : bool) (b : Badge) : Badge :=
  if c then
    App.set_innerHTML App.connected_markup
      (App.classList_add "badge-success" (App.classList_remove "badge-error" b))
  else badge_disconnected b.

(** The page after [updateConnectionStatus]. *)
Definition synced (w : World) : World :=
  set_document
    (set_badge (badge_for (connected w) <$> badge (document w)) (document w)) w.

(** The page after [App.onopen]. *)
Definition after_open (w : World) : World :=
  set_trace
    (trace w ++
       [TermClear; TermWriteln "Connected to terminal server";
        ConsoleLog "WebSocket connected"])%list
    (set_document
       (set_badge (badge_for true <$> badge (document w)) (document w))
       (set_connected true w)).

(** The page after [Legacy.onopen]. *)
Definition greeted (w : World) : World :=
  set_trace
    (trace w ++
       [TermClear; TermWriteln "Connected to terminal server";
        ConsoleLog "WebSocket connected"])%list w.

(** The browser marks socket [i] open. *)
Definition mark_open (i : nat) (w : World) : World :=
  set_sockets (alter (set_readyState OPEN) i (sockets w)) w.

(** The value of [themes[name] || themes.dark]. *)
Definition selected (name : string) : value :=
  match get_property App.themes name with
  | inr chosen =>
      if truthy chosen then chosen
      else match get_property App.themes "dark" with
           | inr dark => dark
           | inl _ => VUndefined
           end
  | inl _ => VUndefined
  end.

(** The colour [k] that [updateTerminalTheme name] writes. *)
Definition colour (name k : string) : value :=
  match get_property (selected name) k with
  | inr c => c
  | inl _ => VUndefined
  end.

(** The name [setupThemeController] reads back from the storage. *)
Definition saved_theme (storage : gmap string string) : string :=
  match storage !! "terminal-theme" with
  | Some stored => if String.eqb stored "" then "dark" else stored
  | None => "dark"
  end.

(** The description a metadata outcome leaves in [this.shellInfo]. *)
Definition described (r : fetch_outcome) : ShellInfo :=
  match r with
  | Loaded info => info
  | _ => default_shellInfo
  end.

Definition title_text (info : ShellInfo) : string :=
  "Web Terminal - " ++ shell info.

Definition shell_line (info : ShellInfo) : string :=
  "Shell: " ++ shell info ++ " " ++ join " " (args info).

(** The texts written to the widget, in order. *)
Fixpoint written (tr : list effect) : string :=
  match tr with
  | [] => ""
  | TermWrite data :: rest => data ++ written rest
  | _ :: rest => written rest
  end.

(** A document like the sample one, without the close control. *)
Definition document_without_close : Document :=
  {| elements := {[ "#terminal"; ".control-button.minimize";
                    ".control-button.maximize"; ".container" ]};
     header_title := Some "Web Terminal";
     shell_info := Some "";
     badge := Some {| classList := {[ "badge" ]}; innerHTML := "" |};
     reconnect_modal := Some false;
     reconnect_btn := Some {| listeners := [] |};
     data_theme := None;
     theme_controllers := [Some "dark"; Some "light"] |}.

(** The older copy started, its first socket open. *)
Definition legacy_started : World := exec (Legacy.main NetworkError) sample_boot.

(** The page after the theme [name] was applied: the attribute of the
    root element and the three colours of the widget, if there is
    one. *)
Definition themed (name : string) (w : World) : World :=
  set_terminal
    (recoloured (colour name "background") (colour name "foreground")
       (colour name "cursor") <$> terminal w)
    (set_document (set_data_theme (Some name) (document w)) w).

(** The page when [setupTerminal] stops in [terminal.open]: the
    widget and the add-on are created, nothing else is. *)
Definition unmounted (w : World) : World :=
  set_trace (trace w ++ [TermLoadAddon; TermOpen false])%list
    (set_fitAddon true
       (set_terminal (Some {| options := initial_options; onData := false |}) w)).

(** The page after the focus timer of the [DOMContentLoaded] listener
    was set. *)
Definition focus_timer (w : World) : World :=
  set_trace (trace w ++ [SetTimeout CbFocus 500])%list
    (set_timers (timers w ++ [(CbFocus, 500)])%list w).

(** The page after a description was stored and put in the title. *)
Definition titled (info : ShellInfo) (w : World) : World :=
  set_document
    (set_header_title (set_text (header_title (document w)) (title_text info))
       (document w))
    (set_shellInfo (Some info) w).

(** ... and in the shell line. *)
Definition lined (info : ShellInfo) (w : World) : World :=
  set_document
    (set_shell_info (set_text (shell_info (document w)) (shell_line info))
       (document w))
    w.

Definition logged (msg : string) (w : World) : World :=
  set_trace (trace w ++ [ConsoleLog msg])%list w.

(** The page after [fetchShellInfo] of [static/app.js]. *)
Definition fetched (r : fetch_outcome) (w : World) : World :=
  match r with
  | Loaded info => logged "Shell info loaded:" (lined info (titled info w))
  | _ => fallback w
  end.

(** The page after [fetchShellInfo] of the older copy. *)
Definition legacy_fetched (r : fetch_outcome) (w : World) : World :=
  match r with
  | Loaded info => logged "Shell info loaded:" (titled info w)
  | _ => fallback w
  end.

(** The listeners of [setupEventListeners], in registration order. *)
Definition page_handlers : list handler :=
  [OnResize; OnBeforeUnload; OnCloseClick; OnMinimizeClick; OnMaximizeClick;
   OnKeydown].

Definition listening (hs : list handler) (w : World) : World :=
  set_installed (installed w ++ hs)%list w.

(** The click listeners of the theme controls of a page. *)
Definition theme_handlers (w : World) : list handler :=
  imap (λ k _, OnThemeClick k) (theme_controllers (document w)).

(** The page after [App.main] on a page with the three window
    controls. *)
Definition app_ready (r : fetch_outcome) (w : World) : World :=
  synced
    (themed (saved_theme (localStorage w))
       (listening (theme_handlers w)
          (listening page_handlers
             (connecting (terminal_ready (fetched r (focus_timer w))))))).

(** The page after [Legacy.main] on such a page. *)
Definition legacy_ready (r : fetch_outcome) (w : World) : World :=
  listening page_handlers
    (connecting (terminal_ready (legacy_fetched r (focus_timer w)))).

(** The listeners [setupEventListeners] gets to register on a
    document: it stops at the first window control that is missing. *)
Definition wired (d : Document) : list handler :=
  [OnResize; OnBeforeUnload]
    ++ (if bool_decide (".control-button.close" ∈ elements d) then
          OnCloseClick
            :: (if bool_decide (".control-button.minimize" ∈ elements d) then
                  OnMinimizeClick
                    :: (if bool_decide (".control-button.maximize" ∈ elements d)
                        then [OnMaximizeClick; OnKeydown] else [])
                else [])
        else []).

(** The page when start-up stops in [setupEventListeners]. *)
Definition app_aborted (r : fetch_outcome) (w : World) : World :=
  listening (wired (document w))
    (connecting (terminal_ready (fetched r (focus_timer w)))).

(** The page after [close()] was called on the open or connecting
    socket [i]. *)
Definition closing (i : nat) (w : World) : World :=
  set_trace (trace w ++ [WsClose i])%list
    (set_sockets (alter (set_readyState CLOSING) i (sockets w)) w).

(** The page after [close()] was called on the socket [i] when that
    call has no effect. *)
Definition close_called (i : nat) (w : World) : World :=
  set_trace (trace w ++ [WsClose i])%list w.

(** The page after the [beforeunload] listener. *)
Definition unloaded (w : World) : World :=
  match websocket w with
  | Some i =>
      match ws_readyState <$> sockets w !! i with
      | Some CONNECTING | Some OPEN => closing i w
      | _ => close_called i w
      end
  | None => w
  end.

(** The text of a stream cut into [chunks]. *)
Definition stream (chunks : list string) : string :=
  foldr String.append "" chunks.

(** The page lacks the reconnect button or the dialog. *)
Definition no_dialog (w : World) : Prop :=
  reconnect_btn (document w) = None ∨ reconnect_modal (document w) = None.

(** The page has what the handlers of [static/app.js] dereference
    without a test: the widget, the fit add-on, the reconnect button,
    the dialog and the container. *)
Definition equipped (w : World) : Prop :=
  is_Some (terminal w) ∧ fitAddon w = true
  ∧ is_Some (reconnect_btn (document w))
  ∧ is_Some (reconnect_modal (document w))
  ∧ ".container" ∈ elements (document w).

(** ... and what those of the older copy dereference. *)
Definition legacy_equipped (w : World) : Prop :=
  is_Some (terminal w) ∧ fitAddon w = true.

End Inv.

(** * Properties *)

(** ** Strings *)

Module JsStringFacts.
Import JsString.

(** *** Basic facts on [string] *)

Lemma app_nil_r (s : string) : s ++ "" = s.
Proof. induction s as [|a s IH]; simpl; [done | by rewrite IH]. Qed.

Lemma app_assoc (s t u : string) : (s ++ t) ++ u = s ++ t ++ u.
Proof. induction s as [|a s IH]; simpl; [done | by rewrite IH]. Qed.

Lemma length_app (s t : string) :
  String.length (s ++ t) = String.length s + String.length t.
Proof. induction s as [|a s IH]; simpl; [done | by rewrite IH]. Qed.

Lemma substring_all (s : string) : String.substring 0 (String.length s) s = s.
Proof. induction s as [|a s IH]; simpl; [done | by rewrite IH]. Qed.

Lemma substring_prefix (s t : string) :
  String.substring 0 (String.length s) (s ++ t) = s.
Proof.
  induction s as [|a s IH]; simpl; [by destruct t | by rewrite IH].
Qed.

Lemma substring_skip (pre s : string) (n : nat) :
  String.substring (String.length pre) n (pre ++ s) = String.substring 0 n s.
Proof. induction pre as [|a pre IH]; simpl; [done | apply IH]. Qed.

Lemma js_substring_mid (pre mid post : string) :
  js_substring (String.length pre) (String.length pre + String.length mid)
    (pre ++ mid ++ post) = mid.
Proof.
  unfold js_substring.
  replace (String.length pre + String.length mid - String.length pre)
    with (String.length mid) by lia.
  rewrite substring_skip. apply substring_prefix.
Qed.

(** *** The library algorithm computes the character-wise rewrite *)

Lemma assemble_rewrite (c : ascii) (rep : string) :
  ∀ (s pre mid acc : string),
    assemble (pre ++ mid ++ s) rep
      (match_positions c s (String.length pre + String.length mid))
      (String.length pre) acc
    = acc ++ mid ++ rewrite_each c rep s.
Proof.
  induction s as [|a s IH]; intros pre mid acc; simpl.
  - rewrite !length_app. simpl String.length. rewrite Nat.add_0_r.
    by rewrite js_substring_mid, app_nil_r.
  - destruct (Ascii.eqb a c) eqn:Hac.
    + simpl. assert ((String.length pre <=? String.length pre + String.length mid)%nat = true)
        as -> by (apply Nat.leb_le; lia).
      rewrite js_substring_mid.
      specialize (IH (pre ++ mid ++ String a "") "" (acc ++ mid ++ rep)).
      rewrite !length_app in IH. simpl in IH.
      replace (String.length pre + (String.length mid + 1) + 0)
        with (S (String.length pre + String.length mid)) in IH by lia.
      replace (String.length pre + (String.length mid + 1))
        with (String.length pre + String.length mid + 1) in IH by lia.
      rewrite !app_assoc in IH. simpl in IH.
      by rewrite IH.
    + specialize (IH pre (mid ++ String a "") acc).
      rewrite length_app in IH. simpl in IH.
      replace (String.length pre + (String.length mid + 1))
        with (S (String.length pre + String.length mid)) in IH by lia.
      rewrite !app_assoc in IH. simpl in IH. exact IH.
Qed.

Lemma replace_global_rewrite (c : ascii) (rep s : string) :
  replace_global c rep s = rewrite_each c rep s.
Proof. exact (assemble_rewrite c rep s "" "" ""). Qed.

(** *** Pieces between line feeds *)

Lemma split_on_nonempty (c : ascii) (s : string) : split_on c s ≠ [].
Proof.
  destruct s as [|a s]; simpl; [done |].
  destruct (Ascii.eqb a c); [done |]. by destruct (split_on c s).
Qed.

Lemma join_cons (sep piece : string) (rest : list string) :
  rest ≠ [] → join sep (piece :: rest) = piece ++ sep ++ join sep rest.
Proof. by destruct rest. Qed.

Lemma join_cons_head (sep : string) (a : ascii) (piece : string)
    (rest : list string) :
  join sep (String a piece :: rest) = String a (join sep (piece :: rest)).
Proof. by destruct rest. Qed.

Lemma join_split_on (c : ascii) (s : string) :
  join (String c "") (split_on c s) = s.
Proof.
  induction s as [|a s IH]; simpl; [done |].
  destruct (Ascii.eqb a c) eqn:Hac.
  - apply Ascii.eqb_eq in Hac as ->.
    rewrite join_cons by apply split_on_nonempty. simpl. by rewrite IH.
  - pose proof (split_on_nonempty c s) as Hne.
    destruct (split_on c s) as [|piece pieces]; [done |].
    by rewrite join_cons_head, IH.
Qed.

Lemma rewrite_each_join (c : ascii) (rep s : string) :
  rewrite_each c rep s = join rep (split_on c s).
Proof.
  induction s as [|a s IH]; simpl; [done |].
  destruct (Ascii.eqb a c) eqn:Hac.
  - rewrite join_cons by apply split_on_nonempty. simpl. by rewrite IH.
  - pose proof (split_on_nonempty c s) as Hne.
    destruct (split_on c s) as [|piece pieces]; [done |].
    by rewrite join_cons_head, IH.
Qed.

Lemma split_on_free (c : ascii) (s : string) :
  Forall (λ piece, occurs c piece = false) (split_on c s).
Proof.
  induction s as [|a s IH]; simpl; [by repeat constructor |].
  destruct (Ascii.eqb a c) eqn:Hac; [by constructor |].
  destruct (split_on c s) as [|piece pieces]; [by repeat constructor; simpl; rewrite Hac |].
  inversion IH; subst. constructor; [simpl; by rewrite Hac | done].
Qed.

Lemma length_split_on (c : ascii) (s : string) :
  List.length (split_on c s) = S (count c s).
Proof.
  induction s as [|a s IH]; simpl; [done |].
  destruct (Ascii.eqb a c); simpl; [by rewrite IH |].
  by destruct (split_on c s).
Qed.

(** *** The rewrite can be undone: nothing else was touched *)

Lemma rewrite_lf_head (s : string) :
  starts_with LF (rewrite_each LF CRLF s) = false.
Proof.
  destruct s as [|a s]; simpl; [done |].
  destruct (Ascii.eqb a LF) eqn:Ha; simpl; done.
Qed.

Lemma strip_cons (a : ascii) (s : string) :
  Ascii.eqb a CR && starts_with LF s = false →
  strip_cr_before_lf (String a s) = String a (strip_cr_before_lf s).
Proof.
  intros H. destruct s as [|b s]; [done |]. simpl in *. by rewrite H.
Qed.

Lemma strip_rewrite_lf (s : string) :
  strip_cr_before_lf (rewrite_each LF CRLF s) = s.
Proof.
  induction s as [|a s IH]; [done |].
  simpl rewrite_each. destruct (Ascii.eqb a LF) eqn:Ha.
  - apply Ascii.eqb_eq in Ha as ->.
    change (CRLF ++ rewrite_each LF CRLF s)
      with (String CR (String LF (rewrite_each LF CRLF s))).
    change (strip_cr_before_lf (String CR (String LF (rewrite_each LF CRLF s))))
      with (strip_cr_before_lf (String LF (rewrite_each LF CRLF s))).
    rewrite strip_cons by done. by rewrite IH.
  - rewrite strip_cons; [by rewrite IH |].
    rewrite rewrite_lf_head. apply andb_false_r.
Qed.

Lemma length_rewrite_lf (s : string) :
  String.length (rewrite_each LF CRLF s) = String.length s + count LF s.
Proof.
  induction s as [|a s IH]; simpl; [done |].
  destruct (Ascii.eqb a LF); simpl; rewrite IH; lia.
Qed.

End JsStringFacts.

(** ** Reasoning about computations *)

Module Reasoning.
Import Js Page JsString Shared Obs.

Ltac unfold_m :=
  cbv [mbind M_bind mret M_ret get modify throw try_catch emit skip exec
       null_deref].

Ltac unfold_w :=
  cbv [set_terminal set_websocket set_fitAddon set_connected set_shellInfo
       set_sockets set_document set_localStorage set_installed set_timers
       set_trace set_header_title set_shell_info set_badge
       set_reconnect_modal set_reconnect_btn set_data_theme
       terminal websocket fitAddon currentLine connected shellInfo sockets
       document location_protocol location_host localStorage installed
       timers trace elements header_title shell_info badge reconnect_modal
       reconnect_btn data_theme theme_controllers fst snd].

Lemma bind_normal {A B : Type} (m : M A) (f : A → M B) (w w' : World) (a : A) :
  m w = (w', Normal a) → (m ≫= f) w = f a w'.
Proof. intros H. unfold mbind, M_bind. by rewrite H. Qed.

Lemma returns_bind {A B : Type} (m : M A) (f : A → M B) (w : World) :
  returns m w → (∀ a, returns (f a) (exec m w)) → returns (m ≫= f) w.
Proof.
  intros [a Ha] Hf. unfold returns, exec, mbind, M_bind in *.
  specialize (Hf a). destruct (m w) as [w' o]. simpl in *. subst o. exact Hf.
Qed.

Section Stable.
Context (R : World → World → Prop) `{!PreOrder R}.

Lemma stable_ret {A : Type} (a : A) : stable R (mret a).
Proof. intros w. reflexivity. Qed.

Lemma stable_get : stable R get.
Proof. intros w. reflexivity. Qed.

Lemma stable_throw {A : Type} (e : exn) : stable R (@throw A e).
Proof. intros w. reflexivity. Qed.

Lemma stable_modify (f : World → World) : (∀ w, R w (f w)) → stable R (modify f).
Proof. intros H w. apply H. Qed.

Lemma stable_bind {A B : Type} (m : M A) (f : A → M B) :
  stable R m → (∀ a, stable R (f a)) → stable R (m ≫= f).
Proof.
  intros Hm Hf w. unfold mbind, M_bind.
  specialize (Hm w). destruct (m w) as [w' [a|e]]; simpl in *; [|done].
  etrans; [exact Hm | apply Hf].
Qed.

Lemma stable_try_catch {A : Type} (m : M A) (h : exn → M A) :
  stable R m → (∀ e, stable R (h e)) → stable R (try_catch m h).
Proof.
  intros Hm Hh w. unfold try_catch.
  specialize (Hm w). destruct (m w) as [w' [a|e]]; simpl in *; [done|].
  etrans; [exact Hm | apply Hh].
Qed.

Lemma stable_exec {A : Type} (m : M A) (w : World) : stable R m → R w (exec m w).
Proof. intros H. apply H. Qed.

End Stable.

Lemma safe_ret {A : Type} (a : A) : safe (mret a).
Proof. intros w. by exists a. Qed.

Lemma safe_get : safe get.
Proof. intros w. by exists w. Qed.

Lemma safe_modify (f : World → World) : safe (modify f).
Proof. intros w. by exists tt. Qed.

Lemma safe_bind {A B : Type} (m : M A) (f : A → M B) :
  safe m → (∀ a, safe (f a)) → safe (m ≫= f).
Proof. intros Hm Hf w. apply returns_bind; [apply Hm | intros a; apply Hf]. Qed.

Lemma safe_try_catch {A : Type} (m : M A) (h : exn → M A) :
  (∀ e, safe (h e)) → safe (try_catch m h).
Proof.
  intros Hh w. unfold returns, try_catch.
  destruct (m w) as [w' [a|e]]; [by exists a | apply Hh].
Qed.

#[export] Instance same_preorder {A : Type} (f : World → A) : PreOrder (same f).
Proof.
  split; [by intros w | intros w1 w2 w3 H1 H2; unfold same in *; congruence].
Qed.

#[export] Instance at_most_one_listener_preorder : PreOrder at_most_one_listener.
Proof.
  split; [intros w H; exact H | intros w1 w2 w3 H1 H2 H; apply H2, H1, H].
Qed.

#[export] Instance started_preorder : PreOrder started.
Proof.
  split.
  - intros w. unfold started. repeat split; eauto.
  - intros w1 w2 w3 (Hs1 & Hw1 & Hk1 & He1 & Ht1 & Hp1)
      (Hs2 & Hw2 & Hk2 & He2 & Ht2 & Hp2).
    unfold started. repeat split; try congruence.
    + intros t Ht. destruct (Ht1 t Ht) as (t2 & Ht2' & Hd2).
      destruct (Ht2 t2 Ht2') as (t3 & Ht3 & Hd3). exists t3. split; congruence.
    + by etrans.
Qed.

(** The bodies that the step tactics may open.  [updateTerminalTheme]
    and [run_listeners] are left closed: they have lemmas of their
    own. *)
Create HintDb page_code discriminated.
#[export] Hint Unfold
  skip null_deref emit with_terminal term_clear term_write term_writeln
  console_log console_error setTimeout addEventListener addClickListener
  websocket_send websocket_close new_WebSocket open_socket on_data
  setupTerminal onmessage onerror sendKeyboardInterrupt focus fit on_resize
  on_beforeunload on_close_click on_keydown await_shell_info socket_event
  when_installed
  App.on_badge App.updateConnectionStatus App.connectWebSocket App.on_modal
  App.reconnect_click App.put_reconnect_btn App.showReconnectDialog
  App.onopen App.onclose App.fetchShellInfo App.on_minimize_click
  App.on_maximize_click App.setupEventListeners App.setAttribute_data_theme
  App.on_theme_click App.setupThemeController App.init App.main App.isolated
  App.run_listener App.run_callback
  : page_code.

(** [use_for f H]: close a goal about a call of [f] with the lemma
    [H]. *)
Ltac use_for f H :=
  idtac;
  lazymatch goal with
  | |- _ ?m =>
      lazymatch m with
      | context [mbind] => fail
      | context [f] => by apply H
      end
  end.

(** One syntax-directed step of a [stable] proof; [known] closes calls
    that have their own lemma, [fin] the state updates. *)
Ltac stable_step known fin :=
  first
    [ solve [known]
    | lazymatch goal with
      | |- stable _ (mbind _ _) => apply stable_bind; [apply _ | | intros ?]
      | |- stable _ (mret _) => apply stable_ret; apply _
      | |- stable _ get => apply stable_get; apply _
      | |- stable _ (throw _) => apply stable_throw; apply _
      | |- stable _ (modify _) => apply stable_modify; intros ?; fin
      | |- stable _ (try_catch _ _) =>
          apply stable_try_catch; [apply _ | | intros ?]
      | |- stable _ (if ?b then _ else _) => destruct b
      | |- stable _ (match ?x with _ => _ end) => destruct x
      | |- stable _ (let _ := _ in _) => cbv zeta
      | |- stable _ _ => progress autounfold with page_code
      end ].

Ltac stable_auto known fin := repeat stable_step known fin.

Ltac safe_step known :=
  first
    [ solve [known]
    | lazymatch goal with
      | |- safe (mbind _ _) => apply safe_bind; [| intros ?]
      | |- safe (mret _) => apply safe_ret
      | |- safe get => apply safe_get
      | |- safe (modify _) => apply safe_modify
      | |- safe (try_catch _ _) => apply safe_try_catch; intros ?
      | |- safe (if ?b then _ else _) => destruct b
      | |- safe (match ?x with _ => _ end) => destruct x
      | |- safe (let _ := _ in _) => cbv zeta
      | |- safe _ => progress autounfold with page_code
      end ].

Ltac safe_auto known := repeat safe_step known.

End Reasoning.

(** ** Output, input and the interrupt key: code common to both copies *)

Module SharedFacts.
Import Js Page JsString Shared Obs Reasoning JsStringFacts.

Lemma rewrite_each_app (c : ascii) (rep s t : string) :
  rewrite_each c rep (s ++ t) = rewrite_each c rep s ++ rewrite_each c rep t.
Proof.
  induction s as [|a s IH]; simpl; [done |].
  destruct (Ascii.eqb a c); simpl; rewrite IH; [by rewrite app_assoc | done].
Qed.

Lemma onmessage_writes (w : World) (t : Terminal) (chunk : string) :
  terminal w = Some t →
  onmessage chunk w
  = (set_trace (trace w ++ [TermWrite (rewrite_each LF CRLF chunk)])%list w, Normal tt).
Proof.
  intros Ht. unfold onmessage, term_write, with_terminal. unfold_m.
  by rewrite Ht, replace_global_rewrite.
Qed.

Lemma socket_event_runs (w : World) (i : nat) (s : WebSocket)
    (from : list readyState) (h : M unit) :
  sockets w !! i = Some s → ws_readyState s ∈ from →
  socket_event i from None h w = h w.
Proof.
  intros Hs Hin. unfold socket_event. unfold_m.
  by rewrite Hs, bool_decide_true.
Qed.

Lemma socket_event_to (w : World) (i : nat) (s : WebSocket)
    (from : list readyState) (st : readyState) (h : M unit) :
  sockets w !! i = Some s → ws_readyState s ∈ from →
  socket_event i from (Some st) h w
  = h (set_sockets (alter (set_readyState st) i (sockets w)) w).
Proof.
  intros Hs Hin. unfold socket_event. unfold_m.
  by rewrite Hs, bool_decide_true.
Qed.

(** C1.  A chunk arriving on an open socket is written to the widget
    once, in both copies of the script, and the text written is the
    chunk with each line feed turned into carriage return and line
    feed: it is the pieces of the chunk between line feeds, joined by
    CR LF, where the chunk itself is the same pieces joined by LF;
    dropping the CR in front of each LF gives the chunk back; a CR LF
    inside the chunk comes out as CR CR LF. *)
Theorem message_display (w : World) (i : nat) (s : WebSocket) (t : Terminal)
    (chunk : string) :
  terminal w = Some t →
  sockets w !! i = Some s →
  ws_readyState s = OPEN →
  let shown := join CRLF (split_on LF chunk) in
  onmessage chunk w = (set_trace (trace w ++ [TermWrite shown])%list w, Normal tt)
  ∧ App.step w (App.SocketMessage i chunk)
    = set_trace (trace w ++ [TermWrite shown])%list w
  ∧ Legacy.step w (Legacy.SocketMessage i chunk)
    = set_trace (trace w ++ [TermWrite shown])%list w
  ∧ shown = replace_global LF CRLF chunk
  ∧ chunk = join (String LF "") (split_on LF chunk)
  ∧ Forall (λ piece, occurs LF piece = false) (split_on LF chunk)
  ∧ strip_cr_before_lf shown = chunk
  ∧ String.length shown = String.length chunk + count LF chunk
  ∧ (∀ before after, chunk = before ++ CRLF ++ after →
       shown = replace_global LF CRLF before ++ String CR CRLF
                 ++ replace_global LF CRLF after).
Proof.
  intros Ht Hs Ho shown.
  assert (shown = rewrite_each LF CRLF chunk) as Hshown
    by (symmetry; apply rewrite_each_join).
  assert (ws_readyState s ∈ [OPEN; CLOSING]) as Hin by (rewrite Ho; set_solver).
  repeat split.
  - by rewrite (onmessage_writes w t), Hshown.
  - unfold App.step, exec, App.dispatch.
    by rewrite (socket_event_runs w i s), (onmessage_writes w t), Hshown.
  - unfold Legacy.step, exec, Legacy.dispatch.
    by rewrite (socket_event_runs w i s), (onmessage_writes w t), Hshown.
  - by rewrite replace_global_rewrite.
  - symmetry. apply join_split_on.
  - apply split_on_free.
  - rewrite Hshown. apply strip_rewrite_lf.
  - rewrite Hshown. apply length_rewrite_lf.
  - intros before after ->. rewrite Hshown, !replace_global_rewrite.
    by rewrite !rewrite_each_app.
Qed.

Lemma message_display_witness :
  is_Some (terminal app_open)
  ∧ ws_readyState <$> sockets app_open !! 0 = Some OPEN
  ∧ App.step app_open (App.SocketMessage 0 ("hello" ++ String LF ""))
    = set_trace (trace app_open ++ [TermWrite ("hello" ++ CRLF)])%list app_open.
Proof.
  assert (sockets app_open !! 0
          = Some {| url := "ws://localhost:3000/ws"; ws_readyState := OPEN;
                    sent := [] |}) as Hs by (vm_compute; reflexivity).
  destruct (terminal app_open) as [t|] eqn:Ht;
    [|vm_compute in Ht; discriminate Ht].
  split; [by eexists |]. split; [by rewrite Hs |].
  destruct (message_display app_open 0 _ t ("hello" ++ String LF "") Ht Hs eq_refl)
    as (_ & Happ & _).
  exact Happ.
Defined.

Lemma websocket_is_open_inv (w : World) :
  websocket_is_open w = true →
  ∃ i s, websocket w = Some i ∧ sockets w !! i = Some s ∧ ws_readyState s = OPEN.
Proof.
  unfold websocket_is_open. intros H.
  destruct (websocket w) as [i|]; [|done].
  destruct (sockets w !! i) as [s|] eqn:Hs; [|done].
  apply bool_decide_eq_true in H. eauto.
Qed.

Lemma send_when_open (w : World) (i : nat) (s : WebSocket) (data : string) :
  websocket w = Some i → sockets w !! i = Some s → ws_readyState s = OPEN →
  websocket_send data w = (forwarded i data w, Normal tt).
Proof.
  intros Hw Hs Ho. unfold websocket_send. unfold_m.
  rewrite Hw, Hs. simpl. by rewrite Ho.
Qed.

Lemma on_data_open (w : World) (i : nat) (s : WebSocket) (data : string) :
  websocket w = Some i → sockets w !! i = Some s → ws_readyState s = OPEN →
  on_data data w = (forwarded i data w, Normal tt).
Proof.
  intros Hw Hs Ho. unfold on_data. unfold_m.
  unfold websocket_is_open. rewrite Hw, Hs, Ho. simpl.
  by apply (send_when_open w i s).
Qed.

Lemma on_data_not_open (w : World) (data : string) :
  websocket_is_open w = false → on_data data w = (w, Normal tt).
Proof. intros H. unfold on_data. unfold_m. by rewrite H. Qed.

Lemma input_same_code (w : World) (data : string) :
  Legacy.step w (Legacy.Input data) = App.step w (App.Input data).
Proof. reflexivity. Qed.

Lemma input_dropped (w : World) (data : string) :
  websocket_is_open w = false → App.step w (App.Input data) = w.
Proof.
  intros H. unfold App.step, App.dispatch. unfold_m.
  destruct (terminal w) as [t|]; [|done].
  destruct (onData t); [|done]. by rewrite on_data_not_open.
Qed.

(** C2.  An input event either leaves the whole page as it was or
    hands the data to the socket [this.websocket], which then is in
    state OPEN; both copies run the same code.  While that socket is
    not open the event changes nothing at all (nothing is sent, nothing
    is stored), so whatever happens later happens as if the input had
    never occurred. *)
Theorem input_forwarded_only_when_open (w : World) (data : string) :
  Legacy.step w (Legacy.Input data) = App.step w (App.Input data)
  ∧ (App.step w (App.Input data) = w
     ∨ ∃ i s, websocket w = Some i ∧ sockets w !! i = Some s
              ∧ ws_readyState s = OPEN
              ∧ App.step w (App.Input data) = forwarded i data w)
  ∧ (websocket_is_open w = false →
     App.step w (App.Input data) = w
     ∧ (∀ es, App.run w (App.Input data :: es) = App.run w es)
     ∧ (∀ es, Legacy.run w (Legacy.Input data :: es) = Legacy.run w es)).
Proof.
  split; [apply input_same_code |]. split.
  - destruct (websocket_is_open w) eqn:Hopen.
    + destruct (websocket_is_open_inv w Hopen) as (i & s & Hw & Hs & Ho).
      unfold App.step, App.dispatch. unfold_m.
      destruct (terminal w) as [t|]; [|by left].
      destruct (onData t); [|by left].
      right. exists i, s. by rewrite (on_data_open w i s).
    + left. by apply input_dropped.
  - intros Hclosed. split; [by apply input_dropped |].
    split; intros es.
    + unfold App.run. simpl. by rewrite input_dropped.
    + unfold Legacy.run. simpl. by rewrite input_same_code, input_dropped.
Qed.

Lemma input_forwarded_only_when_open_witness :
  websocket_is_open app_started = false
  ∧ App.step app_started (App.Input "ls") = app_started
  ∧ App.run app_started [App.Input "ls"; App.SocketOpen 0]
    = App.run app_started [App.SocketOpen 0].
Proof.
  assert (websocket_is_open app_started = false) as Hshut
    by (vm_compute; reflexivity).
  split; [exact Hshut |].
  destruct (input_forwarded_only_when_open app_started "ls") as (_ & _ & H).
  destruct (H Hshut) as (Hdrop & Hrun & _).
  split; [exact Hdrop | exact (Hrun [App.SocketOpen 0])].
Defined.

Lemma interrupt_open (w : World) (i : nat) (s : WebSocket) :
  websocket w = Some i → sockets w !! i = Some s → ws_readyState s = OPEN →
  sendKeyboardInterrupt w = (forwarded i (String ETX "") w, Normal tt).
Proof.
  intros Hw Hs Ho. unfold sendKeyboardInterrupt. unfold_m.
  unfold websocket_is_open. rewrite Hw, Hs, Ho. simpl.
  by apply (send_when_open w i s).
Qed.

Lemma interrupt_not_open (w : World) :
  websocket_is_open w = false → sendKeyboardInterrupt w = (w, Normal tt).
Proof. intros H. unfold sendKeyboardInterrupt. unfold_m. by rewrite H. Qed.

(** C6.  [sendKeyboardInterrupt] hands the one-character text U+0003
    to the socket when [this.websocket] is open and does nothing
    otherwise; the key handler for Ctrl+c calls [preventDefault] and
    then it, in both copies. *)
Theorem interrupt_sends_etx (w : World) :
  Ascii.nat_of_ascii ETX = 3
  ∧ String.length (String ETX "") = 1
  ∧ (websocket_is_open w = false → sendKeyboardInterrupt w = (w, Normal tt))
  ∧ (websocket_is_open w = true →
     ∃ i, websocket w = Some i
          ∧ sendKeyboardInterrupt w = (forwarded i (String ETX "") w, Normal tt))
  ∧ on_keydown true "c" w
    = sendKeyboardInterrupt (set_trace (trace w ++ [PreventDefault])%list w)
  ∧ (OnKeydown ∈ installed w →
     App.step w (App.Keydown true "c") = exec (on_keydown true "c") w
     ∧ Legacy.step w (Legacy.Keydown true "c") = exec (on_keydown true "c") w).
Proof.
  split; [done |]. split; [done |]. split; [apply interrupt_not_open |]. split.
  - intros Hopen.
    destruct (websocket_is_open_inv w Hopen) as (i & s & Hw & Hs & Ho).
    exists i. split; [done |]. by apply (interrupt_open w i s).
  - split; [reflexivity |]. intros Hin.
    unfold App.step, Legacy.step, App.dispatch, Legacy.dispatch, when_installed.
    unfold_m. by rewrite bool_decide_true.
Qed.

Lemma interrupt_sends_etx_witness :
  websocket_is_open app_open = true
  ∧ websocket_is_open app_started = false
  ∧ sendKeyboardInterrupt app_open
    = (forwarded 0 (String ETX "") app_open, Normal tt)
  ∧ sendKeyboardInterrupt app_started = (app_started, Normal tt).
Proof.
  assert (websocket_is_open app_open = true) as Hyes
    by (vm_compute; reflexivity).
  assert (websocket_is_open app_started = false) as Hno
    by (vm_compute; reflexivity).
  split; [exact Hyes |]. split; [exact Hno |].
  destruct (interrupt_sends_etx app_open) as (_ & _ & _ & Hopen & _).
  destruct (interrupt_sends_etx app_started) as (_ & _ & Hshut & _).
  split; [|exact (Hshut Hno)].
  destruct (Hopen Hyes) as (i & Hi & Hsend).
  assert (websocket app_open = Some 0) as H0 by (vm_compute; reflexivity).
  rewrite H0 in Hi. injection Hi as <-. exact Hsend.
Defined.

End SharedFacts.

(** ** [static/app.js]: themes *)

Module ThemeFacts.
Import Js Page JsString Shared Obs Reasoning App.

Lemma themes_dark :
  get_property themes "dark" = inr (theme_object "#1f2937" "#f9fafb" "#3b82f6").
Proof. vm_compute. reflexivity. Qed.

Lemma get_property_defined (v : value) (k : string) :
  v ≠ VUndefined → ∃ x, get_property v k = inr x.
Proof.
  intros Hv. destruct v as [|s|own|path]; simpl; [done | eauto | |].
  - destruct (own !! k); eauto.
  - repeat case_match; eauto.
Qed.

Lemma truthy_defined (v : value) : truthy v = true → v ≠ VUndefined.
Proof. by destruct v. Qed.

(** The selection never yields [undefined]: either the looked-up value
    is truthy or the dark triple is taken. *)
Lemma select_theme_defined (name : string) (w : World) :
  ∃ v, select_theme name w = (w, Normal v) ∧ v ≠ VUndefined.
Proof.
  unfold select_theme, read.
  destruct (get_property themes name) as [e|chosen] eqn:Hget.
  { unfold themes in Hget. simpl in Hget. by case_match. }
  unfold_m. destruct (truthy chosen) eqn:Htruthy.
  - exists chosen. split; [done | by apply truthy_defined].
  - rewrite themes_dark. eexists. split; [done | done].
Qed.

Lemma updateTerminalTheme_recolours (w : World) (t : Terminal) (name : string) :
  terminal w = Some t →
  ∃ v background foreground cursor,
    select_theme name w = (w, Normal v)
    ∧ get_property v "background" = inr background
    ∧ get_property v "foreground" = inr foreground
    ∧ get_property v "cursor" = inr cursor
    ∧ updateTerminalTheme name w
      = (set_terminal (Some (recoloured background foreground cursor t)) w, Normal tt).
Proof.
  intros Ht.
  destruct (select_theme_defined name w) as (v & Hsel & Hv).
  destruct (get_property_defined v "background" Hv) as [bg Hbg].
  destruct (get_property_defined v "foreground" Hv) as [fg Hfg].
  destruct (get_property_defined v "cursor" Hv) as [cur Hcur].
  exists v, bg, fg, cur. repeat split; try done.
  unfold updateTerminalTheme, read. unfold_m. rewrite Ht.
  rewrite Hsel, Hbg, Hfg, Hcur. reflexivity.
Qed.

(** The operation never throws. *)
Lemma updateTerminalTheme_returns (w : World) (name : string) :
  returns (updateTerminalTheme name) w.
Proof.
  destruct (terminal w) as [t|] eqn:Ht.
  - destruct (updateTerminalTheme_recolours w t name Ht)
      as (v & bg & fg & cur & _ & _ & _ & _ & Heq).
    exists tt. by rewrite Heq.
  - exists tt. unfold updateTerminalTheme. unfold_m. by rewrite Ht.
Qed.

Lemma updateTerminalTheme_safe (name : string) : safe (updateTerminalTheme name).
Proof. intros w. apply updateTerminalTheme_returns. Qed.

(** It changes nothing but [this.terminal]. *)
Lemma updateTerminalTheme_only_terminal (w : World) (name : string) :
  ∃ o, exec (updateTerminalTheme name) w = set_terminal o w
       ∧ (terminal w = None → o = None).
Proof.
  destruct (terminal w) as [t|] eqn:Ht.
  - destruct (updateTerminalTheme_recolours w t name Ht)
      as (v & bg & fg & cur & _ & _ & _ & _ & Heq).
    unfold exec. rewrite Heq. eexists. split; [reflexivity | done].
  - exists None. split; [|done].
    unfold updateTerminalTheme. unfold_m. rewrite Ht. simpl.
    destruct w; simpl in *. by subst.
Qed.

Lemma themes_own (name : string) :
  name ∉ known_themes →
  get_property themes name = inr (object_prototype_get name).
Proof.
  intros Hname. unfold themes, object_literal. simpl.
  rewrite !lookup_insert_ne, lookup_empty; [done | | | |];
    intros <-; apply Hname; unfold known_themes; rewrite !elem_of_cons; tauto.
Qed.

(** A known name selects its own triple. *)
Lemma select_known_theme (w : World) :
  select_theme "dark" w
    = (w, Normal (theme_object "#1f2937" "#f9fafb" "#3b82f6"))
  ∧ select_theme "light" w
    = (w, Normal (theme_object "#ffffff" "#111827" "#3b82f6"))
  ∧ select_theme "cyberpunk" w
    = (w, Normal (theme_object "#0a0a0a" "#00ff00" "#ff00ff"))
  ∧ select_theme "synthwave" w
    = (w, Normal (theme_object "#1a1a2e" "#ff6b9d" "#00d2ff")).
Proof.
  unfold select_theme, read. unfold_m.
  split_and!; vm_compute; reflexivity.
Qed.

(** A name that is neither in the table nor a member of
    [Object.prototype] selects the dark triple. *)
Lemma select_unknown_theme (w : World) (name : string) :
  name ∉ known_themes → object_prototype_get name = VUndefined →
  select_theme name w
  = (w, Normal (theme_object "#1f2937" "#f9fafb" "#3b82f6")).
Proof.
  intros Hname Hproto. unfold select_theme, read. unfold_m.
  rewrite (themes_own name Hname), Hproto. cbn [truthy]. by rewrite themes_dark.
Qed.

(** C5.  With the stored preference [constructor], a name outside the
    table of themes, start-up completes without an exception but the
    widget does not get the dark triple: [themes['constructor']] is
    the inherited function [Object], which is truthy, so the fallback
    is not taken and the three colours are set to [undefined].  A name
    that is not a member of [Object.prototype] does get the dark
    triple. *)
Theorem constructor_theme_not_default :
  let w := exec (App.main NetworkError) constructor_boot in
  snd (App.main NetworkError constructor_boot) = Normal tt
  ∧ ("constructor" ∉ known_themes)
  ∧ get_property themes "constructor" = inr (VBuiltin "Object")
  ∧ theme_field "background" w = Some (Some VUndefined)
  ∧ theme_field "foreground" w = Some (Some VUndefined)
  ∧ theme_field "cursor" w = Some (Some VUndefined)
  ∧ theme_field "background" (exec (updateTerminalTheme "solarized") w)
    = Some (Some (VString "#1f2937")).
Proof.
  cbv zeta. split; [vm_compute; reflexivity |]. split.
  { unfold known_themes. rewrite !not_elem_of_cons.
    split_and!; [discriminate .. | apply not_elem_of_nil]. }
  split_and!; vm_compute; reflexivity.
Qed.

Lemma recoloured_frame (bg fg cur : value) (t : Terminal) (k : string) :
  k ≠ "background" → k ≠ "foreground" → k ≠ "cursor" →
  theme (options (recoloured bg fg cur t)) !! k = theme (options t) !! k.
Proof.
  intros Hb Hf Hc. unfold recoloured. simpl.
  by rewrite !lookup_insert_ne.
Qed.

Lemma updateTerminalTheme_frame (w : World) (name k : string) :
  k ≠ "background" → k ≠ "foreground" → k ≠ "cursor" →
  theme_field k (exec (updateTerminalTheme name) w) = theme_field k w.
Proof.
  intros Hb Hf Hc. unfold theme_field, exec.
  destruct (terminal w) as [t|] eqn:Ht.
  - destruct (updateTerminalTheme_recolours w t name Ht)
      as (v & bg & fg & cur & _ & _ & _ & _ & Heq).
    rewrite Heq. cbn [fst]. change (terminal (set_terminal ?x _)) with x.
    cbn [fmap option_fmap option_map]. f_equal. by apply recoloured_frame.
  - unfold updateTerminalTheme. unfold_m. by rewrite Ht; simpl; rewrite Ht.
Qed.

Lemma updateTerminalTheme_keeps_field (name k : string) :
  k ≠ "background" → k ≠ "foreground" → k ≠ "cursor" →
  stable (same (theme_field k)) (updateTerminalTheme name).
Proof. intros Hb Hf Hc w. by apply updateTerminalTheme_frame. Qed.

Lemma palette_fields_distinct :
  Forall (λ k, k ≠ "background" ∧ k ≠ "foreground" ∧ k ≠ "cursor") palette_fields.
Proof. unfold palette_fields. repeat constructor; discriminate. Qed.

(** C10.  A theme field other than [background], [foreground] and
    [cursor] reads the same before and after [updateTerminalTheme],
    after the click listener of a theme control, after
    [setupThemeController] and after the click event itself; the
    selection colour and the sixteen ANSI colours are such fields. *)
Theorem theme_change_frame (w : World) (name k : string) (controller : nat) :
  k ≠ "background" → k ≠ "foreground" → k ≠ "cursor" →
  theme_field k (exec (updateTerminalTheme name) w) = theme_field k w
  ∧ theme_field k (exec (on_theme_click controller) w) = theme_field k w
  ∧ theme_field k (exec setupThemeController w) = theme_field k w
  ∧ theme_field k (App.step w (ClickTheme controller)) = theme_field k w
  ∧ Forall (λ k', k' ≠ "background" ∧ k' ≠ "foreground" ∧ k' ≠ "cursor")
      palette_fields.
Proof.
  intros Hb Hf Hc.
  pose proof (updateTerminalTheme_keeps_field) as Hupd.
  split; [by apply updateTerminalTheme_frame |].
  assert (stable (same (theme_field k)) (on_theme_click controller)) as Hclick.
  { unfold on_theme_click.
    stable_auto ltac:(use_for updateTerminalTheme Hupd) ltac:(reflexivity). }
  split; [apply Hclick |]. split; [|split; [|apply palette_fields_distinct]].
  - apply (stable_exec (same (theme_field k))). unfold setupThemeController.
    stable_auto ltac:(use_for updateTerminalTheme Hupd) ltac:(reflexivity).
  - apply (stable_exec (same (theme_field k))). unfold dispatch, when_installed.
    stable_auto ltac:(use_for on_theme_click Hclick) ltac:(reflexivity).
Qed.

Lemma theme_change_frame_witness :
  theme_field "selection" (App.step app_open (ClickTheme 2))
  = Some (Some (VString "rgba(255, 255, 255, 0.3)"))
  ∧ theme_field "brightBlue" (exec (updateTerminalTheme "light") app_open)
    = Some (Some (VString "#3b8eea")).
Proof.
  assert (theme_field "selection" app_open
          = Some (Some (VString "rgba(255, 255, 255, 0.3)"))) as Hsel
    by (vm_compute; reflexivity).
  assert (theme_field "brightBlue" app_open
          = Some (Some (VString "#3b8eea"))) as Hblue
    by (vm_compute; reflexivity).
  split.
  - destruct (theme_change_frame app_open "" "selection" 2)
      as (_ & _ & _ & H & _); [discriminate .. |]. rewrite H. exact Hsel.
  - destruct (theme_change_frame app_open "light" "brightBlue" 0)
      as (H & _); [discriminate .. |]. rewrite H. exact Hblue.
Defined.

End ThemeFacts.

(** ** Close and error events *)

Module LifecycleFacts.
Import Js Page JsString Shared Obs Reasoning SharedFacts.

Lemma not_closed (s : WebSocket) :
  ws_readyState s ≠ CLOSED → ws_readyState s ∈ [CONNECTING; OPEN; CLOSING].
Proof.
  intros H. destruct (ws_readyState s); [| | |done];
    rewrite !elem_of_cons; tauto.
Qed.

Lemma app_onclose (w : World) (t : Terminal) (b : Button) (m : bool) :
  terminal w = Some t →
  reconnect_btn (document w) = Some b →
  reconnect_modal (document w) = Some m →
  App.onclose w = (after_close w, Normal tt).
Proof.
  intros Ht Hb Hm.
  unfold App.onclose, App.updateConnectionStatus, App.showReconnectDialog,
    App.on_modal, App.put_reconnect_btn, App.on_badge, term_writeln,
    with_terminal, console_log.
  unfold_m. cbn. rewrite Ht. cbn. rewrite Hb. cbn. rewrite Hm. cbn.
  unfold after_close. rewrite <- !app_assoc.
  destruct w as [? ? ? ? ? ? ? [? ? ? [bd|] ? ? ? ?] ? ? ? ? ? ?]; reflexivity.
Qed.

Lemma legacy_onclose (w : World) (t : Terminal) :
  terminal w = Some t → Legacy.onclose w = (retry_scheduled w, Normal tt).
Proof.
  intros Ht.
  unfold Legacy.onclose, setTimeout, term_writeln, with_terminal, console_log.
  unfold_m. cbn. rewrite Ht. cbn.
  unfold retry_scheduled. by rewrite <- !app_assoc.
Qed.

Lemma onerror_reported (w : World) (t : Terminal) :
  terminal w = Some t → onerror w = (error_reported w, Normal tt).
Proof.
  intros Ht. unfold onerror, term_writeln, with_terminal, console_error.
  unfold_m. cbn. rewrite Ht. cbn. unfold error_reported.
  by rewrite <- !app_assoc.
Qed.

Lemma attempts_app (tr1 tr2 : list effect) :
  attempts (tr1 ++ tr2)%list = attempts tr1 + attempts tr2.
Proof. unfold attempts. by rewrite List.filter_app, List.length_app. Qed.

Lemma app_close_step (w : World) (i : nat) (s : WebSocket) (t : Terminal)
    (b : Button) (m : bool) :
  terminal w = Some t →
  reconnect_btn (document w) = Some b →
  reconnect_modal (document w) = Some m →
  sockets w !! i = Some s →
  ws_readyState s ≠ CLOSED →
  App.step w (App.SocketClose i) = after_close (mark_closed i w).
Proof.
  intros Ht Hb Hm Hs Hopen. pose proof (not_closed s Hopen) as Hin.
  unfold App.step, exec, App.dispatch.
  rewrite (socket_event_to w i s) by done.
  by rewrite (app_onclose _ t b m).
Qed.

(** C3, as the two copies have it.  In [static/app.js] a close event
    marks the controller disconnected, sets the badge to its
    disconnected form, leaves exactly the reconnect listener on the
    button and opens the dialog; it starts no timer and no connection.
    In the older copy the same event writes a notice and schedules
    [connectWebSocket] after 3000 ms, and that timer opens a new
    socket. *)
Theorem close_handling (w : World) (i : nat) (s : WebSocket) (t : Terminal)
    (b : Button) (m : bool) :
  terminal w = Some t →
  reconnect_btn (document w) = Some b →
  reconnect_modal (document w) = Some m →
  sockets w !! i = Some s →
  ws_readyState s ≠ CLOSED →
  let w' := App.step w (App.SocketClose i) in
  w' = after_close (mark_closed i w)
  ∧ connected w' = false
  ∧ badge (document w') = badge_disconnected <$> badge (document w)
  ∧ reconnect_modal (document w') = Some true
  ∧ btn_listeners w' = [ReconnectClick]
  ∧ timers w' = timers w
  ∧ websocket w' = websocket w
  ∧ attempts (trace w') = attempts (trace w)
  ∧ Legacy.step w (Legacy.SocketClose i) = retry_scheduled (mark_closed i w)
  ∧ (∀ w0, Legacy.run_callback CbConnect w0 = (connecting w0, Normal tt)).
Proof.
  intros Ht Hb Hm Hs Hopen w'.
  pose proof (not_closed s Hopen) as Hin.
  assert (w' = after_close (mark_closed i w)) as Hw'
    by (by apply (app_close_step w i s t b m)).
  split; [exact Hw' |]. rewrite Hw'.
  split_and!; try reflexivity.
  - unfold after_close, mark_closed. cbn [trace set_trace set_document
      set_connected set_sockets]. rewrite attempts_app. cbn. lia.
  - unfold Legacy.step, exec, Legacy.dispatch.
    rewrite (socket_event_to w i s) by done.
    by rewrite (legacy_onclose _ t).
Qed.

Lemma close_handling_witness :
  connected app_open = true
  ∧ connected (App.step app_open (App.SocketClose 0)) = false
  ∧ reconnect_modal (document (App.step app_open (App.SocketClose 0))) = Some true
  ∧ timers (App.step app_open (App.SocketClose 0)) = timers app_open.
Proof.
  assert (sockets app_open !! 0
          = Some {| url := "ws://localhost:3000/ws"; ws_readyState := OPEN;
                    sent := [] |}) as Hs by (vm_compute; reflexivity).
  destruct (terminal app_open) as [t|] eqn:Ht;
    [|vm_compute in Ht; discriminate Ht].
  assert (reconnect_btn (document app_open) = Some {| listeners := [] |}) as Hb
    by (vm_compute; reflexivity).
  assert (reconnect_modal (document app_open) = Some false) as Hm
    by (vm_compute; reflexivity).
  destruct (close_handling app_open 0 _ t _ _ Ht Hb Hm Hs)
    as (_ & Hc & _ & Hd & _ & Htm & _); [discriminate |].
  split; [vm_compute; reflexivity |]. split; [exact Hc |].
  split; [exact Hd | exact Htm].
Defined.

(** C3 as stated fails on the older copy: after its socket closes no
    dialog is opened and nothing marks the page disconnected; a timer
    is pending instead, and when it fires a second socket is opened
    without any user action. *)
Lemma legacy_close_retries :
  let w := Legacy.step legacy_open (Legacy.SocketClose 0) in
  let w' := Legacy.step w (Legacy.TimerFired 2) in
  timers w !! 2 = Some (CbConnect, 3000)
  ∧ document w = document legacy_open
  ∧ reconnect_modal (document w) = Some false
  ∧ attempts (trace w) = 1
  ∧ attempts (trace w') = 2
  ∧ websocket w' = Some 1
  ∧ ws_readyState <$> sockets w' !! 1 = Some CONNECTING.
Proof. cbv zeta. split_and!; vm_compute; reflexivity. Qed.

(** C8, as the code has it.  An error event of a socket runs
    [onerror], which writes a notice to the widget and logs the error;
    the rest of the page, and with it the [connected] flag and the
    badge, is exactly as before, in both copies.  The badge takes its
    disconnected form when the close event of the socket is handled
    after it. *)
Theorem error_handling (w : World) (i : nat) (s : WebSocket) (t : Terminal)
    (b : Button) (m : bool) :
  terminal w = Some t →
  reconnect_btn (document w) = Some b →
  reconnect_modal (document w) = Some m →
  sockets w !! i = Some s →
  ws_readyState s ≠ CLOSED →
  let w' := App.step w (App.SocketError i) in
  w' = error_reported w
  ∧ Legacy.step w (Legacy.SocketError i) = error_reported w
  ∧ connected w' = connected w
  ∧ document w' = document w
  ∧ sockets w' = sockets w ∧ websocket w' = websocket w
  ∧ terminal w' = terminal w ∧ shellInfo w' = shellInfo w
  ∧ timers w' = timers w ∧ localStorage w' = localStorage w
  ∧ badge (document (App.step w' (App.SocketClose i)))
    = badge_disconnected <$> badge (document w).
Proof.
  intros Ht Hb Hm Hs Hopen w'.
  pose proof (not_closed s Hopen) as Hin.
  assert (w' = error_reported w) as Hw'.
  { unfold w', App.step, exec, App.dispatch.
    rewrite (socket_event_runs w i s) by done. by rewrite (onerror_reported _ t). }
  split; [exact Hw' |]. rewrite Hw'. split_and!; try reflexivity.
  - unfold Legacy.step, exec, Legacy.dispatch.
    rewrite (socket_event_runs w i s) by done. by rewrite (onerror_reported _ t).
  - by rewrite (app_close_step (error_reported w) i s t b m).
Qed.

Lemma error_handling_witness :
  App.step app_open (App.SocketError 0) = error_reported app_open
  ∧ innerHTML <$> badge (document (App.run app_open
                                      [App.SocketError 0; App.SocketClose 0]))
    = Some App.disconnected_markup.
Proof.
  assert (sockets app_open !! 0
          = Some {| url := "ws://localhost:3000/ws"; ws_readyState := OPEN;
                    sent := [] |}) as Hs by (vm_compute; reflexivity).
  destruct (terminal app_open) as [t|] eqn:Ht;
    [|vm_compute in Ht; discriminate Ht].
  assert (reconnect_btn (document app_open) = Some {| listeners := [] |}) as Hb
    by (vm_compute; reflexivity).
  assert (reconnect_modal (document app_open) = Some false) as Hm
    by (vm_compute; reflexivity).
  destruct (error_handling app_open 0 _ t _ _ Ht Hb Hm Hs)
    as (He & _); [discriminate |].
  split; [exact He | vm_compute; reflexivity].
Defined.

(** C8 as stated fails: after an error event on the open socket the
    controller still counts as connected and the badge still shows its
    connected form. *)
Lemma error_leaves_badge_connected :
  let w := App.step app_open (App.SocketError 0) in
  connected w = true
  ∧ innerHTML <$> badge (document w) = Some App.connected_markup
  ∧ bool_decide ("badge-success" ∈ default ∅ (classList <$> badge (document w))) = true
  ∧ bool_decide ("badge-error" ∈ default ∅ (classList <$> badge (document w))) = false.
Proof. cbv zeta. split_and!; vm_compute; reflexivity. Qed.

End LifecycleFacts.

(** ** [static/app.js]: the reconnect dialog *)

Module ReconnectFacts.
Import Js Page JsString Shared Obs Reasoning SharedFacts ThemeFacts LifecycleFacts.
Import App.

Lemma open_socket_connecting (w : World) : open_socket w = (connecting w, Normal tt).
Proof. reflexivity. Qed.

Lemma reconnect_click_connects (w : World) (t : Terminal) (m : bool) :
  terminal w = Some t → reconnect_modal (document w) = Some m →
  reconnect_click w = (connecting (announced w), Normal tt).
Proof.
  intros Ht Hm.
  unfold reconnect_click, on_modal, term_writeln, with_terminal, connectWebSocket.
  unfold_m. rewrite Hm. cbn. rewrite Ht. cbn.
  rewrite open_socket_connecting. unfold connecting, announced.
  destruct w; cbn. by rewrite <- !app_assoc.
Qed.

Lemma reconnect_click_attempts (w : World) :
  (attempts (trace (exec (isolated reconnect_click) w)) ≤ attempts (trace w) + 1)%nat.
Proof.
  unfold isolated, reconnect_click, on_modal, term_writeln, with_terminal,
    connectWebSocket, open_socket, new_WebSocket.
  unfold_m.
  destruct (reconnect_modal (document w)); cbn; [|lia].
  destruct (terminal w); cbn; unfold attempts;
    rewrite !List.filter_app, !List.length_app; simpl; lia.
Qed.

Lemma updateTerminalTheme_keeps_button (name : string) :
  stable at_most_one_listener (updateTerminalTheme name).
Proof.
  intros w. destruct (updateTerminalTheme_only_terminal w name) as (o & Heq & _).
  unfold exec in Heq. rewrite Heq. intros Hok. exact Hok.
Qed.

Lemma run_listeners_keep_button (ls : list listener) :
  stable at_most_one_listener (run_listeners ls).
Proof.
  induction ls as [|l ls IH]; simpl.
  - apply stable_ret, _.
  - apply stable_bind; [apply _ | | by intros ?].
    destruct l. stable_auto ltac:(fail) ltac:(intros Hok; exact Hok).
Qed.

(** No handler of the page leaves more than one listener on the
    button if there was at most one before. *)
Lemma dispatch_keeps_button (e : event) : stable at_most_one_listener (dispatch e).
Proof.
  pose proof run_listeners_keep_button as Hrl.
  pose proof updateTerminalTheme_keeps_button as Hupd.
  destruct e; simpl.
  all: stable_auto
         ltac:(first [use_for run_listeners Hrl | use_for updateTerminalTheme Hupd])
         ltac:(intros Hok; first [exact Hok | cbn; lia]).
Qed.

Lemma run_keeps_button (es : list event) (w : World) :
  (List.length (btn_listeners w) ≤ 1)%nat →
  (List.length (btn_listeners (App.run w es)) ≤ 1)%nat.
Proof.
  revert w. induction es as [|e es IH]; intros w Hok; [done |].
  unfold run in *. simpl. apply IH. by apply dispatch_keeps_button.
Qed.

Lemma showReconnectDialog_one_listener (w : World) (b : Button) :
  reconnect_btn (document w) = Some b →
  btn_listeners (exec showReconnectDialog w) = [ReconnectClick].
Proof.
  intros Hb. unfold showReconnectDialog, put_reconnect_btn, on_modal.
  unfold_m. rewrite Hb. cbn. by destruct (reconnect_modal (document w)).
Qed.

Lemma click_attempts (w : World) :
  (List.length (btn_listeners w) ≤ 1)%nat →
  (attempts (trace (App.step w ClickReconnect)) ≤ attempts (trace w) + 1)%nat.
Proof.
  unfold btn_listeners, App.step, dispatch. unfold_m.
  destruct (reconnect_btn (document w)) as [[ls]|]; simpl; [|lia].
  destruct ls as [|l [|l' ls]]; simpl; [lia | | lia]. intros _.
  destruct l. simpl.
  pose proof (reconnect_click_attempts w) as H. unfold exec in H.
  unfold mbind, M_bind, skip, mret, M_ret.
  by destruct (isolated reconnect_click w) as [w' [[]|e]].
Qed.

Lemma click_reconnects_once (w : World) (t : Terminal) (m : bool) :
  btn_listeners w = [ReconnectClick] →
  terminal w = Some t → reconnect_modal (document w) = Some m →
  App.step w ClickReconnect = connecting (announced w).
Proof.
  intros Hl Ht Hm. unfold btn_listeners in Hl.
  unfold App.step, dispatch. unfold_m.
  destruct (reconnect_btn (document w)) as [[ls]|]; simpl in *; [|done].
  subst ls. simpl. unfold isolated, try_catch, mbind, M_bind, skip, mret, M_ret.
  by rewrite (reconnect_click_connects w t m).
Qed.

(** C7, as the code has it.  A click on the reconnect button closes
    the dialog, writes a notice and runs [connectWebSocket], the
    function that [init] runs as its transport step: one new socket, in
    state CONNECTING, becomes [this.websocket].  No [close] is called:
    the sockets that existed before are all still there with the state
    they had, and the trace grows by exactly the three calls named. *)
Theorem reconnect_opens_without_closing (w : World) (t : Terminal) (m : bool) :
  btn_listeners w = [ReconnectClick] →
  terminal w = Some t →
  reconnect_modal (document w) = Some m →
  let w' := App.step w ClickReconnect in
  let n := List.length (sockets w) in
  w' = connecting (announced w)
  ∧ reconnect_click w = connectWebSocket (announced w)
  ∧ (∀ w0, connectWebSocket w0 = (connecting w0, Normal tt))
  ∧ (∀ r, init r
          = (fetchShellInfo r;; setupTerminal;; connectWebSocket;;
             setupEventListeners;; setupThemeController;; updateConnectionStatus))
  ∧ websocket w' = Some n
  ∧ sockets w'
    = (sockets w ++ [{| url := ws_address w; ws_readyState := CONNECTING;
                        sent := [] |}])%list
  ∧ (∀ j s, sockets w !! j = Some s → sockets w' !! j = Some s)
  ∧ trace w'
    = (trace w ++ [ModalClose; TermWriteln "Attempting to reconnect...";
                   WsNew n (ws_address w)])%list
  ∧ reconnect_modal (document w') = Some false.
Proof.
  intros Hl Ht Hm w' n.
  assert (w' = connecting (announced w)) as Hw'
    by (by apply (click_reconnects_once w t m)).
  split; [exact Hw' |]. rewrite Hw'. split_and!; try reflexivity.
  - by rewrite (reconnect_click_connects w t m).
  - intros j s Hj. unfold connecting, announced. cbn.
    by apply lookup_app_l_Some.
  - unfold connecting, announced. cbn. by rewrite <- app_assoc.
Qed.

Lemma reconnect_opens_without_closing_witness :
  let w := App.step app_open (SocketClose 0) in
  btn_listeners w = [ReconnectClick]
  ∧ websocket (App.step w ClickReconnect) = Some 1
  ∧ trace (App.step w ClickReconnect)
    = (trace w ++ [ModalClose; TermWriteln "Attempting to reconnect...";
                   WsNew 1 "ws://localhost:3000/ws"])%list.
Proof.
  cbv zeta.
  assert (btn_listeners (App.step app_open (SocketClose 0)) = [ReconnectClick])
    as Hl by (vm_compute; reflexivity).
  destruct (terminal (App.step app_open (SocketClose 0))) as [t|] eqn:Ht;
    [|vm_compute in Ht; discriminate Ht].
  assert (reconnect_modal (document (App.step app_open (SocketClose 0))) = Some true)
    as Hm by (vm_compute; reflexivity).
  destruct (reconnect_opens_without_closing _ t true Hl Ht Hm)
    as (_ & _ & _ & _ & Hws & _ & _ & Htr & _).
  split; [exact Hl |]. split; [exact Hws | exact Htr].
Defined.

(** C7 as stated fails.  The listener stays on the button after the
    dialog is closed; when a click reaches it while the socket opened
    by the previous click is open, a third socket is created, the
    second one is still open and no [close] was ever called. *)
Lemma reconnect_leaves_open_transport :
  let w := App.run app_started [SocketClose 0; ClickReconnect; SocketOpen 1] in
  let w' := App.step w ClickReconnect in
  websocket w = Some 1
  ∧ ws_readyState <$> sockets w !! 1 = Some OPEN
  ∧ websocket w' = Some 2
  ∧ ws_readyState <$> sockets w' !! 1 = Some OPEN
  ∧ List.existsb is_close (trace w') = false.
Proof. cbv zeta. split_and!; vm_compute; reflexivity. Qed.

(** C9.  Whatever events the page handles, starting with at most one
    listener on the reconnect button, at most one is on it afterwards;
    presenting the dialog leaves exactly one, however many the button
    carried; and a click on the button starts at most one connection
    attempt, exactly one when widget and dialog exist. *)
Theorem one_reconnect_listener (w : World) (es : list event) :
  (List.length (btn_listeners w) ≤ 1)%nat →
  let w' := App.run w es in
  (List.length (btn_listeners w') ≤ 1)%nat
  ∧ (∀ b, reconnect_btn (document w') = Some b →
          btn_listeners (exec showReconnectDialog w') = [ReconnectClick])
  ∧ (attempts (trace (App.step w' ClickReconnect)) ≤ attempts (trace w') + 1)%nat
  ∧ (∀ t m, btn_listeners w' = [ReconnectClick] → terminal w' = Some t →
            reconnect_modal (document w') = Some m →
            attempts (trace (App.step w' ClickReconnect))
            = attempts (trace w') + 1).
Proof.
  intros Hok w'.
  pose proof (run_keeps_button es w Hok) as Hok'. fold w' in Hok'.
  split; [exact Hok' |]. split; [apply showReconnectDialog_one_listener |].
  split; [by apply click_attempts |].
  intros t m Hl Ht Hm. rewrite (click_reconnects_once w' t m) by done.
  unfold connecting, announced.
  cbn [trace set_trace set_websocket set_sockets set_document].
  rewrite !attempts_app. cbn. lia.
Qed.

Lemma one_reconnect_listener_witness :
  let es := [SocketOpen 0; SocketClose 0; ClickReconnect; SocketError 1;
             SocketClose 1; ClickReconnect; SocketOpen 2; SocketClose 2] in
  (List.length (btn_listeners app_started) ≤ 1)%nat
  ∧ (List.length (btn_listeners (App.run app_started es)) ≤ 1)%nat
  ∧ (attempts (trace (App.step (App.run app_started es) ClickReconnect))
     ≤ attempts (trace (App.run app_started es)) + 1)%nat.
Proof.
  cbv zeta.
  assert (List.length (btn_listeners app_started) ≤ 1)%nat as Hok
    by (vm_compute; lia).
  split; [exact Hok |].
  destruct (one_reconnect_listener app_started
              [SocketOpen 0; SocketClose 0; ClickReconnect; SocketError 1;
               SocketClose 1; ClickReconnect; SocketOpen 2; SocketClose 2] Hok)
    as (H1 & _ & H2 & _).
  split; [exact H1 | exact H2].
Defined.

End ReconnectFacts.

(** ** [static/app.js]: start-up *)

Module StartupFacts.
Import Js Page JsString Shared Obs Reasoning SharedFacts ThemeFacts ReconnectFacts.
Import App.

Lemma fetch_failure_fallback (w : World) (r : fetch_outcome) :
  r = NetworkError ∨ r = Unparsable →
  fetchShellInfo r w = (fallback w, Normal tt).
Proof. by intros [-> | ->]. Qed.

Lemma setupTerminal_ready (w : World) :
  "#terminal" ∈ elements (document w) →
  setupTerminal w = (terminal_ready w, Normal tt).
Proof.
  intros Hmount.
  unfold setupTerminal, terminal_ready, term_writeln, with_terminal, setTimeout.
  generalize initial_options. intros opts.
  destruct w. unfold_m. unfold_w. cbn in Hmount.
  rewrite (bool_decide_true _ Hmount). by rewrite <- !app_assoc.
Qed.

Lemma updateTerminalTheme_started (name : string) :
  stable started (updateTerminalTheme name).
Proof.
  intros w. destruct (terminal w) as [t|] eqn:Ht.
  - destruct (updateTerminalTheme_recolours w t name Ht)
      as (v & bg & fg & cur & _ & _ & _ & _ & Heq).
    rewrite Heq. unfold started. cbn. repeat split; try done.
    intros t0 Ht0. eexists. split; [done |]. rewrite Ht0 in Ht. by inversion Ht.
  - unfold updateTerminalTheme. unfold_m. rewrite Ht. reflexivity.
Qed.

Lemma setupThemeController_safe : safe setupThemeController.
Proof.
  pose proof updateTerminalTheme_safe as Hupd.
  unfold setupThemeController. safe_auto ltac:(use_for updateTerminalTheme Hupd).
Qed.

Lemma updateConnectionStatus_safe : safe updateConnectionStatus.
Proof. unfold updateConnectionStatus. safe_auto ltac:(fail). Qed.

Ltac started_modify :=
  unfold started; cbn; repeat split; eauto using prefix_app_r.

(** The steps of [init] after the transport step keep the shell
    description, the widget and the socket. *)
Lemma finish_started :
  stable started (setupEventListeners;; setupThemeController;; updateConnectionStatus).
Proof.
  pose proof updateTerminalTheme_started as Hupd.
  stable_auto ltac:(use_for updateTerminalTheme Hupd) ltac:(started_modify).
Qed.

Lemma setupEventListeners_returns (w : World) :
  control_buttons ⊆ elements (document w) → returns setupEventListeners w.
Proof.
  intros Hsub. unfold control_buttons in Hsub.
  unfold returns, setupEventListeners, addClickListener, addEventListener.
  unfold_m. cbn.
  rewrite !bool_decide_true by set_solver. by exists tt.
Qed.

Lemma init_split (r : fetch_outcome) (w : World) :
  init r w
  = ((fetchShellInfo r;; setupTerminal;; connectWebSocket)
       ≫= λ _, setupEventListeners;; setupThemeController;; updateConnectionStatus) w.
Proof.
  unfold init, mbind, M_bind.
  destruct (fetchShellInfo r w) as [w1 [[]|e]]; [|done].
  destruct (setupTerminal w1) as [w2 [[]|e]]; [|done].
  by destruct (connectWebSocket w2) as [w3 [[]|e]].
Qed.

Lemma start_connecting (r : fetch_outcome) (w : World) :
  r = NetworkError ∨ r = Unparsable →
  "#terminal" ∈ elements (document w) →
  (fetchShellInfo r;; setupTerminal;; connectWebSocket) w
  = (connecting (terminal_ready (fallback w)), Normal tt).
Proof.
  intros Hr Hmount.
  rewrite (bind_normal _ _ _ _ _ (fetch_failure_fallback w r Hr)).
  rewrite (bind_normal _ _ _ _ _ (setupTerminal_ready (fallback w) Hmount)).
  apply open_socket_connecting.
Qed.

(** C4.  When the metadata request fails, because [fetch] rejects or
    because the body is not JSON, on a page that has the widget's
    mount element [init] ends with the description bash -i stored, the
    widget created with its input callback installed, and a new
    connecting socket as [this.websocket], whose creation is in the
    trace; when the three window controls exist as well, [init]
    returns without an exception. *)
Theorem startup_survives_fetch_failure (w : World) (r : fetch_outcome) :
  r = NetworkError ∨ r = Unparsable →
  "#terminal" ∈ elements (document w) →
  let w' := exec (init r) w in
  let n := List.length (sockets w) in
  shellInfo w' = Some default_shellInfo
  ∧ shell default_shellInfo = "bash" ∧ args default_shellInfo = ["-i"]
  ∧ (∃ t, terminal w' = Some t ∧ onData t = true)
  ∧ websocket w' = Some n
  ∧ sockets w' !! n
    = Some {| url := ws_address w; ws_readyState := CONNECTING; sent := [] |}
  ∧ WsNew n (ws_address w) ∈ trace w'
  ∧ (control_buttons ⊆ elements (document w) → returns (init r) w).
Proof.
  intros Hr Hmount w' n.
  pose proof (init_split r w) as Hsplit.
  rewrite (bind_normal _ _ _ _ _ (start_connecting r w Hr Hmount)) in Hsplit.
  set (w3 := connecting (terminal_ready (fallback w))) in *.
  assert (started w3 w') as (Hs & Hw & Hk & He & Ht & Hp).
  { unfold w', exec. rewrite Hsplit. apply finish_started. }
  split; [by rewrite Hs |]. split; [done |]. split; [done |]. split.
  { destruct (Ht _ eq_refl) as (t' & Ht' & Hd). by exists t'. }
  split; [by rewrite Hw |]. split.
  { rewrite Hk. unfold w3, connecting. cbn.
    by rewrite lookup_app_r, Nat.sub_diag. }
  split.
  { eapply elem_of_prefix; [|exact Hp]. unfold w3, connecting. cbn.
    apply elem_of_app. right. constructor. }
  intros Hsub. unfold returns. rewrite Hsplit.
  apply returns_bind.
  - apply setupEventListeners_returns. exact Hsub.
  - intros []. apply safe_bind; [apply setupThemeController_safe |].
    intros []. apply updateConnectionStatus_safe.
Qed.

Lemma startup_survives_fetch_failure_witness :
  shellInfo (exec (init Unparsable) sample_boot) = Some default_shellInfo
  ∧ websocket (exec (init Unparsable) sample_boot) = Some 0
  ∧ returns (init Unparsable) sample_boot.
Proof.
  assert ("#terminal" ∈ elements (document sample_boot)) as Hmount
    by (apply (bool_decide_unpack _); vm_compute; exact I).
  destruct (startup_survives_fetch_failure sample_boot Unparsable (or_intror eq_refl)
              Hmount)
    as (Hs & _ & _ & _ & Hw & _ & _ & Hr).
  split; [exact Hs |]. split; [exact Hw |].
  apply Hr. apply (bool_decide_unpack _). vm_compute. exact I.
Defined.

End StartupFacts.

(** ** Tracking one world through a computation *)

Module Track.
Import Js Page JsString Shared Obs Inv Reasoning.

Section At.
Context (R : World → World → Prop) `{!PreOrder R}.

Lemma stable_of_at {A : Type} (m : M A) : (∀ w, stable_at R m w) → stable R m.
Proof. intros H w. apply H. Qed.

Lemma at_of_stable {A : Type} (m : M A) (w : World) : stable R m → stable_at R m w.
Proof. intros H. apply H. Qed.

Lemma at_get_bind {A : Type} (f : World → M A) (w : World) :
  stable_at R (f w) w → stable_at R (get ≫= f) w.
Proof. intros H. exact H. Qed.

Lemma at_bind {A B : Type} (m : M A) (f : A → M B) (w : World) :
  stable_at R m w → (∀ a, stable R (f a)) → stable_at R (m ≫= f) w.
Proof.
  unfold stable_at, mbind, M_bind. intros Hm Hf.
  destruct (m w) as [w' [a|e]]; simpl in *; [|done].
  etrans; [exact Hm | apply Hf].
Qed.

Lemma at_try_catch {A : Type} (m : M A) (h : exn → M A) (w : World) :
  stable_at R m w → (∀ e, stable R (h e)) → stable_at R (try_catch m h) w.
Proof.
  unfold stable_at, try_catch. intros Hm Hh.
  destruct (m w) as [w' [a|e]]; simpl in *; [done|].
  etrans; [exact Hm | apply Hh].
Qed.

Lemma at_modify (g : World → World) (w : World) :
  R w (g w) → stable_at R (modify g) w.
Proof. intros H. exact H. Qed.

Lemma at_ret {A : Type} (a : A) (w : World) : stable_at R (mret a) w.
Proof. unfold stable_at. reflexivity. Qed.

Lemma at_get (w : World) : stable_at R get w.
Proof. unfold stable_at. reflexivity. Qed.

Lemma at_throw {A : Type} (e : exn) (w : World) : stable_at R (@throw A e) w.
Proof. unfold stable_at. reflexivity. Qed.

End At.

#[export] Instance keeps_preorder (P : World → Prop) : PreOrder (keeps P).
Proof.
  split; [intros w H; exact H | intros w1 w2 w3 H1 H2 H; apply H2, H1, H].
Qed.

(** The bodies [track] may open: all of both copies except
    [open_socket], [updateTerminalTheme] and [run_listeners], which
    are followed through their lemmas. *)
Create HintDb page_steps discriminated.
#[export] Hint Unfold
  skip null_deref emit with_terminal term_clear term_write term_writeln
  console_log console_error setTimeout addEventListener addClickListener
  websocket_send websocket_close on_data
  setupTerminal onmessage onerror sendKeyboardInterrupt focus fit on_resize
  on_beforeunload on_close_click on_keydown await_shell_info socket_event
  when_installed
  App.on_badge App.updateConnectionStatus App.connectWebSocket App.on_modal
  App.reconnect_click App.put_reconnect_btn App.showReconnectDialog
  App.onopen App.onclose App.fetchShellInfo App.on_minimize_click
  App.on_maximize_click App.setupEventListeners App.setAttribute_data_theme
  App.on_theme_click App.setupThemeController App.init App.main App.isolated
  App.run_listener App.run_callback
  Legacy.connectWebSocket Legacy.onopen Legacy.onclose Legacy.fetchShellInfo
  Legacy.on_minimize_click Legacy.on_maximize_click Legacy.setupEventListeners
  Legacy.init Legacy.main Legacy.run_callback
  : page_steps.

(** [call f H]: close a goal about a call of [f] alone with [H]. *)
Ltac call f H :=
  idtac;
  lazymatch goal with
  | |- stable_at _ ?m _ =>
      lazymatch m with
      | context [mbind] => fail
      | context [f] => apply at_of_stable; by apply H
      end
  | |- stable _ ?m =>
      lazymatch m with
      | context [mbind] => fail
      | context [f] => by apply H
      end
  end.

(** Follow a computation from one world: a world read by [get] is the
    world the next update starts from.  [known] closes calls that have
    a lemma, [fin] the updates. *)
Ltac track_step known fin :=
  first
    [ solve [known]
    | lazymatch goal with
      | |- stable _ _ => apply stable_of_at; intros ?
      | |- stable_at _ (mbind _ get) _ => apply at_get_bind; cbv beta
      | |- stable_at _ (mbind _ _) _ => apply at_bind; [apply _ | | intros ?]
      | |- stable_at _ (mret _) _ => apply at_ret; apply _
      | |- stable_at _ get _ => apply at_get; apply _
      | |- stable_at _ (throw _) _ => apply at_throw; apply _
      | |- stable_at _ (modify _) _ => apply at_modify; fin
      | |- stable_at _ (try_catch _ _) _ =>
          apply at_try_catch; [apply _ | | intros ?]
      | |- stable_at _ (if ?b then _ else _) _ => destruct b eqn:?
      | |- stable_at _ (match ?x with _ => _ end) _ => destruct x eqn:?
      | |- stable_at _ (let _ := _ in _) _ => cbv zeta
      | |- stable_at _ _ _ => progress autounfold with page_steps
      end ].

Ltac track known fin := repeat track_step known fin.

(** *** Counting in lists *)

Section Count.
Context {A : Type} (p : A → bool).

Lemma count_app (l1 l2 : list A) :
  List.length (List.filter p (l1 ++ l2)%list)
  = List.length (List.filter p l1) + List.length (List.filter p l2).
Proof. by rewrite List.filter_app, List.length_app. Qed.

Lemma count_alter_same (f : A → A) (l : list A) (i : nat) :
  (∀ x, l !! i = Some x → p (f x) = p x) →
  List.length (List.filter p (alter f i l)) = List.length (List.filter p l).
Proof.
  revert i. induction l as [|a l IH]; intros i Hf; [done |].
  destruct i as [|i].
  - change (alter f 0 (a :: l)) with (f a :: l). simpl.
    rewrite (Hf a eq_refl). by destruct (p a).
  - change (alter f (S i) (a :: l)) with (a :: alter f i l). simpl.
    assert (List.length (List.filter p (alter f i l))
            = List.length (List.filter p l)) as Hi
      by (apply IH; intros x Hx; by apply Hf).
    destruct (p a); simpl; by rewrite Hi.
Qed.

Lemma count_alter_drop (f : A → A) (l : list A) (i : nat) (x : A) :
  l !! i = Some x → p x = true → p (f x) = false →
  S (List.length (List.filter p (alter f i l))) = List.length (List.filter p l).
Proof.
  revert i. induction l as [|a l IH]; intros i Hi Hx Hfx; [done |].
  destruct i as [|i].
  - change (alter f 0 (a :: l)) with (f a :: l). simpl in *.
    injection Hi as ->. by rewrite Hx, Hfx.
  - change (alter f (S i) (a :: l)) with (a :: alter f i l). simpl in *.
    specialize (IH i Hi Hx Hfx). destruct (p a); simpl; by rewrite <- IH.
Qed.

Lemma count_delete (l : list A) (i : nat) (x : A) :
  l !! i = Some x →
  List.length (List.filter p (delete i l)) + (if p x then 1 else 0)
  = List.length (List.filter p l).
Proof.
  revert i. induction l as [|a l IH]; intros i Hi; [done |].
  destruct i as [|i].
  - change (delete 0 (a :: l)) with l. simpl in *.
    injection Hi as ->. destruct (p x); simpl; lia.
  - change (delete (S i) (a :: l)) with (a :: delete i l). simpl in *.
    specialize (IH i Hi). destruct (p a); simpl; lia.
Qed.

End Count.

End Track.

(** ** The socket the controller talks to *)

Module SocketFacts.
Import Js Page JsString Shared Obs Inv Reasoning Track SharedFacts ThemeFacts.

Ltac newest_fin :=
  unfold keeps, newest; cbn; rewrite ?length_alter;
  first [ by intros
        | let H := fresh in
          intros H; destruct (websocket _); [exact H | by rewrite H] ].

Lemma open_socket_newest : stable (keeps newest) open_socket.
Proof.
  intros w _. change ((open_socket w).1) with (connecting w).
  unfold newest, connecting. cbn. rewrite length_app. simpl. lia.
Qed.

Lemma updateTerminalTheme_newest (name : string) :
  stable (keeps newest) (App.updateTerminalTheme name).
Proof.
  intros w. destruct (updateTerminalTheme_only_terminal w name) as (o & Heq & _).
  unfold exec in Heq. rewrite Heq. intros H. exact H.
Qed.

Lemma run_listeners_newest (ls : list listener) :
  stable (keeps newest) (App.run_listeners ls).
Proof.
  pose proof open_socket_newest as Hopen.
  induction ls as [|l ls IH]; simpl.
  - apply stable_ret, _.
  - apply stable_bind; [apply _ | | by intros ?].
    destruct l. track ltac:(call open_socket Hopen) ltac:(newest_fin).
Qed.

Lemma app_dispatch_newest (e : App.event) : stable (keeps newest) (App.dispatch e).
Proof.
  pose proof open_socket_newest as Hopen.
  pose proof updateTerminalTheme_newest as Hupd.
  pose proof run_listeners_newest as Hrl.
  destruct e; simpl.
  all: track ltac:(first [ call open_socket Hopen
                         | call App.updateTerminalTheme Hupd
                         | call App.run_listeners Hrl ])
             ltac:(newest_fin).
Qed.

Lemma legacy_dispatch_newest (e : Legacy.event) :
  stable (keeps newest) (Legacy.dispatch e).
Proof.
  pose proof open_socket_newest as Hopen.
  destruct e; simpl.
  all: track ltac:(call open_socket Hopen) ltac:(newest_fin).
Qed.

Lemma app_main_newest (r : fetch_outcome) : stable (keeps newest) (App.main r).
Proof.
  pose proof open_socket_newest as Hopen.
  pose proof updateTerminalTheme_newest as Hupd.
  track ltac:(first [ call open_socket Hopen | call App.updateTerminalTheme Hupd ])
        ltac:(newest_fin).
Qed.

Lemma legacy_main_newest (r : fetch_outcome) : stable (keeps newest) (Legacy.main r).
Proof.
  pose proof open_socket_newest as Hopen.
  track ltac:(call open_socket Hopen) ltac:(newest_fin).
Qed.

Lemma app_run_newest (es : list App.event) (w : World) :
  newest w → newest (App.run w es).
Proof.
  revert w. induction es as [|e es IH]; intros w H; [done |].
  unfold App.run in *. simpl. apply IH. by apply app_dispatch_newest.
Qed.

Lemma legacy_run_newest (es : list Legacy.event) (w : World) :
  newest w → newest (Legacy.run w es).
Proof.
  revert w. induction es as [|e es IH]; intros w H; [done |].
  unfold Legacy.run in *. simpl. apply IH. by apply legacy_dispatch_newest.
Qed.

Lemma newest_some (w : World) :
  newest w → sockets w ≠ [] →
  ∃ i s, websocket w = Some i ∧ sockets w !! i = Some s
         ∧ S i = List.length (sockets w).
Proof.
  unfold newest. intros H Hne. destruct (websocket w) as [i|]; [|done].
  destruct (lookup_lt_is_Some_2 (sockets w) i) as [s Hs]; [lia |].
  by exists i, s.
Qed.

(** X1.  In both copies [this.websocket] is always the socket created
    last: the constructor's state has the property (no socket, no
    reference), start-up and every event keep it, so after any run the
    reference is [null] exactly while no socket was ever created and
    otherwise names an existing socket, the newest one. *)
Theorem websocket_is_newest (w : World) (r : fetch_outcome)
    (es : list App.event) (es' : list Legacy.event) :
  newest w →
  let a := App.run (exec (App.main r) w) es in
  let l := Legacy.run (exec (Legacy.main r) w) es' in
  newest a ∧ newest l
  ∧ (sockets a ≠ [] →
     ∃ i s, websocket a = Some i ∧ sockets a !! i = Some s
            ∧ S i = List.length (sockets a))
  ∧ (sockets l ≠ [] →
     ∃ i s, websocket l = Some i ∧ sockets l !! i = Some s
            ∧ S i = List.length (sockets l)).
Proof.
  intros Hw a l.
  assert (newest a) as Ha
    by (apply app_run_newest; by apply app_main_newest).
  assert (newest l) as Hl
    by (apply legacy_run_newest; by apply legacy_main_newest).
  split_and!; [done | done | by apply newest_some | by apply newest_some].
Qed.

Lemma websocket_is_newest_witness :
  newest sample_boot
  ∧ newest (App.run (exec (App.main NetworkError) sample_boot)
              [App.SocketClose 0; App.ClickReconnect; App.ClickReconnect;
               App.SocketOpen 2; App.Input "ls"]).
Proof.
  assert (newest sample_boot) as H by reflexivity.
  split; [exact H |].
  destruct (websocket_is_newest sample_boot NetworkError
              [App.SocketClose 0; App.ClickReconnect; App.ClickReconnect;
               App.SocketOpen 2; App.Input "ls"] [] H) as (Ha & _).
  exact Ha.
Defined.

End SocketFacts.

(** ** Connections made and kept *)

Module ConnectionFacts.
Import Js Page JsString Shared Obs Inv Reasoning Track SharedFacts ThemeFacts
  LifecycleFacts SocketFacts.

Lemma socket_event_keeps (P : World → Prop) (i : nat) (from : list readyState)
    (to : option readyState) (h : M unit) :
  (∀ w s, P w → sockets w !! i = Some s → ws_readyState s ∈ from →
          P (exec h (handed to i w))) →
  stable (keeps P) (socket_event i from to h).
Proof.
  intros H w HP. unfold socket_event. unfold_m.
  destruct (sockets w !! i) as [s|] eqn:Hs; [|done].
  case_bool_decide as Hin; [|done].
  specialize (H w s HP Hs Hin). unfold exec, handed in H.
  destruct to as [st|]; exact H.
Qed.



Ltac counts_fin :=
  unfold same, counts, attempts; cbn;
  rewrite ?length_alter, ?List.filter_app, ?List.length_app; cbn;
  rewrite ?Nat.add_0_r; reflexivity.

Lemma updateTerminalTheme_counts (name : string) :
  stable (same counts) (App.updateTerminalTheme name).
Proof.
  intros w. destruct (updateTerminalTheme_only_terminal w name) as (o & Heq & _).
  unfold exec in Heq. by rewrite Heq.
Qed.

Lemma app_dispatch_counts (e : App.event) :
  e ≠ App.ClickReconnect → stable (same counts) (App.dispatch e).
Proof.
  pose proof updateTerminalTheme_counts as Hupd.
  intros He. destruct e; simpl; try done.
  all: track ltac:(call App.updateTerminalTheme Hupd) ltac:(counts_fin).
Qed.

Lemma legacy_dispatch_counts (e : Legacy.event) :
  (∀ n, e ≠ Legacy.TimerFired n) → stable (same counts) (Legacy.dispatch e).
Proof.
  intros He. destruct e; simpl; try (by destruct (He n)).
  all: track ltac:(fail) ltac:(counts_fin).
Qed.

Lemma app_step_counts (w : World) (e : App.event) :
  e ≠ App.ClickReconnect → counts (App.step w e) = counts w.
Proof. intros He. by apply app_dispatch_counts. Qed.

Lemma legacy_step_counts (w : World) (e : Legacy.event) :
  (∀ n, e ≠ Legacy.TimerFired n) → counts (Legacy.step w e) = counts w.
Proof. intros He. by apply legacy_dispatch_counts. Qed.

Lemma legacy_timer_attempts (w : World) (n : nat) :
  (attempts (trace (Legacy.step w (Legacy.TimerFired n))) ≤ attempts (trace w) + 1)%nat.
Proof.
  unfold Legacy.step, Legacy.dispatch. unfold_m.
  destruct (timers w !! n) as [[cb ms]|]; [|simpl; lia].
  unfold attempts.
  destruct cb; cbn; [unfold fit | unfold focus | lia |]; unfold_m; cbn.
  - destruct (fitAddon w); cbn;
      rewrite ?List.filter_app, ?List.length_app; simpl; lia.
  - destruct (terminal w); cbn;
      rewrite ?List.filter_app, ?List.length_app; simpl; lia.
  - unfold Legacy.connectWebSocket, open_socket, new_WebSocket. unfold_m. cbn.
    rewrite List.filter_app, List.length_app. simpl. lia.
Qed.

Lemma app_run_attempts (es : list App.event) (w : World) :
  (List.length (btn_listeners w) ≤ 1)%nat →
  (attempts (trace (App.run w es)) ≤ attempts (trace w) + clicks es)%nat.
Proof.
  revert w. induction es as [|e es IH]; intros w Hok; [simpl; lia |].
  unfold App.run in *. simpl.
  assert (List.length (btn_listeners (App.step w e)) ≤ 1)%nat as Hok'
    by (by apply ReconnectFacts.dispatch_keeps_button).
  specialize (IH (App.step w e) Hok').
  assert (e = App.ClickReconnect ∨ e ≠ App.ClickReconnect) as [-> | He]
    by (destruct e; (by left) || (by right)).
  - pose proof (ReconnectFacts.click_attempts w Hok).
    unfold clicks in *. simpl. lia.
  - pose proof (app_step_counts w e He) as Hc. unfold counts in Hc.
    injection Hc as Ha _. unfold clicks in *. destruct e; simpl in *; lia.
Qed.

Lemma legacy_run_attempts (es : list Legacy.event) (w : World) :
  (attempts (trace (Legacy.run w es)) ≤ attempts (trace w) + timer_events es)%nat.
Proof.
  revert w. induction es as [|e es IH]; intros w; [simpl; lia |].
  unfold Legacy.run in *. simpl. specialize (IH (Legacy.step w e)).
  destruct e;
    lazymatch goal with
    | |- context [Legacy.TimerFired ?n] =>
        pose proof (legacy_timer_attempts w n);
        unfold timer_events in *; simpl; lia
    | |- context [Legacy.step w ?e] =>
        let Hc := fresh in
        pose proof (legacy_step_counts w e ltac:(done)) as Hc;
        unfold counts in Hc; injection Hc as Hc _;
        unfold timer_events in *; simpl in *; lia
    end.
Qed.

(** X2.  A socket is created only on request.  In [static/app.js] an
    event other than a click on the reconnect button leaves the number
    of sockets and of connection attempts as it was, and over any run
    the attempts grow by at most the number of such clicks; in the
    older copy the same holds with the timers in place of the
    clicks. *)
Theorem sockets_only_on_request (w : World) (es : list App.event)
    (es' : list Legacy.event) :
  (List.length (btn_listeners w) ≤ 1)%nat →
  (∀ e, e ≠ App.ClickReconnect → counts (App.step w e) = counts w)
  ∧ (∀ e, (∀ n, e ≠ Legacy.TimerFired n) → counts (Legacy.step w e) = counts w)
  ∧ (attempts (trace (App.run w es)) ≤ attempts (trace w) + clicks es)%nat
  ∧ (attempts (trace (Legacy.run w es')) ≤ attempts (trace w) + timer_events es')%nat.
Proof.
  intros Hok. split_and!.
  - apply app_step_counts.
  - apply legacy_step_counts.
  - by apply app_run_attempts.
  - apply legacy_run_attempts.
Qed.

Lemma sockets_only_on_request_witness :
  (List.length (btn_listeners app_open) ≤ 1)%nat
  ∧ counts (App.step app_open (App.SocketError 0)) = counts app_open
  ∧ (attempts (trace (App.run app_open
                        [App.SocketClose 0; App.Resize; App.ClickReconnect;
                         App.TimerFired 0]))
     ≤ attempts (trace app_open) + 1)%nat.
Proof.
  assert (List.length (btn_listeners app_open) ≤ 1)%nat as Hok
    by (vm_compute; lia).
  destruct (sockets_only_on_request app_open
              [App.SocketClose 0; App.Resize; App.ClickReconnect;
               App.TimerFired 0] [] Hok) as (Hstep & _ & Hrun & _).
  split; [exact Hok |]. split; [by apply Hstep | exact Hrun].
Defined.

End ConnectionFacts.

(** ** The older copy: one connection at a time *)

Module RetryFacts.
Import Js Page JsString Shared Obs Inv Reasoning Track SharedFacts
  LifecycleFacts SocketFacts ConnectionFacts StartupFacts.

Lemma live_from (s : WebSocket) (from : list readyState) :
  ws_readyState s ∈ from → CLOSED ∉ from → is_live s = true.
Proof.
  intros Hin Hno. unfold is_live.
  by destruct (ws_readyState s) eqn:Hs.
Qed.

Lemma is_live_connecting (address : string) (queue : list string) :
  is_live {| url := address; ws_readyState := CONNECTING; sent := queue |} = true.
Proof. reflexivity. Qed.

Lemma reachable_states :
  (CLOSED ∉ [CONNECTING]) ∧ (CLOSED ∉ [OPEN; CLOSING])
  ∧ (CLOSED ∉ [CONNECTING; OPEN; CLOSING]).
Proof.
  split_and!; rewrite !not_elem_of_cons; split_and!;
    (discriminate || apply not_elem_of_nil).
Qed.

(** A state change between states that are not CLOSED. *)
Lemma live_set_state (w w0 : World) (i : nat) (st : readyState) (s : WebSocket) :
  sockets w !! i = Some s → is_live s = true → st ≠ CLOSED →
  live (set_sockets (alter (set_readyState st) i (sockets w)) w0) = live w.
Proof.
  intros Hs Hl Hst. unfold live. cbn.
  apply count_alter_same. intros x Hx. rewrite Hs in Hx. injection Hx as <-.
  rewrite Hl. unfold is_live. simpl. by destruct st.
Qed.

Lemma live_close (w w0 : World) (i : nat) (s : WebSocket) :
  sockets w !! i = Some s → is_live s = true →
  S (live (set_sockets (alter (set_readyState CLOSED) i (sockets w)) w0)) = live w.
Proof.
  intros Hs Hl. unfold live. cbn. by apply (count_alter_drop _ _ _ _ s).
Qed.

Lemma live_sent (w w0 : World) (i : nat) (data : string) :
  live (set_sockets (alter (push_sent data) i (sockets w)) w0) = live w.
Proof. unfold live. cbn. by apply count_alter_same. Qed.

Ltac one_fin :=
  unfold keeps, one_connection, live, pending; cbn;
  rewrite ?count_app; cbn; rewrite ?Nat.add_0_r;
  first [ by intros | intros [? ?]; split; [by eexists | done] ].

Lemma legacy_onopen_one : stable (keeps one_connection) Legacy.onopen.
Proof. track ltac:(fail) ltac:(one_fin). Qed.

Lemma onmessage_one (data : string) : stable (keeps one_connection) (onmessage data).
Proof. track ltac:(fail) ltac:(one_fin). Qed.

Lemma onerror_one : stable (keeps one_connection) onerror.
Proof. track ltac:(fail) ltac:(one_fin). Qed.

Lemma websocket_send_one (data : string) :
  stable (keeps one_connection) (websocket_send data).
Proof.
  track ltac:(fail)
        ltac:(first [ one_fin
                    | unfold keeps, one_connection; intros [? ?];
                      split; [done | by rewrite live_sent] ]).
Qed.

Lemma websocket_close_one : stable (keeps one_connection) websocket_close.
Proof.
  apply stable_of_at. intros w. unfold stable_at, keeps, websocket_close.
  unfold_m. intros [Ht Hc].
  destruct (websocket w) as [i|]; [|done].
  destruct (sockets w !! i) as [s|] eqn:Hs; [|done]. simpl.
  destruct (ws_readyState s) eqn:Hst; try done; cbn.
  all: split; [done |].
  all: unfold live, pending in *; cbn.
  all: rewrite count_alter_same; [exact Hc |].
  all: intros x Hx; rewrite Hs in Hx; injection Hx as <-.
  all: unfold is_live; simpl; by rewrite Hst.
Qed.

Lemma legacy_close_one (i : nat) :
  stable (keeps one_connection)
    (socket_event i [CONNECTING; OPEN; CLOSING] (Some CLOSED) Legacy.onclose).
Proof.
  apply socket_event_keeps. intros w s [[t Ht] Hc] Hs Hin.
  pose proof reachable_states as (_ & _ & Hno).
  pose proof (live_from s _ Hin Hno) as Hl.
  unfold exec, handed. rewrite (legacy_onclose _ t) by done.
  split; [by exists t |].
  pose proof (live_close w w i s Hs Hl) as Hlive.
  unfold retry_scheduled, pending in *. cbn in *.
  rewrite count_app. cbn. unfold live in *. cbn in *. lia.
Qed.

Lemma legacy_open_one (i : nat) :
  stable (keeps one_connection)
    (socket_event i [CONNECTING] (Some OPEN) Legacy.onopen).
Proof.
  apply socket_event_keeps. intros w s [Ht Hc] Hs Hin.
  pose proof reachable_states as (Hno & _ & _).
  apply legacy_onopen_one. split; [exact Ht |].
  unfold handed. rewrite (live_set_state w w i OPEN s); try done.
  by apply (live_from s [CONNECTING]).
Qed.

Lemma legacy_timer_one (n : nat) :
  stable (keeps one_connection) (Legacy.dispatch (Legacy.TimerFired n)).
Proof.
  intros w [Ht Hc]. unfold Legacy.dispatch. unfold_m.
  destruct (timers w !! n) as [[cb ms]|] eqn:Hn; [|by split].
  pose proof (count_delete is_retry (timers w) n (cb, ms) Hn) as Hdel.
  assert (one_connection (set_timers (delete n (timers w)) w) ∨ cb = CbConnect)
    as [Hone | ->].
  { destruct cb; [left | left | left | by right]; (split; [exact Ht |]);
      cbn in Hdel; unfold pending in *; cbn; unfold live in *; cbn; lia. }
  all: cbn in Hdel.
  - destruct cb; simpl.
    + unfold fit. unfold_m. cbn. by destruct (fitAddon w).
    + unfold focus. unfold_m. cbn. by destruct (terminal w).
    + exact Hone.
    + change (one_connection (connecting (set_timers (delete n (timers w)) w))).
      destruct Hone as [_ Hone]. split; [exact Ht |].
      unfold connecting, live, pending in *. cbn in *.
      rewrite count_app. cbn. rewrite is_live_connecting. simpl. lia.
  - simpl. change (one_connection (connecting (set_timers (delete n (timers w)) w))).
    split; [exact Ht |].
    unfold connecting, live, pending in *. cbn in *.
    rewrite count_app. cbn. rewrite is_live_connecting. simpl. lia.
Qed.

Lemma legacy_dispatch_one (e : Legacy.event) :
  stable (keeps one_connection) (Legacy.dispatch e).
Proof.
  pose proof legacy_open_one as Hopen.
  pose proof legacy_close_one as Hclose.
  pose proof legacy_timer_one as Htimer.
  pose proof websocket_send_one as Hsend.
  pose proof websocket_close_one as Hshut.
  pose proof onmessage_one as Hmsg.
  pose proof onerror_one as Herr.
  destruct e; simpl; try apply Hopen; try apply Hclose; try apply (Htimer n).
  - apply socket_event_keeps. intros w s H _ _. by apply Hmsg.
  - apply socket_event_keeps. intros w s H _ _. by apply Herr.
  - unfold on_data.
    track ltac:(call websocket_send Hsend) ltac:(one_fin).
  - unfold on_keydown, sendKeyboardInterrupt, when_installed.
    track ltac:(call websocket_send Hsend) ltac:(one_fin).
  - track ltac:(fail) ltac:(one_fin).
  - unfold when_installed, on_beforeunload.
    track ltac:(call websocket_close Hshut) ltac:(one_fin).
  - track ltac:(fail) ltac:(one_fin).
  - track ltac:(fail) ltac:(one_fin).
  - track ltac:(fail) ltac:(one_fin).
Qed.

Lemma legacy_run_one (es : list Legacy.event) (w : World) :
  one_connection w → one_connection (Legacy.run w es).
Proof.
  revert w. induction es as [|e es IH]; intros w H; [done |].
  unfold Legacy.run in *. simpl. apply IH. by apply legacy_dispatch_one.
Qed.

Lemma legacy_fetch_safe (r : fetch_outcome) : safe (Legacy.fetchShellInfo r).
Proof.
  unfold Legacy.fetchShellInfo. apply safe_try_catch. intros e.
  safe_auto ltac:(fail).
Qed.

Ltac idle_fin :=
  unfold keeps, idle, live, pending; cbn;
  rewrite ?count_app; cbn; rewrite ?Nat.add_0_r; by intros.

Lemma legacy_fetch_idle (r : fetch_outcome) :
  stable (keeps idle) (Legacy.fetchShellInfo r).
Proof. track ltac:(fail) ltac:(idle_fin). Qed.

Lemma legacy_listeners_one : stable (keeps one_connection) Legacy.setupEventListeners.
Proof. track ltac:(fail) ltac:(one_fin). Qed.

Lemma legacy_fetch_elements (r : fetch_outcome) :
  stable (same (λ w, elements (document w))) (Legacy.fetchShellInfo r).
Proof. track ltac:(fail) ltac:(reflexivity). Qed.

(** The older copy's start-up, step by step. *)
Lemma legacy_main_steps (r : fetch_outcome) (w : World) :
  "#terminal" ∈ elements (document w) →
  let w1 := set_trace (trace w ++ [SetTimeout CbFocus 500])%list
              (set_timers (timers w ++ [(CbFocus, 500)])%list w) in
  let w2 := exec (Legacy.fetchShellInfo r) w1 in
  Legacy.main r w
  = Legacy.setupEventListeners (connecting (terminal_ready w2)).
Proof.
  intros Hmount w1 w2. unfold Legacy.main, Legacy.init.
  rewrite (bind_normal _ _ w w1 tt) by reflexivity.
  destruct (legacy_fetch_safe r w1) as [[] Hf].
  assert (Legacy.fetchShellInfo r w1 = (w2, Normal tt)) as Hfetch.
  { unfold w2, exec. destruct (Legacy.fetchShellInfo r w1) as [w' o].
    simpl in *. by subst. }
  assert ("#terminal" ∈ elements (document w2)) as Hmount2.
  { pose proof (legacy_fetch_elements r w1) as He. unfold same in He.
    fold (exec (Legacy.fetchShellInfo r) w1) in He. fold w2 in He.
    by rewrite He. }
  rewrite (bind_normal _ _ _ _ _ Hfetch).
  rewrite (bind_normal _ _ _ _ _ (setupTerminal_ready w2 Hmount2)).
  unfold Legacy.connectWebSocket.
  by rewrite (bind_normal _ _ _ _ _
                (ReconnectFacts.open_socket_connecting (terminal_ready w2))).
Qed.

Lemma legacy_main_one (r : fetch_outcome) (w : World) :
  "#terminal" ∈ elements (document w) →
  idle w → one_connection (exec (Legacy.main r) w).
Proof.
  intros Hmount Hidle. unfold exec. rewrite legacy_main_steps by done.
  apply legacy_listeners_one.
  set (w1 := set_trace _ _).
  assert (idle w1) as H1.
  { unfold w1, idle, live, pending in *. cbn. rewrite count_app. cbn. lia. }
  pose proof (legacy_fetch_idle r w1 H1) as [Hl Hp].
  fold (exec (Legacy.fetchShellInfo r) w1) in Hl, Hp.
  set (w2 := exec (Legacy.fetchShellInfo r) w1) in *.
  split; [by eexists |].
  unfold connecting, terminal_ready, live, pending in *. cbn.
  rewrite !count_app. cbn. rewrite is_live_connecting. simpl. lia.
Qed.

(** X3.  The older copy has exactly one connection at any time: once
    started on a page that has the widget's mount element and neither
    sockets nor retry timers, after any events the sockets that are
    not closed and the retry timers that have not fired number one
    together, so a closed connection is always retried and never
    twice. *)
Theorem legacy_one_connection (w : World) (r : fetch_outcome)
    (es : list Legacy.event) :
  "#terminal" ∈ elements (document w) →
  live w = 0 → pending w = 0 →
  let w' := Legacy.run (exec (Legacy.main r) w) es in
  is_Some (terminal w') ∧ live w' + pending w' = 1.
Proof.
  intros Hmount Hl Hp w'. apply legacy_run_one, legacy_main_one; [done |].
  by split.
Qed.

Lemma legacy_one_connection_witness :
  live sample_boot = 0 ∧ pending sample_boot = 0
  ∧ live (Legacy.run (exec (Legacy.main Unparsable) sample_boot)
            [Legacy.SocketOpen 0; Legacy.SocketClose 0; Legacy.Resize;
             Legacy.TimerFired 2; Legacy.SocketError 1; Legacy.SocketClose 1])
    + pending (Legacy.run (exec (Legacy.main Unparsable) sample_boot)
                 [Legacy.SocketOpen 0; Legacy.SocketClose 0; Legacy.Resize;
                  Legacy.TimerFired 2; Legacy.SocketError 1; Legacy.SocketClose 1])
    = 1.
Proof.
  assert ("#terminal" ∈ elements (document sample_boot)) as Hmount
    by (apply (bool_decide_unpack _); vm_compute; exact I).
  assert (live sample_boot = 0) as Hl by reflexivity.
  assert (pending sample_boot = 0) as Hp by reflexivity.
  split; [exact Hl |]. split; [exact Hp |].
  destruct (legacy_one_connection sample_boot Unparsable
              [Legacy.SocketOpen 0; Legacy.SocketClose 0; Legacy.Resize;
               Legacy.TimerFired 2; Legacy.SocketError 1; Legacy.SocketClose 1]
              Hmount Hl Hp) as [_ H].
  exact H.
Defined.

End RetryFacts.


(** ** [static/app.js]: the status badge *)

Module StatusFacts.
Import Js Page JsString Shared Obs Inv Reasoning Track SharedFacts ThemeFacts
  LifecycleFacts SocketFacts.
Import App.

Lemma updateConnectionStatus_synced (w : World) :
  updateConnectionStatus w = (synced w, Normal tt).
Proof.
  unfold updateConnectionStatus, on_badge, synced, badge_for, badge_disconnected.
  unfold_m.
  destruct w as [? ? ? ? [|] ? ? [? ? ? [bd|] ? ? ? ?] ? ? ? ? ? ?]; reflexivity.
Qed.

Lemma badge_for_shows (c : bool) (b : Badge) : badge_shows c (badge_for c b).
Proof.
  unfold badge_shows, badge_for, badge_disconnected, status_markup.
  destruct c; simpl; (split; [done |]); split; split; try done;
    set_unfold; intuition discriminate.
Qed.

Lemma synced_in_sync (w : World) : badge_in_sync (synced w).
Proof.
  intros b. unfold synced. cbn. destruct (badge (document w)) as [b0|]; [|done].
  simpl. intros [= <-]. apply badge_for_shows.
Qed.

(** Setting the flag and updating the badge, whatever follows. *)
Lemma status_change_keeps (c : bool) (rest : M unit) :
  stable (keeps badge_in_sync) rest →
  stable (keeps badge_in_sync)
    (modify (set_connected c) ≫= λ _, updateConnectionStatus ≫= λ _, rest).
Proof.
  intros Hrest w _. unfold mbind, M_bind, modify.
  rewrite updateConnectionStatus_synced.
  apply Hrest, synced_in_sync.
Qed.

Ltac sync_fin := let H := fresh in intros H; exact H.

Lemma updateTerminalTheme_sync (name : string) :
  stable (keeps badge_in_sync) (updateTerminalTheme name).
Proof.
  intros w. destruct (updateTerminalTheme_only_terminal w name) as (o & Heq & _).
  unfold exec in Heq. rewrite Heq. intros H. exact H.
Qed.

Lemma open_socket_sync : stable (keeps badge_in_sync) open_socket.
Proof. intros w H. exact H. Qed.

Ltac sync_known :=
  idtac;
  lazymatch goal with
  | |- stable_at _ (mbind _ (modify (set_connected _))) _ =>
      apply at_of_stable, status_change_keeps
  | |- stable_at _ open_socket _ => apply at_of_stable, open_socket_sync
  | |- stable_at _ (updateTerminalTheme _) _ =>
      apply at_of_stable, updateTerminalTheme_sync
  end.

Lemma onopen_sync : stable (keeps badge_in_sync) onopen.
Proof.
  unfold onopen.
  track ltac:(sync_known; track ltac:(fail) ltac:(sync_fin)) ltac:(sync_fin).
Qed.

Lemma showReconnectDialog_sync : stable (keeps badge_in_sync) showReconnectDialog.
Proof. track ltac:(fail) ltac:(sync_fin). Qed.

Lemma onclose_sync : stable (keeps badge_in_sync) onclose.
Proof.
  pose proof showReconnectDialog_sync as Hdlg.
  unfold onclose.
  track ltac:(sync_known;
              track ltac:(call showReconnectDialog Hdlg) ltac:(sync_fin))
        ltac:(sync_fin).
Qed.

Lemma run_listeners_sync (ls : list listener) :
  stable (keeps badge_in_sync) (run_listeners ls).
Proof.
  induction ls as [|l ls IH]; simpl.
  - apply stable_ret, _.
  - apply stable_bind; [apply _ | | by intros ?].
    destruct l. track ltac:(sync_known) ltac:(sync_fin).
Qed.

Lemma dispatch_sync (e : event) : stable (keeps badge_in_sync) (dispatch e).
Proof.
  pose proof run_listeners_sync as Hrl.
  destruct e; simpl.
  all: track ltac:(first [ call run_listeners Hrl
                         | sync_known; track ltac:(fail) ltac:(sync_fin) ])
             ltac:(sync_fin).
Qed.

Lemma run_sync (es : list event) (w : World) :
  badge_in_sync w → badge_in_sync (App.run w es).
Proof.
  revert w. induction es as [|e es IH]; intros w H; [done |].
  unfold App.run in *. simpl. apply IH. by apply dispatch_sync.
Qed.

Lemma returns_bind_inv {A B : Type} (m : M A) (f : A → M B) (w : World) :
  returns (m ≫= f) w →
  ∃ a, returns (f a) (exec m w) ∧ exec (m ≫= f) w = exec (f a) (exec m w).
Proof.
  unfold returns, exec, mbind, M_bind. intros [b Hb].
  destruct (m w) as [w' [a|e]]; simpl in *; [|done]. exists a. eauto.
Qed.

Lemma main_sync (r : fetch_outcome) (w : World) :
  returns (main r) w → badge_in_sync (exec (main r) w).
Proof.
  unfold main, init. intros H.
  repeat (apply returns_bind_inv in H as ([] & H & ->)).
  unfold exec at 1. rewrite updateConnectionStatus_synced. apply synced_in_sync.
Qed.

(** X4.  In [static/app.js] the badge always tells the [connected]
    flag: once start-up has returned, after any events the badge, if
    the page has one, carries the markup of the current flag and
    exactly one of the classes badge-success and badge-error, the one
    for that flag. *)
Theorem badge_follows_flag (w : World) (r : fetch_outcome) (es : list event) :
  returns (main r) w →
  let w' := App.run (exec (main r) w) es in
  ∀ b, badge (document w') = Some b →
       innerHTML b = status_markup (connected w')
       ∧ ("badge-success" ∈ classList b ↔ connected w' = true)
       ∧ ("badge-error" ∈ classList b ↔ connected w' = false)
       ∧ ¬ ("badge-success" ∈ classList b ∧ "badge-error" ∈ classList b).
Proof.
  intros Hret w' b Hb.
  pose proof (run_sync es _ (main_sync r w Hret) b Hb) as (Hm & Hs & He).
  fold w' in Hm, Hs, He. split_and!; try done.
  intros [H1 H2]. apply Hs in H1. apply He in H2. congruence.
Qed.

Lemma badge_follows_flag_witness :
  returns (main NetworkError) sample_boot
  ∧ ∀ b, badge (document (App.run (exec (main NetworkError) sample_boot)
                            [SocketOpen 0; Input "ls"; SocketClose 0])) = Some b →
         innerHTML b
         = status_markup
             (connected (App.run (exec (main NetworkError) sample_boot)
                           [SocketOpen 0; Input "ls"; SocketClose 0])).
Proof.
  assert (returns (main NetworkError) sample_boot) as Hret
    by (exists tt; vm_compute; reflexivity).
  split; [exact Hret |]. intros b Hb.
  destruct (badge_follows_flag sample_boot NetworkError
              [SocketOpen 0; Input "ls"; SocketClose 0] Hret b Hb) as (Hm & _).
  exact Hm.
Defined.

End StatusFacts.

(** ** Start-up, step by step *)

Module BootFacts.
Import Js Page JsString Shared Obs Inv Reasoning Track SharedFacts ThemeFacts
  ReconnectFacts StartupFacts StatusFacts.
Import App.

Lemma select_theme_selected (name : string) (w : World) :
  select_theme name w = (w, Normal (selected name)).
Proof.
  unfold select_theme, read, selected.
  destruct (get_property themes name) as [e|chosen] eqn:Hget.
  { unfold themes in Hget. simpl in Hget. by case_match. }
  unfold_m. destruct (truthy chosen); [done |]. by rewrite themes_dark.
Qed.

Lemma updateTerminalTheme_colours (w : World) (t : Terminal) (name : string) :
  terminal w = Some t →
  updateTerminalTheme name w
  = (set_terminal
       (Some (recoloured (colour name "background") (colour name "foreground")
                (colour name "cursor") t)) w, Normal tt).
Proof.
  intros Ht.
  destruct (updateTerminalTheme_recolours w t name Ht)
    as (v & bg & fg & cur & Hsel & Hbg & Hfg & Hcur & Heq).
  rewrite select_theme_selected in Hsel. injection Hsel as <-.
  unfold colour. by rewrite Hbg, Hfg, Hcur.
Qed.

Lemma recoloured_field (bg fg cur : value) (t : Terminal) :
  theme (options (recoloured bg fg cur t)) !! "background" = Some bg
  ∧ theme (options (recoloured bg fg cur t)) !! "foreground" = Some fg
  ∧ theme (options (recoloured bg fg cur t)) !! "cursor" = Some cur.
Proof.
  unfold recoloured, set_theme. cbn [theme options].
  split_and!.
  - rewrite !lookup_insert_ne by done. by rewrite lookup_insert_eq.
  - rewrite lookup_insert_ne by done. by rewrite lookup_insert_eq.
  - by rewrite lookup_insert_eq.
Qed.

Lemma saved_theme_selected (name : string) (storage : gmap string string) :
  selected (saved_theme (<["terminal-theme" := name]> storage)) = selected name.
Proof.
  unfold saved_theme. rewrite lookup_insert_eq.
  destruct (String.eqb name "") eqn:Hname; [|done].
  apply String.eqb_eq in Hname as ->. vm_compute. reflexivity.
Qed.

Lemma updateTerminalTheme_themed (name : string) (w : World) :
  updateTerminalTheme name (set_document (set_data_theme (Some name) (document w)) w)
  = (themed name w, Normal tt).
Proof.
  unfold themed. destruct (terminal w) as [t|] eqn:Ht.
  - rewrite (updateTerminalTheme_colours _ t) by (cbn; exact Ht). reflexivity.
  - unfold updateTerminalTheme. unfold_m. cbn. rewrite Ht.
    destruct w; cbn in *; by subst.
Qed.

Lemma on_theme_click_stores (w : World) (k : nat) (attr : option string) :
  theme_controllers (document w) !! k = Some attr →
  on_theme_click k w
  = (set_localStorage (<["terminal-theme" := to_string attr]> (localStorage w))
       (themed (to_string attr) (set_trace (trace w ++ [PreventDefault])%list w)),
     Normal tt).
Proof.
  intros Hk. unfold on_theme_click, setAttribute_data_theme, emit.
  unfold mbind, M_bind, get, modify. rewrite Hk.
  cbv beta.
  pose proof (updateTerminalTheme_themed (to_string attr)
                (set_trace (trace w ++ [PreventDefault])%list w)) as Heq.
  rewrite Heq. reflexivity.
Qed.

Lemma setupThemeController_themed (w : World) :
  setupThemeController w
  = (themed (saved_theme (localStorage w))
       (set_installed
          (installed w ++ imap (λ k _, OnThemeClick k) (theme_controllers (document w)))%list
          w),
     Normal tt).
Proof.
  unfold setupThemeController, setAttribute_data_theme.
  unfold mbind, M_bind, get, modify.
  cbv beta. fold (saved_theme (localStorage w)).
  pose proof (updateTerminalTheme_themed (saved_theme (localStorage w))
                (set_installed
                   (installed w
                      ++ imap (λ k _, OnThemeClick k) (theme_controllers (document w)))%list
                   w)) as Heq.
  rewrite Heq. reflexivity.
Qed.

Lemma themed_field (name c : string) (w : World) :
  c ∈ ["background"; "foreground"; "cursor"] → is_Some (terminal w) →
  theme_field c (themed name w) = Some (Some (colour name c)).
Proof.
  intros Hc [t Ht]. unfold theme_field, themed. cbn [terminal set_terminal].
  rewrite Ht. cbn [fmap option_fmap option_map].
  destruct (recoloured_field (colour name "background") (colour name "foreground")
              (colour name "cursor") t) as (Hbg & Hfg & Hcur).
  rewrite !elem_of_cons in Hc. destruct Hc as [-> | [-> | [-> | Hc]]];
    [by rewrite Hbg | by rewrite Hfg | by rewrite Hcur | by apply elem_of_nil in Hc].
Qed.

Lemma colour_saved (name c : string) (storage : gmap string string) :
  colour (saved_theme (<["terminal-theme" := name]> storage)) c = colour name c.
Proof. unfold colour. by rewrite saved_theme_selected. Qed.

Lemma focus_timer_set (w : World) :
  setTimeout CbFocus 500 w = (focus_timer w, Normal tt).
Proof. reflexivity. Qed.

Lemma app_fetched (r : fetch_outcome) (w : World) :
  App.fetchShellInfo r w = (fetched r w, Normal tt).
Proof. destruct r; reflexivity. Qed.

Lemma legacy_fetched_state (r : fetch_outcome) (w : World) :
  Legacy.fetchShellInfo r w = (legacy_fetched r w, Normal tt).
Proof. destruct r; reflexivity. Qed.

Lemma control_buttons_present (w : World) :
  control_buttons ⊆ elements (document w) →
  bool_decide (".control-button.close" ∈ elements (document w)) = true
  ∧ bool_decide (".control-button.minimize" ∈ elements (document w)) = true
  ∧ bool_decide (".control-button.maximize" ∈ elements (document w)) = true.
Proof.
  intros H. split_and!; apply bool_decide_eq_true_2, H; unfold control_buttons;
    set_solver.
Qed.

Lemma app_listeners_installed (w : World) :
  control_buttons ⊆ elements (document w) →
  App.setupEventListeners w = (listening page_handlers w, Normal tt).
Proof.
  intros H. destruct (control_buttons_present w H) as (Hc & Hm & Hx).
  unfold App.setupEventListeners, addClickListener, addEventListener, listening.
  unfold_m. cbn [document set_installed]. rewrite Hc.
  cbn [document set_installed]. rewrite Hm.
  cbn [document set_installed]. rewrite Hx.
  cbn [installed set_installed]. rewrite <- !app_assoc. reflexivity.
Qed.

Lemma legacy_listeners_installed (w : World) :
  control_buttons ⊆ elements (document w) →
  Legacy.setupEventListeners w = (listening page_handlers w, Normal tt).
Proof. apply app_listeners_installed. Qed.

Lemma fetched_frame (r : fetch_outcome) (w : World) :
  elements (document (fetched r w)) = elements (document w)
  ∧ theme_controllers (document (fetched r w)) = theme_controllers (document w)
  ∧ localStorage (fetched r w) = localStorage w.
Proof. by destruct r. Qed.

Lemma setupTerminal_unmounted (w : World) :
  ("#terminal" ∉ elements (document w)) →
  setupTerminal w
  = (unmounted w, Throw (Error "Terminal requires a parent element.")).
Proof.
  intros Hmount.
  unfold setupTerminal, unmounted, term_writeln, with_terminal, setTimeout.
  generalize initial_options. intros opts.
  destruct w. unfold_m. unfold_w. cbn in Hmount.
  rewrite (bool_decide_false _ Hmount). by rewrite <- !app_assoc.
Qed.

Lemma fetched_mount (r : fetch_outcome) (w : World) :
  "#terminal" ∈ elements (document w) →
  "#terminal" ∈ elements (document (fetched r (focus_timer w))).
Proof. by destruct r. Qed.

Lemma legacy_fetched_mount (r : fetch_outcome) (w : World) :
  "#terminal" ∈ elements (document w) →
  "#terminal" ∈ elements (document (legacy_fetched r (focus_timer w))).
Proof. by destruct r. Qed.

Lemma app_main_unmounted (r : fetch_outcome) (w : World) :
  ("#terminal" ∉ elements (document w)) →
  App.main r w
  = (unmounted (fetched r (focus_timer w)),
     Throw (Error "Terminal requires a parent element.")).
Proof.
  intros Hmount.
  assert ("#terminal" ∉ elements (document (fetched r (focus_timer w)))) as Hm
    by (by destruct r).
  unfold App.main, App.init.
  rewrite (bind_normal _ _ _ _ tt (focus_timer_set w)).
  rewrite (bind_normal _ _ _ _ tt (app_fetched r _)).
  unfold mbind at 1, M_bind at 1. by rewrite (setupTerminal_unmounted _ Hm).
Qed.

Lemma legacy_main_unmounted (r : fetch_outcome) (w : World) :
  ("#terminal" ∉ elements (document w)) →
  Legacy.main r w
  = (unmounted (legacy_fetched r (focus_timer w)),
     Throw (Error "Terminal requires a parent element.")).
Proof.
  intros Hmount.
  assert ("#terminal" ∉ elements (document (legacy_fetched r (focus_timer w))))
    as Hm by (by destruct r).
  unfold Legacy.main, Legacy.init.
  rewrite (bind_normal _ _ _ _ tt (focus_timer_set w)).
  rewrite (bind_normal _ _ _ _ tt (legacy_fetched_state r _)).
  unfold mbind at 1, M_bind at 1. by rewrite (setupTerminal_unmounted _ Hm).
Qed.

Lemma app_main_ready (r : fetch_outcome) (w : World) :
  "#terminal" ∈ elements (document w) →
  control_buttons ⊆ elements (document w) →
  App.main r w = (app_ready r w, Normal tt).
Proof.
  intros Hmount H.
  destruct (fetched_frame r (focus_timer w)) as (Hel & Hth & Hst).
  unfold App.main, App.init, App.connectWebSocket.
  rewrite (bind_normal _ _ _ _ tt (focus_timer_set w)).
  rewrite (bind_normal _ _ _ _ tt (app_fetched r _)).
  rewrite (bind_normal _ _ _ _ tt (setupTerminal_ready _ (fetched_mount r w Hmount))).
  rewrite (bind_normal _ _ _ _ tt (open_socket_connecting _)).
  rewrite (bind_normal _ _ _ (listening page_handlers
             (connecting (terminal_ready (fetched r (focus_timer w))))) tt)
    by (apply app_listeners_installed; cbn; by rewrite Hel).
  rewrite (bind_normal _ _ _ _ tt (setupThemeController_themed _)).
  rewrite updateConnectionStatus_synced.
  unfold app_ready, theme_handlers. cbn [localStorage document listening set_installed
    connecting set_websocket set_trace set_sockets terminal_ready set_timers
    set_fitAddon set_terminal].
  rewrite Hth, Hst. reflexivity.
Qed.

Lemma legacy_fetched_frame (r : fetch_outcome) (w : World) :
  elements (document (legacy_fetched r w)) = elements (document w).
Proof. by destruct r. Qed.

Lemma legacy_main_ready (r : fetch_outcome) (w : World) :
  "#terminal" ∈ elements (document w) →
  control_buttons ⊆ elements (document w) →
  Legacy.main r w = (legacy_ready r w, Normal tt).
Proof.
  intros Hmount H. pose proof (legacy_fetched_frame r (focus_timer w)) as Hel.
  unfold Legacy.main, Legacy.init, Legacy.connectWebSocket.
  rewrite (bind_normal _ _ _ _ tt (focus_timer_set w)).
  rewrite (bind_normal _ _ _ _ tt (legacy_fetched_state r _)).
  rewrite (bind_normal _ _ _ _ tt (setupTerminal_ready _ (legacy_fetched_mount r w Hmount))).
  rewrite (bind_normal _ _ _ _ tt (open_socket_connecting _)).
  apply legacy_listeners_installed. cbn. by rewrite Hel.
Qed.

Lemma control_buttons_missing (d : Document) :
  ¬ control_buttons ⊆ elements d →
  bool_decide (".control-button.close" ∈ elements d)
  && bool_decide (".control-button.minimize" ∈ elements d)
  && bool_decide (".control-button.maximize" ∈ elements d) = false.
Proof.
  intros H. apply not_true_is_false. intros Hall. apply H.
  apply andb_prop in Hall as [Hall Hx]. apply andb_prop in Hall as [Hc Hm].
  apply bool_decide_eq_true_1 in Hc, Hm, Hx. unfold control_buttons.
  intros x. set_unfold. intros [[Hx' | Hx'] | Hx']; subst x; assumption.
Qed.

(** [setupEventListeners] on any document: the listeners it leaves,
    and an exception when a window control is missing. *)
Lemma listeners_wired (w : World) :
  exec App.setupEventListeners w = listening (wired (document w)) w
  ∧ (¬ control_buttons ⊆ elements (document w) →
     ∃ msg, App.setupEventListeners w
            = (listening (wired (document w)) w, Throw (TypeError msg))).
Proof.
  unfold App.setupEventListeners, addClickListener, addEventListener, listening,
    wired.
  split; [|intros H%control_buttons_missing; revert H];
    unfold_m; cbn [document set_installed];
    destruct (bool_decide (".control-button.close" ∈ elements (document w)));
    cbn [document set_installed installed andb app];
    try (by rewrite <- ?app_assoc; eauto);
    destruct (bool_decide (".control-button.minimize" ∈ elements (document w)));
    cbn [document set_installed installed andb app];
    try (by rewrite <- ?app_assoc; eauto);
    destruct (bool_decide (".control-button.maximize" ∈ elements (document w)));
    cbn [document set_installed installed andb app];
    by rewrite <- ?app_assoc; eauto.
Qed.

Lemma app_main_aborted (r : fetch_outcome) (w : World) :
  "#terminal" ∈ elements (document w) →
  ¬ control_buttons ⊆ elements (document w) →
  ∃ msg, App.main r w = (app_aborted r w, Throw (TypeError msg)).
Proof.
  intros Hmount H. destruct (fetched_frame r (focus_timer w)) as (Hel & _ & _).
  destruct (listeners_wired (connecting (terminal_ready (fetched r (focus_timer w)))))
    as (_ & (msg & Hthrow)); [cbn; by rewrite Hel |].
  exists msg.
  unfold App.main, App.init, App.connectWebSocket.
  rewrite (bind_normal _ _ _ _ tt (focus_timer_set w)).
  rewrite (bind_normal _ _ _ _ tt (app_fetched r _)).
  rewrite (bind_normal _ _ _ _ tt (setupTerminal_ready _ (fetched_mount r w Hmount))).
  rewrite (bind_normal _ _ _ _ tt (open_socket_connecting _)).
  unfold mbind at 1, M_bind at 1. rewrite Hthrow. unfold app_aborted.
  assert (wired (document (connecting (terminal_ready (fetched r (focus_timer w)))))
          = wired (document w)) as -> by (unfold wired; cbn; by rewrite Hel).
  reflexivity.
Qed.

Lemma legacy_listeners_wired (w : World) :
  ¬ control_buttons ⊆ elements (document w) →
  ∃ msg, Legacy.setupEventListeners w
         = (listening (wired (document w)) w, Throw (TypeError msg)).
Proof. apply (listeners_wired w). Qed.

Lemma legacy_main_aborted (r : fetch_outcome) (w : World) :
  "#terminal" ∈ elements (document w) →
  ¬ control_buttons ⊆ elements (document w) →
  ∃ msg, Legacy.main r w
         = (listening (wired (document w))
              (connecting (terminal_ready (legacy_fetched r (focus_timer w)))),
            Throw (TypeError msg)).
Proof.
  intros Hmount H. pose proof (legacy_fetched_frame r (focus_timer w)) as Hel.
  destruct (legacy_listeners_wired
              (connecting (terminal_ready (legacy_fetched r (focus_timer w)))))
    as (msg & Hthrow); [cbn; by rewrite Hel |].
  exists msg.
  unfold Legacy.main, Legacy.init, Legacy.connectWebSocket.
  rewrite (bind_normal _ _ _ _ tt (focus_timer_set w)).
  rewrite (bind_normal _ _ _ _ tt (legacy_fetched_state r _)).
  rewrite (bind_normal _ _ _ _ tt (setupTerminal_ready _ (legacy_fetched_mount r w Hmount))).
  rewrite (bind_normal _ _ _ _ tt (open_socket_connecting _)).
  rewrite Hthrow.
  assert (wired (document (connecting (terminal_ready (legacy_fetched r (focus_timer w)))))
          = wired (document w)) as -> by (unfold wired; cbn; by rewrite Hel).
  reflexivity.
Qed.

Lemma wired_incomplete (d : Document) :
  ¬ control_buttons ⊆ elements d →
  (OnKeydown ∉ wired d) ∧ (∀ k, OnThemeClick k ∉ wired d).
Proof.
  intros H%control_buttons_missing. revert H. unfold wired.
  destruct (bool_decide (".control-button.close" ∈ elements d)),
    (bool_decide (".control-button.minimize" ∈ elements d)),
    (bool_decide (".control-button.maximize" ∈ elements d));
    simpl; intros ?; try done;
    (split; [|intros k]); rewrite ?elem_of_cons, elem_of_nil;
    intuition discriminate.
Qed.

Lemma uninstalled_ignored (h : handler) (body : M unit) (w : World) :
  h ∉ installed w → when_installed h body w = (w, Normal tt).
Proof.
  intros H. unfold when_installed. unfold_m. by rewrite bool_decide_false.
Qed.

(** Read a field of a page given by the updates that led to it. *)
Ltac fields :=
  lazy [app_ready legacy_ready app_aborted synced themed listening connecting
        terminal_ready unmounted fetched legacy_fetched logged lined titled fallback
        focus_timer described ws_address
        set_terminal set_websocket set_fitAddon set_connected set_shellInfo
        set_sockets set_document set_localStorage set_installed set_timers
        set_trace set_header_title set_shell_info set_badge
        set_reconnect_modal set_reconnect_btn set_data_theme
        terminal websocket fitAddon currentLine connected shellInfo sockets
        document location_protocol location_host localStorage installed
        timers trace elements header_title shell_info badge reconnect_modal
        reconnect_btn data_theme theme_controllers fst snd];
  try reflexivity.

(** X6.  The metadata request decides what both copies store and
    show, whatever happens later in start-up: a description that
    arrives is stored as it is and put in the title (and, in
    [static/app.js] only, in the shell line) where the page has these
    elements; after a failure the default is stored and the page's
    texts stay. *)
Theorem metadata_shown (w : World) (r : fetch_outcome) :
  let a := exec (App.main r) w in
  let l := exec (Legacy.main r) w in
  shellInfo a = Some (described r) ∧ shellInfo l = Some (described r)
  ∧ header_title (document l) = header_title (document a)
  ∧ shell_info (document l) = shell_info (document w)
  ∧ match r with
    | Loaded info =>
        header_title (document a)
        = set_text (header_title (document w)) ("Web Terminal - " ++ shell info)
        ∧ shell_info (document a)
          = set_text (shell_info (document w))
              ("Shell: " ++ shell info ++ " " ++ join " " (args info))
    | _ =>
        header_title (document a) = header_title (document w)
        ∧ shell_info (document a) = shell_info (document w)
    end.
Proof.
  intros a l. subst a l. unfold exec.
  destruct (decide ("#terminal" ∈ elements (document w))) as [Hmount|Hmount].
  - destruct (decide (control_buttons ⊆ elements (document w))) as [H|H].
    + rewrite (app_main_ready r w Hmount H), (legacy_main_ready r w Hmount H).
      destruct r, w; split_and!; fields.
    + destruct (app_main_aborted r w Hmount H) as [msg ->].
      destruct (legacy_main_aborted r w Hmount H) as [msg' ->].
      destruct r, w; split_and!; fields.
  - rewrite (app_main_unmounted r w Hmount), (legacy_main_unmounted r w Hmount).
    destruct r, w; split_and!; fields.
Qed.



Lemma keydown_ignored (w : World) (ctrlKey : bool) (key : string) :
  OnKeydown ∉ installed w →
  App.step w (App.Keydown ctrlKey key) = w
  ∧ Legacy.step w (Legacy.Keydown ctrlKey key) = w.
Proof.
  intros H. unfold App.step, Legacy.step, exec. simpl.
  by rewrite (uninstalled_ignored _ _ _ H).
Qed.

Lemma theme_click_ignored (w : World) (k : nat) :
  OnThemeClick k ∉ installed w → App.step w (App.ClickTheme k) = w.
Proof.
  intros H. unfold App.step, exec. simpl.
  by rewrite (uninstalled_ignored _ _ _ H).
Qed.

(** X8.  Loading a page that has the mount element and lacks one of
    the three window controls.
    Start-up still creates the widget and opens the connection, and
    then ends in a [TypeError] inside [setupEventListeners]: the
    keyboard listener and the theme listeners are never registered,
    the stored theme is not applied and the badge is not touched.  On
    such a page Ctrl+C and the theme controls do nothing. *)
Theorem missing_control_aborts_startup (doc : Document) (protocol host : string)
    (storage : gmap string string) (r : fetch_outcome) :
  "#terminal" ∈ elements doc →
  ¬ control_buttons ⊆ elements doc →
  let w := boot doc protocol host storage in
  let a := exec (App.main r) w in
  let l := exec (Legacy.main r) w in
  (∃ msg, (App.main r w).2 = Throw (TypeError msg))
  ∧ (∃ msg, (Legacy.main r w).2 = Throw (TypeError msg))
  ∧ (∃ t, terminal a = Some t ∧ onData t = true ∧ theme (options t) = initial_theme)
  ∧ websocket a = Some 0
  ∧ ws_readyState <$> sockets a !! 0 = Some CONNECTING
  ∧ installed l = installed a
  ∧ (OnKeydown ∉ installed a)
  ∧ (∀ k, OnThemeClick k ∉ installed a)
  ∧ data_theme (document a) = data_theme doc
  ∧ badge (document a) = badge doc
  ∧ (∀ es, App.run a (App.Keydown true "c" :: es) = App.run a es)
  ∧ (∀ es, Legacy.run l (Legacy.Keydown true "c" :: es) = Legacy.run l es)
  ∧ (∀ k es, App.run a (App.ClickTheme k :: es) = App.run a es).
Proof.
  intros Hmount H w a l.
  destruct (app_main_aborted r w Hmount H) as [msg Ha].
  destruct (legacy_main_aborted r w Hmount H) as [msg' Hl].
  destruct (wired_incomplete doc H) as (Hkey & Htheme).
  assert (installed a = wired doc) as Hia
    by (unfold a, exec; rewrite Ha; subst w; unfold boot; destruct r; fields).
  assert (installed l = wired doc) as Hil
    by (unfold l, exec; rewrite Hl; subst w; unfold boot; destruct r; fields).
  assert (OnKeydown ∉ installed a) as Hka by (by rewrite Hia).
  assert (OnKeydown ∉ installed l) as Hkl by (by rewrite Hil).
  assert (∀ k, OnThemeClick k ∉ installed a) as Hta by (by rewrite Hia).
  split_and!.
  - exists msg. by rewrite Ha.
  - exists msg'. by rewrite Hl.
  - unfold a, exec. rewrite Ha. subst w. unfold boot. eexists.
    destruct r; split_and!; fields.
  - unfold a, exec. rewrite Ha. subst w. unfold boot. destruct r; fields.
  - unfold a, exec. rewrite Ha. subst w. unfold boot. destruct r; fields.
  - by rewrite Hia, Hil.
  - exact Hka.
  - exact Hta.
  - unfold a, exec. rewrite Ha. subst w. unfold boot. destruct r; fields.
  - unfold a, exec. rewrite Ha. subst w. unfold boot. destruct r; fields.
  - intros es. unfold App.run. simpl.
    by rewrite (proj1 (keydown_ignored a true "c" Hka)).
  - intros es. unfold Legacy.run. simpl.
    by rewrite (proj2 (keydown_ignored l true "c" Hkl)).
  - intros k es. unfold App.run. simpl.
    by rewrite (theme_click_ignored a k (Hta k)).
Qed.

Lemma missing_control_aborts_startup_witness :
  ¬ control_buttons ⊆ elements document_without_close
  ∧ websocket (exec (App.main NetworkError)
                 (boot document_without_close "http:" "localhost:3000" ∅)) = Some 0
  ∧ OnKeydown ∉ installed (exec (App.main NetworkError)
                             (boot document_without_close "http:" "localhost:3000" ∅)).
Proof.
  assert ("#terminal" ∈ elements document_without_close) as Hmount
    by (apply (bool_decide_unpack _); vm_compute; exact I).
  assert (¬ control_buttons ⊆ elements document_without_close) as H
    by (apply (bool_decide_unpack _); vm_compute; exact I).
  destruct (missing_control_aborts_startup document_without_close "http:"
              "localhost:3000" ∅ NetworkError Hmount H)
    as (_ & _ & _ & Hws & _ & _ & Hkey & _).
  split_and!; [exact H | exact Hws | exact Hkey].
Defined.

End BootFacts.

(** ** The theme preference *)

Module PreferenceFacts.
Import Js Page JsString Shared Obs Inv Reasoning Track SharedFacts ThemeFacts
  ReconnectFacts StartupFacts StatusFacts BootFacts.
Import App.

Lemma theme_click_step (w : World) (k : nat) (attr : option string) :
  theme_controllers (document w) !! k = Some attr →
  OnThemeClick k ∈ installed w →
  App.step w (ClickTheme k)
  = set_localStorage (<["terminal-theme" := to_string attr]> (localStorage w))
      (themed (to_string attr) (set_trace (trace w ++ [PreventDefault])%list w)).
Proof.
  intros Hk Hin. unfold App.step, exec, dispatch, when_installed.
  unfold mbind, M_bind, get. rewrite bool_decide_true by done.
  by rewrite (on_theme_click_stores w k attr Hk).
Qed.

Lemma theme_field_synced (c : string) (w : World) :
  theme_field c (synced w) = theme_field c w.
Proof. reflexivity. Qed.

Lemma theme_field_stored (c : string) (s : gmap string string) (w : World) :
  theme_field c (set_localStorage s w) = theme_field c w.
Proof. reflexivity. Qed.

Lemma app_ready_field (r : fetch_outcome) (w : World) (c : string) :
  c ∈ ["background"; "foreground"; "cursor"] →
  theme_field c (app_ready r w)
  = Some (Some (colour (saved_theme (localStorage w)) c)).
Proof.
  intros Hc. unfold app_ready.
  rewrite theme_field_synced.
  apply themed_field; [done |]. by eexists.
Qed.

(** X5.  The theme preference survives a reload.  A click on a theme
    control stores the control's [data-theme] value, puts it on the
    root element and recolours the widget; when the page is loaded
    again with that storage (on a page with the mount element and the
    window controls), start-up gives the widget the same three
    colours, whatever the value was.  The root element's attribute
    differs in one case: an empty value comes back as [dark]. *)
Theorem theme_survives_reload (w : World) (k : nat) (attr : option string)
    (doc : Document) (protocol host : string) (r : fetch_outcome) :
  theme_controllers (document w) !! k = Some attr →
  OnThemeClick k ∈ installed w →
  is_Some (terminal w) →
  "#terminal" ∈ elements doc →
  control_buttons ⊆ elements doc →
  let name := to_string attr in
  let w' := App.step w (ClickTheme k) in
  let reloaded := exec (App.main r) (boot doc protocol host (localStorage w')) in
  localStorage w' !! "terminal-theme" = Some name
  ∧ data_theme (document w') = Some name
  ∧ data_theme (document reloaded)
    = Some (if String.eqb name "" then "dark" else name)
  ∧ ∀ c, c ∈ ["background"; "foreground"; "cursor"] →
         theme_field c w' = Some (Some (colour name c))
         ∧ theme_field c reloaded = theme_field c w'.
Proof.
  intros Hk Hin Ht Hmount Hdoc name w' reloaded.
  assert (w' = set_localStorage (<["terminal-theme" := name]> (localStorage w))
                 (themed name (set_trace (trace w ++ [PreventDefault])%list w)))
    as Hw' by (by apply theme_click_step).
  assert (localStorage w' = <["terminal-theme" := name]> (localStorage w))
    as Hst by (by rewrite Hw').
  assert (reloaded = app_ready r (boot doc protocol host (localStorage w')))
    as Hre by (unfold reloaded, exec; by rewrite app_main_ready).
  assert (∀ c, c ∈ ["background"; "foreground"; "cursor"] →
               theme_field c w' = Some (Some (colour name c))) as Hfield.
  { intros c Hc. rewrite Hw'.
    rewrite theme_field_stored.
    by apply themed_field. }
  split_and!.
  - rewrite Hst. apply lookup_insert_eq.
  - by rewrite Hw'.
  - rewrite Hre. unfold app_ready.
    change (data_theme (document (synced (themed ?n ?x)))) with (Some n).
    change (localStorage (boot doc protocol host (localStorage w')))
      with (localStorage w').
    rewrite Hst. unfold saved_theme. by rewrite lookup_insert_eq.
  - intros c Hc. split; [by apply Hfield |].
    rewrite (Hfield c Hc), Hre, app_ready_field by done.
    change (localStorage (boot doc protocol host (localStorage w')))
      with (localStorage w').
    by rewrite Hst, colour_saved.
Qed.

Lemma theme_survives_reload_witness :
  let w' := App.step app_open (ClickTheme 2) in
  let reloaded :=
    exec (App.main NetworkError)
      (boot sample_document "https:" "example.org" (localStorage w')) in
  theme_field "background" w' = Some (Some (VString "#0a0a0a"))
  ∧ theme_field "background" reloaded = Some (Some (VString "#0a0a0a")).
Proof.
  assert (theme_controllers (document app_open) !! 2 = Some (Some "cyberpunk"))
    as Hk by (vm_compute; reflexivity).
  assert (OnThemeClick 2 ∈ installed app_open) as Hin
    by (apply (bool_decide_unpack _); vm_compute; exact I).
  assert (is_Some (terminal app_open)) as Ht
    by (apply (bool_decide_unpack _); vm_compute; exact I).
  assert ("#terminal" ∈ elements sample_document) as Hmount
    by (apply (bool_decide_unpack _); vm_compute; exact I).
  assert (control_buttons ⊆ elements sample_document) as Hdoc
    by (apply (bool_decide_unpack _); vm_compute; exact I).
  assert ("background" ∈ ["background"; "foreground"; "cursor"]) as Hc
    by (apply elem_of_cons; by left).
  assert (colour "cyberpunk" "background" = VString "#0a0a0a") as Hcol
    by (vm_compute; reflexivity).
  destruct (theme_survives_reload app_open 2 (Some "cyberpunk") sample_document
              "https:" "example.org" NetworkError Hk Hin Ht Hmount Hdoc)
    as (_ & _ & _ & Hfield).
  destruct (Hfield "background" Hc) as (H1 & H2).
  intros w' reloaded. split.
  - etrans; [exact H1 |]. by rewrite <- Hcol.
  - etrans; [exact H2 |]. etrans; [exact H1 |]. by rewrite <- Hcol.
Defined.

End PreferenceFacts.

(** ** Losing and regaining the connection *)

Module CycleFacts.
Import Js Page JsString Shared Obs Inv Reasoning Track SharedFacts ThemeFacts
  LifecycleFacts ReconnectFacts StartupFacts StatusFacts BootFacts.

(** Read a field of a page given by the events that led to it. *)
Ltac observe :=
  lazy [after_close after_open mark_closed mark_open connecting announced
        greeted retry_scheduled forwarded synced ws_address btn_listeners
        set_terminal set_websocket set_fitAddon set_connected set_shellInfo
        set_sockets set_document set_localStorage set_installed set_timers
        set_trace set_header_title set_shell_info set_badge
        set_reconnect_modal set_reconnect_btn set_data_theme
        terminal websocket fitAddon currentLine connected shellInfo sockets
        document location_protocol location_host localStorage installed
        timers trace elements header_title shell_info badge reconnect_modal
        reconnect_btn data_theme theme_controllers fst snd].

Lemma app_onopen (w : World) (t : Terminal) :
  terminal w = Some t → App.onopen w = (after_open w, Normal tt).
Proof.
  intros Ht.
  unfold App.onopen, App.updateConnectionStatus, App.on_badge, term_clear,
    term_writeln, with_terminal, console_log.
  unfold after_open, badge_for.
  destruct w as [? ? ? ? ? ? ? [? ? ? [bd|] ? ? ? ?] ? ? ? ? ? ?];
    cbn in Ht; subst; unfold_m; unfold_w; rewrite <- !app_assoc; reflexivity.
Qed.

Lemma legacy_onopen (w : World) (t : Terminal) :
  terminal w = Some t → Legacy.onopen w = (greeted w, Normal tt).
Proof.
  intros Ht.
  unfold Legacy.onopen, term_clear, term_writeln, with_terminal, console_log.
  unfold greeted.
  destruct w; cbn in Ht; subst; unfold_m; unfold_w; rewrite <- !app_assoc;
    reflexivity.
Qed.

Lemma connecting_in (s : WebSocket) :
  ws_readyState s = CONNECTING → ws_readyState s ∈ [CONNECTING].
Proof. intros ->. apply elem_of_cons. by left. Qed.

Lemma app_open_step (w : World) (i : nat) (s : WebSocket) (t : Terminal) :
  terminal w = Some t → sockets w !! i = Some s → ws_readyState s = CONNECTING →
  App.step w (App.SocketOpen i) = after_open (mark_open i w).
Proof.
  intros Ht Hs Hc. unfold App.step, exec, App.dispatch.
  rewrite (socket_event_to w i s _ _ _ Hs (connecting_in s Hc)).
  by rewrite (app_onopen _ t).
Qed.

Lemma legacy_open_step (w : World) (i : nat) (s : WebSocket) (t : Terminal) :
  terminal w = Some t → sockets w !! i = Some s → ws_readyState s = CONNECTING →
  Legacy.step w (Legacy.SocketOpen i) = greeted (mark_open i w).
Proof.
  intros Ht Hs Hc. unfold Legacy.step, exec, Legacy.dispatch.
  rewrite (socket_event_to w i s _ _ _ Hs (connecting_in s Hc)).
  by rewrite (legacy_onopen _ t).
Qed.

Lemma legacy_close_step (w : World) (i : nat) (s : WebSocket) (t : Terminal) :
  terminal w = Some t → sockets w !! i = Some s → ws_readyState s ≠ CLOSED →
  Legacy.step w (Legacy.SocketClose i) = retry_scheduled (mark_closed i w).
Proof.
  intros Ht Hs Hopen. pose proof (not_closed s Hopen) as Hin.
  unfold Legacy.step, exec, Legacy.dispatch.
  rewrite (socket_event_to w i s) by done.
  by rewrite (legacy_onclose _ t).
Qed.

Lemma legacy_timer_step (w : World) (k ms : nat) :
  timers w !! k = Some (CbConnect, ms) →
  Legacy.step w (Legacy.TimerFired k)
  = connecting (set_timers (delete k (timers w)) w).
Proof.
  intros Hk. unfold Legacy.step, exec, Legacy.dispatch.
  unfold mbind, M_bind, get, modify. rewrite Hk.
  unfold Legacy.run_callback, Legacy.connectWebSocket.
  by rewrite open_socket_connecting.
Qed.

Lemma lookup_fresh {A : Type} (l : list A) (x : A) (n : nat) :
  n = List.length l → (l ++ [x])%list !! n = Some x.
Proof.
  intros ->. rewrite lookup_app_r by done. by rewrite Nat.sub_diag.
Qed.

Lemma lookup_old {A : Type} (l : list A) (x y : A) (i : nat) :
  l !! i = Some y → (l ++ [x])%list !! i = Some y.
Proof. intros H. by apply lookup_app_l_Some. Qed.

(** The page after close, click on the reconnect button and open of
    the new socket. *)
Lemma app_cycle_state (w : World) (i : nat) (s : WebSocket) (t : Terminal)
    (b : Button) (m : bool) :
  terminal w = Some t →
  reconnect_btn (document w) = Some b →
  reconnect_modal (document w) = Some m →
  sockets w !! i = Some s →
  ws_readyState s ≠ CLOSED →
  App.run w [App.SocketClose i; App.ClickReconnect;
             App.SocketOpen (List.length (sockets w))]
  = after_open
      (mark_open (List.length (sockets w))
         (connecting (announced (after_close (mark_closed i w))))).
Proof.
  intros Ht Hb Hm Hs Hopen. unfold App.run. cbn [foldl].
  rewrite (app_close_step w i s t b m) by done.
  rewrite (click_reconnects_once _ t true) by (observe; done).
  apply (app_open_step _ _
           {| url := ws_address w; ws_readyState := CONNECTING; sent := [] |} t);
    [observe; done | | done].
  observe. apply lookup_fresh. by rewrite length_alter.
Qed.

Lemma input_forwarded (w : World) (i : nat) (s : WebSocket) (t : Terminal)
    (data : string) :
  terminal w = Some t → onData t = true →
  websocket w = Some i → sockets w !! i = Some s → ws_readyState s = OPEN →
  App.step w (App.Input data) = forwarded i data w
  ∧ Legacy.step w (Legacy.Input data) = forwarded i data w.
Proof.
  intros Ht Hd Hw Hs Ho. unfold App.step, Legacy.step, exec. simpl.
  unfold mbind, M_bind, get. rewrite Ht, Hd.
  by rewrite (on_data_open w i s data Hw Hs Ho).
Qed.

Lemma after_open_badge (w : World) :
  badge (document (after_open w)) = badge_for true <$> badge (document w).
Proof. reflexivity. Qed.

(** X9.  A full reconnect in [static/app.js]: when a socket that is
    not yet closed closes, the flag goes off; a click on the reconnect
    button and the opening of the socket it creates bring the page
    back to a connected state: the flag is on, the badge is in its
    connected form, the dialog is closed, [this.websocket] is the new,
    open socket, exactly one connection attempt was made, and the
    next input goes to the new socket.  The widget was told, in this
    order, that the connection closed, that a reconnect is attempted
    and, after a clear, that it is connected. *)
Theorem reconnect_cycle (w : World) (i : nat) (s : WebSocket) (t : Terminal)
    (b : Button) (m : bool) (data : string) :
  terminal w = Some t → onData t = true →
  reconnect_btn (document w) = Some b →
  reconnect_modal (document w) = Some m →
  sockets w !! i = Some s →
  ws_readyState s ≠ CLOSED →
  let n := List.length (sockets w) in
  let w' := App.run w [App.SocketClose i; App.ClickReconnect; App.SocketOpen n] in
  connected (App.step w (App.SocketClose i)) = false
  ∧ connected w' = true
  ∧ websocket w' = Some n
  ∧ ws_readyState <$> sockets w' !! n = Some OPEN
  ∧ ws_readyState <$> sockets w' !! i = Some CLOSED
  ∧ websocket_is_open w' = true
  ∧ (∀ bd, badge (document w') = Some bd → badge_shows true bd)
  ∧ reconnect_modal (document w') = Some false
  ∧ trace w'
    = (trace w ++
         [TermWriteln closed_notice; ConsoleLog "WebSocket closed"; ModalShow;
          ModalClose; TermWriteln "Attempting to reconnect...";
          WsNew n (ws_address w); TermClear;
          TermWriteln "Connected to terminal server";
          ConsoleLog "WebSocket connected"])%list
  ∧ attempts (trace w') = attempts (trace w) + 1
  ∧ App.step w' (App.Input data) = forwarded n data w'.
Proof.
  intros Ht Hd Hb Hm Hs Hopen n w'.
  assert (w' = after_open (mark_open n
                 (connecting (announced (after_close (mark_closed i w))))))
    as Hw' by (by apply (app_cycle_state w i s t b m)).
  assert (i < n)%nat as Hi by (by apply lookup_lt_Some in Hs).
  assert (websocket w' = Some n) as Hws
    by (rewrite Hw'; observe; by rewrite length_alter).
  assert (sockets w'
          = alter (set_readyState OPEN) n
              (alter (set_readyState CLOSED) i (sockets w)
                 ++ [{| url := ws_address w; ws_readyState := CONNECTING;
                        sent := [] |}])%list) as Hsocks
    by (rewrite Hw'; observe; reflexivity).
  assert (sockets w' !! n
          = Some {| url := ws_address w; ws_readyState := OPEN; sent := [] |})
    as Hn.
  { rewrite Hsocks, list_lookup_alter_eq.
    rewrite (lookup_fresh _ _ n); [reflexivity |].
    rewrite length_alter. reflexivity. }
  assert (sockets w' !! i = Some (set_readyState CLOSED s)) as Hold.
  { rewrite Hsocks, list_lookup_alter_ne by lia.
    apply lookup_old. by rewrite list_lookup_alter_eq, Hs. }
  assert (trace w'
    = (trace w ++
         [TermWriteln closed_notice; ConsoleLog "WebSocket closed"; ModalShow;
          ModalClose; TermWriteln "Attempting to reconnect...";
          WsNew n (ws_address w); TermClear;
          TermWriteln "Connected to terminal server";
          ConsoleLog "WebSocket connected"])%list) as Htr.
  { rewrite Hw'. observe. rewrite length_alter, <- !app_assoc. reflexivity. }
  split_and!.
  - rewrite (app_close_step w i s t b m) by done. observe. reflexivity.
  - rewrite Hw'. observe. reflexivity.
  - exact Hws.
  - by rewrite Hn.
  - by rewrite Hold.
  - unfold websocket_is_open. by rewrite Hws, Hn.
  - intros bd. rewrite Hw', after_open_badge.
    destruct (badge (document _)) as [bd0|]; [|done].
    intros [= <-]. exact (badge_for_shows true bd0).
  - rewrite Hw'. observe. reflexivity.
  - exact Htr.
  - rewrite Htr, attempts_app. reflexivity.
  - refine (proj1 (input_forwarded w' n _ t data _ Hd Hws Hn eq_refl)).
    rewrite Hw'. observe. exact Ht.
Qed.

Lemma reconnect_cycle_witness :
  connected (App.run app_open
               [App.SocketClose 0; App.ClickReconnect; App.SocketOpen 1]) = true
  ∧ websocket_is_open (App.run app_open
                         [App.SocketClose 0; App.ClickReconnect; App.SocketOpen 1])
    = true.
Proof.
  assert (∃ t, terminal app_open = Some t ∧ onData t = true) as (t & Ht & Hd)
    by (eexists; split; vm_compute; reflexivity).
  assert (∃ b, reconnect_btn (document app_open) = Some b) as (b & Hb)
    by (eexists; vm_compute; reflexivity).
  assert (reconnect_modal (document app_open) = Some false) as Hm
    by (vm_compute; reflexivity).
  assert (∃ s, sockets app_open !! 0 = Some s ∧ ws_readyState s ≠ CLOSED)
    as (s & Hs & Hopen)
    by (eexists; split; [vm_compute; reflexivity | vm_compute; discriminate]).
  assert (List.length (sockets app_open) = 1) as Hlen by (vm_compute; reflexivity).
  destruct (reconnect_cycle app_open 0 s t b false "ls" Ht Hd Hb Hm Hs Hopen)
    as (_ & Hc & _ & _ & _ & Ho & _).
  rewrite Hlen in Hc, Ho. split; [exact Hc | exact Ho].
Defined.

Lemma legacy_cycle_state (w : World) (i : nat) (s : WebSocket) (t : Terminal) :
  terminal w = Some t →
  sockets w !! i = Some s →
  ws_readyState s ≠ CLOSED →
  Legacy.run w [Legacy.SocketClose i; Legacy.TimerFired (List.length (timers w));
                Legacy.SocketOpen (List.length (sockets w))]
  = greeted
      (mark_open (List.length (sockets w))
         (connecting
            (set_timers (timers w) (retry_scheduled (mark_closed i w))))).
Proof.
  intros Ht Hs Hopen. unfold Legacy.run. cbn [foldl].
  rewrite (legacy_close_step w i s t) by done.
  rewrite (legacy_timer_step _ _ 3000)
    by (observe; by apply lookup_fresh).
  assert (delete (List.length (timers w))
            (timers (retry_scheduled (mark_closed i w))) = timers w) as ->.
  { change (timers (retry_scheduled (mark_closed i w)))
      with (timers w ++ [(CbConnect, 3000)])%list.
    rewrite (delete_middle (timers w) [] (CbConnect, 3000)).
    apply app_nil_r. }
  apply (legacy_open_step _ _
           {| url := ws_address w; ws_readyState := CONNECTING; sent := [] |} t);
    [observe; done | | done].
  observe. apply lookup_fresh. by rewrite length_alter.
Qed.

(** X10.  The same cycle in the older copy, without the user: when a
    socket that is not yet closed closes, a retry timer is set and
    nothing else happens; when that timer fires a new socket is
    created, and once it opens [this.websocket] is the new, open
    socket and the next input goes to it.  One connection attempt was
    made, the timer is gone and the document was not touched. *)
Theorem legacy_retry_cycle (w : World) (i : nat) (s : WebSocket) (t : Terminal)
    (data : string) :
  terminal w = Some t → onData t = true →
  sockets w !! i = Some s →
  ws_readyState s ≠ CLOSED →
  let n := List.length (sockets w) in
  let k := List.length (timers w) in
  let w1 := Legacy.step w (Legacy.SocketClose i) in
  let w' := Legacy.run w [Legacy.SocketClose i; Legacy.TimerFired k;
                          Legacy.SocketOpen n] in
  timers w1 = (timers w ++ [(CbConnect, 3000)])%list
  ∧ attempts (trace w1) = attempts (trace w)
  ∧ websocket w1 = websocket w
  ∧ timers w' = timers w
  ∧ websocket w' = Some n
  ∧ ws_readyState <$> sockets w' !! n = Some OPEN
  ∧ ws_readyState <$> sockets w' !! i = Some CLOSED
  ∧ websocket_is_open w' = true
  ∧ document w' = document w
  ∧ trace w'
    = (trace w ++
         [TermWriteln retry_notice; ConsoleLog "WebSocket closed";
          SetTimeout CbConnect 3000; WsNew n (ws_address w); TermClear;
          TermWriteln "Connected to terminal server";
          ConsoleLog "WebSocket connected"])%list
  ∧ attempts (trace w') = attempts (trace w) + 1
  ∧ Legacy.step w' (Legacy.Input data) = forwarded n data w'.
Proof.
  intros Ht Hd Hs Hopen n k w1 w'.
  assert (w1 = retry_scheduled (mark_closed i w)) as Hw1
    by (by apply (legacy_close_step w i s t)).
  assert (w' = greeted (mark_open n
                 (connecting (set_timers (timers w)
                    (retry_scheduled (mark_closed i w))))))
    as Hw' by (by apply (legacy_cycle_state w i s t)).
  assert (i < n)%nat as Hi by (by apply lookup_lt_Some in Hs).
  assert (websocket w' = Some n) as Hws
    by (rewrite Hw'; observe; by rewrite length_alter).
  assert (sockets w'
          = alter (set_readyState OPEN) n
              (alter (set_readyState CLOSED) i (sockets w)
                 ++ [{| url := ws_address w; ws_readyState := CONNECTING;
                        sent := [] |}])%list) as Hsocks
    by (rewrite Hw'; observe; reflexivity).
  assert (sockets w' !! n
          = Some {| url := ws_address w; ws_readyState := OPEN; sent := [] |})
    as Hn.
  { rewrite Hsocks, list_lookup_alter_eq.
    rewrite (lookup_fresh _ _ n); [reflexivity |].
    rewrite length_alter. reflexivity. }
  assert (sockets w' !! i = Some (set_readyState CLOSED s)) as Hold.
  { rewrite Hsocks, list_lookup_alter_ne by lia.
    apply lookup_old. by rewrite list_lookup_alter_eq, Hs. }
  assert (trace w'
    = (trace w ++
         [TermWriteln retry_notice; ConsoleLog "WebSocket closed";
          SetTimeout CbConnect 3000; WsNew n (ws_address w); TermClear;
          TermWriteln "Connected to terminal server";
          ConsoleLog "WebSocket connected"])%list) as Htr.
  { rewrite Hw'. observe. rewrite length_alter, <- !app_assoc. reflexivity. }
  split_and!.
  - rewrite Hw1. observe. reflexivity.
  - rewrite Hw1. observe. rewrite attempts_app. unfold attempts. simpl. lia.
  - rewrite Hw1. observe. reflexivity.
  - rewrite Hw'. observe. reflexivity.
  - exact Hws.
  - by rewrite Hn.
  - by rewrite Hold.
  - unfold websocket_is_open. by rewrite Hws, Hn.
  - rewrite Hw'. observe. reflexivity.
  - exact Htr.
  - rewrite Htr, attempts_app. reflexivity.
  - refine (proj2 (input_forwarded w' n _ t data _ Hd Hws Hn eq_refl)).
    rewrite Hw'. observe. exact Ht.
Qed.

Lemma legacy_retry_cycle_witness :
  websocket_is_open
    (Legacy.run legacy_started
       [Legacy.SocketClose 0; Legacy.TimerFired 2; Legacy.SocketOpen 1]) = true
  ∧ timers (Legacy.run legacy_started
              [Legacy.SocketClose 0; Legacy.TimerFired 2; Legacy.SocketOpen 1])
    = timers legacy_started.
Proof.
  assert (∃ t, terminal legacy_started = Some t ∧ onData t = true)
    as (t & Ht & Hd) by (eexists; split; vm_compute; reflexivity).
  assert (∃ s, sockets legacy_started !! 0 = Some s ∧ ws_readyState s ≠ CLOSED)
    as (s & Hs & Hopen)
    by (eexists; split; [vm_compute; reflexivity | vm_compute; discriminate]).
  assert (List.length (sockets legacy_started) = 1) as Hlen
    by (vm_compute; reflexivity).
  assert (List.length (timers legacy_started) = 2) as Hk
    by (vm_compute; reflexivity).
  destruct (legacy_retry_cycle legacy_started 0 s t "ls" Ht Hd Hs Hopen)
    as (_ & _ & _ & Htm & _ & _ & _ & Ho & _).
  rewrite Hlen, Hk in Htm, Ho. split; [exact Ho | exact Htm].
Defined.

End CycleFacts.

(** ** Leaving the page *)

Module UnloadFacts.
Import Js Page JsString Shared Obs Inv Reasoning Track SharedFacts ThemeFacts
  LifecycleFacts ReconnectFacts StartupFacts StatusFacts BootFacts CycleFacts.

Lemma on_beforeunload_unloaded (w : World) :
  on_beforeunload w = (unloaded w, Normal tt).
Proof.
  unfold on_beforeunload, websocket_close, unloaded, closing, close_called.
  destruct w as [? [i|] ? ? ? ? socks ? ? ? ? ? ? ?]; unfold_m; unfold_w;
    [|reflexivity].
  destruct (socks !! i) as [[u [] snt]|]; reflexivity.
Qed.

Lemma unload_step (w : World) :
  OnBeforeUnload ∈ installed w →
  App.step w App.BeforeUnload = unloaded w
  ∧ Legacy.step w Legacy.BeforeUnload = unloaded w.
Proof.
  intros H. unfold App.step, Legacy.step, exec. simpl.
  unfold when_installed, mbind, M_bind, get. rewrite bool_decide_true by done.
  by rewrite on_beforeunload_unloaded.
Qed.

Lemma unloaded_frame (w : World) :
  websocket (unloaded w) = websocket w
  ∧ installed (unloaded w) = installed w
  ∧ unloaded w = set_trace (trace (unloaded w)) (set_sockets (sockets (unloaded w)) w).
Proof.
  unfold unloaded, closing, close_called.
  destruct w as [? [i|] ? ? ? ? socks ? ? ? ? ? ? ?]; unfold_w; [|done].
  destruct (socks !! i) as [[u [] snt]|]; done.
Qed.

Lemma unloaded_trace (w : World) (i : nat) :
  websocket w = Some i → trace (unloaded w) = (trace w ++ [WsClose i])%list.
Proof.
  intros Hw. unfold unloaded. rewrite Hw.
  destruct (sockets w !! i) as [[u [] snt]|]; reflexivity.
Qed.

(** The socket the field names after the listener ran: as it was, or
    closing if it was connecting or open. *)
Lemma unloaded_current (w : World) (i : nat) :
  websocket w = Some i →
  sockets (unloaded w) !! i
  = (λ s, match ws_readyState s with
          | CONNECTING | OPEN => set_readyState CLOSING s
          | _ => s
          end) <$> sockets w !! i.
Proof.
  intros Hw. unfold unloaded. rewrite Hw.
  destruct (sockets w !! i) as [[u st snt]|] eqn:Hs;
    cbn [fmap option_fmap option_map ws_readyState].
  - destruct st; cbn [closing close_called sockets set_sockets set_trace];
      rewrite ?list_lookup_alter_eq, Hs; reflexivity.
  - cbn [close_called sockets set_trace]. by rewrite Hs.
Qed.

Lemma unloaded_not_open (w : World) : websocket_is_open (unloaded w) = false.
Proof.
  unfold websocket_is_open. rewrite (proj1 (unloaded_frame w)).
  destruct (websocket w) as [i|] eqn:Hw; [|done].
  rewrite (unloaded_current w i Hw).
  by destruct (sockets w !! i) as [[u [] snt]|].
Qed.

Lemma unloaded_others (w : World) (j : nat) :
  websocket w ≠ Some j → sockets (unloaded w) !! j = sockets w !! j.
Proof.
  intros Hj. unfold unloaded. destruct (websocket w) as [i|] eqn:Hw; [|done].
  destruct (sockets w !! i) as [[u [] snt]|] eqn:Hs; try done;
    cbn [fmap option_fmap option_map ws_readyState closing sockets set_sockets
         set_trace];
    apply list_lookup_alter_ne; congruence.
Qed.

Lemma unloaded_settled (w : World) (i : nat) :
  websocket w = Some i →
  (∀ s, sockets w !! i = Some s →
        ws_readyState s = CLOSING ∨ ws_readyState s = CLOSED) →
  unloaded w = close_called i w.
Proof.
  intros Hw Hst. unfold unloaded. rewrite Hw.
  destruct (sockets w !! i) as [[u st snt]|]; [|done].
  by destruct (Hst _ eq_refl) as [Hs | Hs]; simpl in Hs; subst st.
Qed.

(** A second call finds the socket closing or closed. *)
Lemma unloaded_twice (w : World) (i : nat) :
  websocket w = Some i → unloaded (unloaded w) = close_called i (unloaded w).
Proof.
  intros Hw. apply unloaded_settled.
  - by rewrite (proj1 (unloaded_frame w)).
  - intros s. rewrite (unloaded_current w i Hw).
    destruct (sockets w !! i) as [[u [] snt]|]; intros [= <-]; simpl; tauto.
Qed.

(** X11.  Leaving the page.  In both copies the [beforeunload]
    listener calls [close()] once on the socket [this.websocket]
    names, whatever its state, and does nothing when the field is
    [null].  A connecting or open socket becomes closing, a closing or
    closed one stays as it is; nothing but that socket and the record
    of the call changes.  Afterwards the controller sends nothing more
    (input and Ctrl+C are dropped), a second [beforeunload] repeats the
    call and changes no socket, and every other socket, such as one
    left open by an earlier reconnect, is as it was. *)
Theorem unload_closes_current_socket (w : World) (data : string) :
  OnBeforeUnload ∈ installed w →
  let w' := App.step w App.BeforeUnload in
  Legacy.step w Legacy.BeforeUnload = w'
  ∧ websocket w' = websocket w
  ∧ websocket_is_open w' = false
  ∧ (∀ i, websocket w = Some i → trace w' = (trace w ++ [WsClose i])%list)
  ∧ (websocket w = None → w' = w)
  ∧ (∀ i s, websocket w = Some i → sockets w !! i = Some s →
            ws_readyState s = CONNECTING ∨ ws_readyState s = OPEN →
            sockets w' !! i = Some (set_readyState CLOSING s))
  ∧ (∀ i s, websocket w = Some i → sockets w !! i = Some s →
            ws_readyState s = CLOSING ∨ ws_readyState s = CLOSED →
            sockets w' = sockets w)
  ∧ (∀ j, websocket w ≠ Some j → sockets w' !! j = sockets w !! j)
  ∧ w' = set_trace (trace w') (set_sockets (sockets w') w)
  ∧ App.step w' (App.Input data) = w'
  ∧ sendKeyboardInterrupt w' = (w', Normal tt)
  ∧ sockets (App.step w' App.BeforeUnload) = sockets w'
  ∧ (∀ i, websocket w = Some i →
          trace (App.step w' App.BeforeUnload) = (trace w' ++ [WsClose i])%list).
Proof.
  intros Hin w'. destruct (unload_step w Hin) as (Ha & Hl).
  assert (w' = unloaded w) as -> by exact Ha. clear Ha.
  pose proof (unloaded_frame w) as (Hws & Hinst & Honly).
  pose proof (unloaded_not_open w) as Hno.
  assert (OnBeforeUnload ∈ installed (unloaded w)) as Hin'
    by (by rewrite Hinst).
  destruct (unload_step (unloaded w) Hin') as (Hagain & _).
  split_and!.
  - exact Hl.
  - exact Hws.
  - exact Hno.
  - apply unloaded_trace.
  - intros Hi. unfold unloaded. by rewrite Hi.
  - intros i s Hi Hs Hst. rewrite (unloaded_current w i Hi), Hs.
    cbn [fmap option_fmap option_map]. by destruct Hst as [-> | ->].
  - intros i s Hi Hs Hst. rewrite (unloaded_settled w i Hi); [done |].
    intros s' Hs'. rewrite Hs in Hs'. by injection Hs' as <-.
  - apply unloaded_others.
  - exact Honly.
  - by apply input_dropped.
  - by apply interrupt_not_open.
  - rewrite Hagain. destruct (websocket w) as [i|] eqn:Hi.
    + by rewrite (unloaded_twice w i Hi).
    + unfold unloaded at 1. rewrite Hws. reflexivity.
  - intros i Hi. rewrite Hagain. by rewrite (unloaded_twice w i Hi).
Qed.

Lemma unload_closes_current_socket_witness :
  OnBeforeUnload ∈ installed app_open
  ∧ websocket_is_open app_open = true
  ∧ websocket_is_open (App.step app_open App.BeforeUnload) = false.
Proof.
  assert (OnBeforeUnload ∈ installed app_open) as Hin
    by (apply (bool_decide_unpack _); vm_compute; exact I).
  assert (websocket_is_open app_open = true) as Ho by (vm_compute; reflexivity).
  destruct (unload_closes_current_socket app_open "ls" Hin) as (_ & _ & Hno & _).
  split_and!; [exact Hin | exact Ho | exact Hno].
Defined.

End UnloadFacts.

(** ** What the widget displays *)

Module DisplayFacts.
Import Js Page JsString Shared Obs Inv Reasoning Track JsStringFacts SharedFacts.

Lemma written_app (tr1 tr2 : list effect) :
  written (tr1 ++ tr2) = written tr1 ++ written tr2.
Proof.
  induction tr1 as [|e tr1 IH]; [done |].
  destruct e; simpl; try exact IH. by rewrite IH, JsStringFacts.app_assoc.
Qed.

Lemma replace_global_app (s t : string) :
  replace_global LF CRLF (s ++ t)
  = replace_global LF CRLF s ++ replace_global LF CRLF t.
Proof. rewrite !replace_global_rewrite. apply rewrite_each_app. Qed.

Lemma receiving_in (s : WebSocket) :
  ws_readyState s = OPEN ∨ ws_readyState s = CLOSING →
  ws_readyState s ∈ [OPEN; CLOSING].
Proof. rewrite !elem_of_cons. tauto. Qed.

Lemma message_step (w : World) (i : nat) (s : WebSocket) (t : Terminal)
    (chunk : string) :
  terminal w = Some t → sockets w !! i = Some s →
  ws_readyState s = OPEN ∨ ws_readyState s = CLOSING →
  App.step w (App.SocketMessage i chunk)
  = set_trace (trace w ++ [TermWrite (replace_global LF CRLF chunk)])%list w
  ∧ Legacy.step w (Legacy.SocketMessage i chunk)
    = set_trace (trace w ++ [TermWrite (replace_global LF CRLF chunk)])%list w.
Proof.
  intros Ht Hs Hst. unfold App.step, Legacy.step, exec. simpl.
  rewrite (socket_event_runs w i s _ _ Hs (receiving_in s Hst)).
  by rewrite (onmessage_writes w t chunk Ht), replace_global_rewrite.
Qed.

Lemma messages_run (chunks : list string) :
  ∀ (w : World) (i : nat) (s : WebSocket) (t : Terminal),
    terminal w = Some t → sockets w !! i = Some s →
    ws_readyState s = OPEN ∨ ws_readyState s = CLOSING →
    App.run w (App.SocketMessage i <$> chunks)
    = set_trace
        (trace w ++ ((λ c, TermWrite (replace_global LF CRLF c)) <$> chunks))%list w
    ∧ Legacy.run w (Legacy.SocketMessage i <$> chunks)
      = set_trace
          (trace w ++ ((λ c, TermWrite (replace_global LF CRLF c)) <$> chunks))%list w.
Proof.
  induction chunks as [|c chunks IH]; intros w i s t Ht Hs Hst.
  - unfold App.run, Legacy.run. simpl. rewrite List.app_nil_r. by destruct w.
  - destruct (message_step w i s t c Ht Hs Hst) as (Ha & Hl).
    unfold App.run, Legacy.run in *. rewrite !fmap_cons. cbn [foldl].
    rewrite Ha, Hl.
    destruct (IH (set_trace (trace w ++ [TermWrite (replace_global LF CRLF c)])%list w)
                i s t Ht Hs Hst) as (-> & ->).
    cbn [trace set_trace]. rewrite <- List.app_assoc. by destruct w.
Qed.

Lemma written_chunks (chunks : list string) :
  written ((λ c, TermWrite (replace_global LF CRLF c)) <$> chunks)
  = replace_global LF CRLF (stream chunks).
Proof.
  induction chunks as [|c chunks IH]; [by vm_compute |].
  rewrite fmap_cons. simpl. by rewrite IH, replace_global_app.
Qed.

(** X12.  How the output stream is cut into messages does not matter
    for what is displayed.  While the widget exists, messages arriving
    on a socket that is open (or closing) change nothing but the
    widget: each chunk is written in arrival order, and the text
    written in total is the line-feed rewriting of the concatenated
    chunks, so a chunk boundary at any place, also right before a line
    feed, gives the same display as one message. *)
Theorem display_ignores_chunking (w : World) (i : nat) (s : WebSocket)
    (t : Terminal) (chunks : list string) :
  terminal w = Some t → sockets w !! i = Some s →
  ws_readyState s = OPEN ∨ ws_readyState s = CLOSING →
  let w' := App.run w (App.SocketMessage i <$> chunks) in
  Legacy.run w (Legacy.SocketMessage i <$> chunks) = w'
  ∧ w' = set_trace (trace w') w
  ∧ trace w'
    = (trace w ++ ((λ c, TermWrite (replace_global LF CRLF c)) <$> chunks))%list
  ∧ written (trace w')
    = written (trace w) ++ replace_global LF CRLF (stream chunks)
  ∧ written (trace w')
    = written (trace (App.step w (App.SocketMessage i (stream chunks)))).
Proof.
  intros Ht Hs Hst w'.
  destruct (messages_run chunks w i s t Ht Hs Hst) as (Ha & Hl).
  destruct (message_step w i s t (stream chunks) Ht Hs Hst) as (Hone & _).
  assert (w' = set_trace
                 (trace w ++ ((λ c, TermWrite (replace_global LF CRLF c)) <$> chunks))%list
                 w) as -> by exact Ha.
  rewrite Hone. cbn [trace set_trace].
  split_and!; [exact Hl | reflexivity | reflexivity | |].
  - by rewrite written_app, written_chunks.
  - rewrite !written_app, written_chunks. simpl. by rewrite JsStringFacts.app_nil_r.
Qed.

Lemma display_ignores_chunking_witness :
  written (trace (App.run app_open
                    [App.SocketMessage 0 "a"; App.SocketMessage 0 (String LF "b")]))
  = written (trace (App.step app_open (App.SocketMessage 0 ("a" ++ String LF "b")))).
Proof.
  assert (∃ t, terminal app_open = Some t) as (t & Ht)
    by (eexists; vm_compute; reflexivity).
  assert (∃ s, sockets app_open !! 0 = Some s
               ∧ (ws_readyState s = OPEN ∨ ws_readyState s = CLOSING))
    as (s & Hs & Hst)
    by (eexists; split; [vm_compute; reflexivity | left; vm_compute; reflexivity]).
  destruct (display_ignores_chunking app_open 0 s t ["a"; String LF "b"] Ht Hs Hst)
    as (_ & _ & _ & _ & H).
  exact H.
Defined.

End DisplayFacts.

(** ** Pages without the reconnect dialog *)

Module DialogFacts.
Import Js Page JsString Shared Obs Inv Reasoning Track SharedFacts ThemeFacts
  LifecycleFacts ReconnectFacts SocketFacts ConnectionFacts.
Import App.

Lemma reconnect_click_dead (w : World) :
  reconnect_modal (document w) = None →
  isolated reconnect_click w = (w, Normal tt).
Proof.
  intros Hm. unfold isolated, reconnect_click, on_modal. unfold_m.
  by rewrite Hm.
Qed.

Lemma run_listeners_dead (ls : list listener) (w : World) :
  reconnect_modal (document w) = None → run_listeners ls w = (w, Normal tt).
Proof.
  intros Hm. induction ls as [|[] ls IH]; [done |].
  cbn [run_listeners run_listener].
  by rewrite (bind_normal _ _ w w tt (reconnect_click_dead w Hm)).
Qed.

Lemma click_dead (w : World) : no_dialog w → App.step w ClickReconnect = w.
Proof.
  intros Hno. unfold no_dialog in Hno.
  unfold App.step, exec, dispatch, mbind, M_bind, get.
  destruct (reconnect_btn (document w)) as [b|] eqn:Hb; [|done].
  destruct Hno as [Hno | Hm]; [done |].
  by rewrite run_listeners_dead.
Qed.

Ltac dialog_fin :=
  unfold keeps, no_dialog; cbn;
  let H := fresh in
  intros [H | H]; first [ congruence | by left | by right ].

Lemma updateTerminalTheme_no_dialog (name : string) :
  stable (keeps no_dialog) (updateTerminalTheme name).
Proof.
  intros w. destruct (updateTerminalTheme_only_terminal w name) as (o & Heq & _).
  unfold exec in Heq. rewrite Heq. intros H. exact H.
Qed.

Lemma showReconnectDialog_no_dialog :
  stable (keeps no_dialog) showReconnectDialog.
Proof.
  intros w [Hb | Hm];
    unfold showReconnectDialog, put_reconnect_btn, on_modal; unfold_m.
  - rewrite Hb. by left.
  - destruct (reconnect_btn (document w)) as [b|]; [|by right].
    cbn. rewrite Hm. by right.
Qed.

Lemma onclose_no_dialog : stable (keeps no_dialog) onclose.
Proof.
  pose proof showReconnectDialog_no_dialog as Hdlg.
  unfold onclose.
  track ltac:(call showReconnectDialog Hdlg) ltac:(dialog_fin).
Qed.

Lemma dispatch_no_dialog (e : event) :
  e ≠ ClickReconnect → stable (keeps no_dialog) (dispatch e).
Proof.
  pose proof updateTerminalTheme_no_dialog as Hupd.
  intros He. destruct e; simpl; try done.
  4: { apply socket_event_keeps. intros w s HP _ _.
       apply onclose_no_dialog. by destruct HP; [left | right]. }
  all: track ltac:(call updateTerminalTheme Hupd) ltac:(dialog_fin).
Qed.

Lemma step_no_dialog (w : World) (e : event) :
  no_dialog w → no_dialog (App.step w e) ∧ counts (App.step w e) = counts w.
Proof.
  intros Hno.
  assert (e = ClickReconnect ∨ e ≠ ClickReconnect) as [-> | He]
    by (destruct e; (by left) || (by right)).
  - by rewrite click_dead.
  - split; [by apply dispatch_no_dialog | by apply app_step_counts].
Qed.

Lemma run_no_dialog (es : list event) (w : World) :
  no_dialog w → no_dialog (App.run w es) ∧ counts (App.run w es) = counts w.
Proof.
  revert w. induction es as [|e es IH]; intros w Hno; [done |].
  destruct (step_no_dialog w e Hno) as (Hno' & Hc).
  unfold App.run in *. cbn [foldl].
  destruct (IH _ Hno') as (Hno'' & Hc'). split; [done | by rewrite Hc'].
Qed.

(** X13.  On a page without the reconnect button or without the
    dialog element, [static/app.js] never connects again: a close
    still ends in [showReconnectDialog], which throws, and a click on
    the button, if there is one, throws in [modal.close()] before
    [connectWebSocket] is reached.  So over any events no socket is
    created and no connection attempt is made. *)
Theorem no_dialog_no_reconnect (w : World) (es : list event) :
  reconnect_btn (document w) = None ∨ reconnect_modal (document w) = None →
  let w' := App.run w es in
  attempts (trace w') = attempts (trace w)
  ∧ List.length (sockets w') = List.length (sockets w)
  ∧ App.step w' ClickReconnect = w'
  ∧ (reconnect_btn (document w') = None ∨ reconnect_modal (document w') = None).
Proof.
  intros Hno w'. destruct (run_no_dialog es w Hno) as (Hno' & Hc).
  unfold counts in Hc. injection Hc as Ha Hs.
  split_and!; [exact Ha | exact Hs | by apply click_dead | exact Hno'].
Qed.

Lemma no_dialog_no_reconnect_witness :
  let w := set_document (set_reconnect_modal None (document app_open)) app_open in
  attempts (trace (App.run w [SocketClose 0; ClickReconnect; ClickReconnect]))
  = attempts (trace w).
Proof.
  assert (reconnect_btn (document
            (set_document (set_reconnect_modal None (document app_open)) app_open))
          = None
          ∨ reconnect_modal (document
              (set_document (set_reconnect_modal None (document app_open)) app_open))
            = None) as Hno by (right; vm_compute; reflexivity).
  destruct (no_dialog_no_reconnect _ [SocketClose 0; ClickReconnect; ClickReconnect]
              Hno) as (Ha & _).
  exact Ha.
Defined.

End DialogFacts.

(** ** Window and controls *)

Module ControlsFacts.
Import Js Page JsString Shared Obs Inv Reasoning Track SharedFacts BootFacts
  CycleFacts.

Lemma installed_runs (h : handler) (body : M unit) (w : World) :
  h ∈ installed w → when_installed h body w = body w.
Proof.
  intros H. unfold when_installed, mbind, M_bind, get.
  by rewrite bool_decide_true.
Qed.

Lemma app_timer_step (w : World) (k ms : nat) (cb : callback) :
  timers w !! k = Some (cb, ms) →
  App.step w (App.TimerFired k)
  = exec (App.run_callback cb) (set_timers (delete k (timers w)) w).
Proof.
  intros Hk. unfold App.step, exec, App.dispatch.
  unfold mbind, M_bind, get, modify. by rewrite Hk.
Qed.

Lemma legacy_timer_fired (w : World) (k ms : nat) (cb : callback) :
  timers w !! k = Some (cb, ms) →
  Legacy.step w (Legacy.TimerFired k)
  = exec (Legacy.run_callback cb) (set_timers (delete k (timers w)) w).
Proof.
  intros Hk. unfold Legacy.step, exec, Legacy.dispatch.
  unfold mbind, M_bind, get, modify. by rewrite Hk.
Qed.

Lemma delete_fresh {A : Type} (l : list A) (x : A) :
  delete (List.length l) (l ++ [x])%list = l.
Proof. rewrite (delete_middle l [] x). apply List.app_nil_r. Qed.

(** X14.  Resizing the window refits the widget once, a tenth of a
    second later: in both copies the [resize] listener only sets a
    timer, and only while the fit add-on exists; when the timer fires
    [fit()] is called and the timer is gone, so the page is as before
    but for the two calls. *)
Theorem resize_refits_later (w : World) :
  OnResize ∈ installed w →
  let k := List.length (timers w) in
  let w1 := App.step w App.Resize in
  Legacy.step w Legacy.Resize = w1
  ∧ (fitAddon w = false → w1 = w)
  ∧ (fitAddon w = true →
     timers w1 = (timers w ++ [(CbFit, 100)])%list
     ∧ trace w1 = (trace w ++ [SetTimeout CbFit 100])%list
     ∧ App.step w1 (App.TimerFired k)
       = set_trace (trace w ++ [SetTimeout CbFit 100; Fit])%list w
     ∧ Legacy.step w1 (Legacy.TimerFired k)
       = set_trace (trace w ++ [SetTimeout CbFit 100; Fit])%list w).
Proof.
  intros Hin k w1.
  assert (w1 = exec on_resize w) as ->
    by (unfold w1, App.step, exec; simpl; by rewrite installed_runs).
  split_and!.
  - unfold Legacy.step, exec. simpl. by rewrite installed_runs.
  - intros Hf. unfold on_resize, exec. unfold_m. by rewrite Hf.
  - intros Hf.
    assert (exec on_resize w
            = set_trace (trace w ++ [SetTimeout CbFit 100])%list
                (set_timers (timers w ++ [(CbFit, 100)])%list w)) as ->
      by (unfold on_resize, setTimeout, exec; unfold_m; by rewrite Hf).
    split_and!; [reflexivity | reflexivity | |].
    + rewrite (app_timer_step _ k 100 CbFit) by (by apply lookup_fresh).
      cbn [timers set_timers set_trace]. unfold k. rewrite delete_fresh.
      unfold App.run_callback, fit, exec. unfold_m. cbn [fitAddon set_timers set_trace].
      rewrite Hf. cbn. rewrite <- List.app_assoc. by destruct w.
    + rewrite (legacy_timer_fired _ k 100 CbFit) by (by apply lookup_fresh).
      cbn [timers set_timers set_trace]. unfold k. rewrite delete_fresh.
      unfold Legacy.run_callback, fit, exec. unfold_m. cbn [fitAddon set_timers set_trace].
      rewrite Hf. cbn. rewrite <- List.app_assoc. by destruct w.
Qed.

Lemma resize_refits_later_witness :
  OnResize ∈ installed app_open
  ∧ App.run app_open [App.Resize; App.TimerFired 2]
    = set_trace (trace app_open ++ [SetTimeout CbFit 100; Fit])%list app_open.
Proof.
  assert (OnResize ∈ installed app_open) as Hin
    by (apply (bool_decide_unpack _); vm_compute; exact I).
  assert (fitAddon app_open = true) as Hf by (vm_compute; reflexivity).
  assert (List.length (timers app_open) = 2) as Hk by (vm_compute; reflexivity).
  destruct (resize_refits_later app_open Hin) as (_ & _ & H).
  destruct (H Hf) as (_ & _ & Ha & _). rewrite Hk in Ha.
  split; [exact Hin | exact Ha].
Defined.

(** X15.  The window controls.  In [static/app.js] the minimize
    control is a short animation: the container is scaled down, and
    the timer set by the click scales it back, leaving the page as it
    was; on a page without the container the click throws and changes
    nothing.  In the older copy the control scales the body down for
    good, and it is the maximize control that scales it back.  The
    close control closes the window only after the user confirmed,
    and does not itself close the socket. *)
Theorem window_controls (w : World) :
  OnMinimizeClick ∈ installed w →
  OnMaximizeClick ∈ installed w →
  OnCloseClick ∈ installed w →
  let k := List.length (timers w) in
  (".container" ∈ elements (document w) →
   App.run w [App.ClickMinimize; App.TimerFired k]
   = set_trace
       (trace w ++
          [SetStyle ".container" "transform" "scale(0.9)";
           SetStyle ".container" "transition" "transform 0.2s ease";
           SetTimeout CbRestoreScale 200;
           SetStyle ".container" "transform" "scale(1)"])%list w)
  ∧ ((".container" ∉ elements (document w)) → App.step w App.ClickMinimize = w)
  ∧ Legacy.run w [Legacy.ClickMinimize; Legacy.ClickMaximize]
    = set_trace
        (trace w ++
           [SetStyle "body" "transform" "scale(0.8)";
            SetStyle "body" "transformOrigin" "top left";
            SetStyle "body" "transform" "scale(1)";
            SetStyle "body" "transformOrigin" "top left"])%list w
  ∧ App.step w App.ClickMaximize = set_trace (trace w ++ [RequestFullscreen])%list w
  ∧ App.step w (App.ClickClose false) = w
  ∧ Legacy.step w (Legacy.ClickClose false) = w
  ∧ App.step w (App.ClickClose true) = set_trace (trace w ++ [WindowClose])%list w
  ∧ Legacy.step w (Legacy.ClickClose true)
    = set_trace (trace w ++ [WindowClose])%list w.
Proof.
  intros Hmin Hmax Hclose k. split_and!.
  - intros Hc. unfold App.run. cbn [foldl].
    assert (App.step w App.ClickMinimize
            = set_trace
                (trace w ++
                   [SetStyle ".container" "transform" "scale(0.9)";
                    SetStyle ".container" "transition" "transform 0.2s ease";
                    SetTimeout CbRestoreScale 200])%list
                (set_timers (timers w ++ [(CbRestoreScale, 200)])%list w)) as ->.
    { unfold App.step, exec. simpl. rewrite installed_runs by done.
      unfold App.on_minimize_click, setTimeout. unfold_m.
      rewrite bool_decide_true by done. cbn. by rewrite <- !List.app_assoc. }
    rewrite (app_timer_step _ k 200 CbRestoreScale) by (by apply lookup_fresh).
    cbn [timers set_timers set_trace]. unfold k. rewrite delete_fresh.
    unfold App.run_callback, exec. unfold_m. cbn. rewrite <- List.app_assoc.
    clear. destruct w. reflexivity.
  - intros Hc. unfold App.step, exec. simpl. rewrite installed_runs by done.
    unfold App.on_minimize_click. unfold_m. by rewrite bool_decide_false.
  - unfold Legacy.run. cbn [foldl].
    assert (Legacy.step w Legacy.ClickMinimize
            = set_trace
                (trace w ++
                   [SetStyle "body" "transform" "scale(0.8)";
                    SetStyle "body" "transformOrigin" "top left"])%list w) as ->.
    { unfold Legacy.step, exec. simpl. rewrite installed_runs by done.
      unfold Legacy.on_minimize_click. unfold_m. cbn.
      by rewrite <- !List.app_assoc. }
    unfold Legacy.step, exec. simpl. rewrite installed_runs by done.
    unfold Legacy.on_maximize_click. unfold_m. cbn.
    rewrite <- !List.app_assoc. clear. destruct w. reflexivity.
  - unfold App.step, exec. simpl. by rewrite installed_runs.
  - unfold App.step, exec. simpl. by rewrite installed_runs.
  - unfold Legacy.step, exec. simpl. by rewrite installed_runs.
  - unfold App.step, exec. simpl. by rewrite installed_runs.
  - unfold Legacy.step, exec. simpl. by rewrite installed_runs.
Qed.

Lemma window_controls_witness :
  App.run app_open [App.ClickMinimize; App.TimerFired 2]
  = set_trace
      (trace app_open ++
         [SetStyle ".container" "transform" "scale(0.9)";
          SetStyle ".container" "transition" "transform 0.2s ease";
          SetTimeout CbRestoreScale 200;
          SetStyle ".container" "transform" "scale(1)"])%list app_open.
Proof.
  assert (OnMinimizeClick ∈ installed app_open) as Hmin
    by (apply (bool_decide_unpack _); vm_compute; exact I).
  assert (OnMaximizeClick ∈ installed app_open) as Hmax
    by (apply (bool_decide_unpack _); vm_compute; exact I).
  assert (OnCloseClick ∈ installed app_open) as Hclose
    by (apply (bool_decide_unpack _); vm_compute; exact I).
  assert (".container" ∈ elements (document app_open)) as Hc
    by (apply (bool_decide_unpack _); vm_compute; exact I).
  assert (List.length (timers app_open) = 2) as Hk by (vm_compute; reflexivity).
  destruct (window_controls app_open Hmin Hmax Hclose) as (H & _).
  specialize (H Hc). rewrite Hk in H. exact H.
Defined.

End ControlsFacts.

(** ** Handlers that cannot fail *)

Module SafetyFacts.
Import Js Page JsString Shared Obs Inv Reasoning Track SharedFacts ThemeFacts
  LifecycleFacts ReconnectFacts StartupFacts SocketFacts ConnectionFacts
  StatusFacts BootFacts CycleFacts UnloadFacts ControlsFacts.

Ltac equipped_fin :=
  unfold keeps, equipped, legacy_equipped; cbn;
  first [ by intros
        | intros (? & ? & ? & ? & ?); split_and!; by eauto ].

Lemma updateTerminalTheme_equipped (name : string) :
  stable (keeps equipped) (App.updateTerminalTheme name).
Proof.
  intros w ([t Ht] & H). unfold equipped.
  rewrite (updateTerminalTheme_colours w t name Ht). cbn. split; [by eexists | exact H].
Qed.

Lemma open_socket_equipped : stable (keeps equipped) open_socket.
Proof. intros w H. rewrite open_socket_connecting. exact H. Qed.

Lemma open_socket_legacy_equipped : stable (keeps legacy_equipped) open_socket.
Proof. intros w H. rewrite open_socket_connecting. exact H. Qed.

Lemma run_listeners_equipped (ls : list listener) :
  stable (keeps equipped) (App.run_listeners ls).
Proof.
  pose proof open_socket_equipped as Hopen.
  induction ls as [|l ls IH]; simpl.
  - apply stable_ret, _.
  - apply stable_bind; [apply _ | | by intros ?].
    destruct l. track ltac:(call open_socket Hopen) ltac:(equipped_fin).
Qed.

Lemma app_dispatch_equipped (e : App.event) :
  stable (keeps equipped) (App.dispatch e).
Proof.
  pose proof open_socket_equipped as Hopen.
  pose proof updateTerminalTheme_equipped as Hupd.
  pose proof run_listeners_equipped as Hrl.
  destruct e; simpl.
  all: track ltac:(first [ call open_socket Hopen
                         | call App.updateTerminalTheme Hupd
                         | call App.run_listeners Hrl ])
             ltac:(equipped_fin).
Qed.

Lemma legacy_dispatch_equipped (e : Legacy.event) :
  stable (keeps legacy_equipped) (Legacy.dispatch e).
Proof.
  pose proof open_socket_legacy_equipped as Hopen.
  destruct e; simpl.
  all: track ltac:(call open_socket Hopen) ltac:(equipped_fin).
Qed.

Lemma app_run_equipped (es : list App.event) (w : World) :
  equipped w → equipped (App.run w es).
Proof.
  revert w. induction es as [|e es IH]; intros w H; [done |].
  unfold App.run in *. simpl. apply IH. by apply app_dispatch_equipped.
Qed.

Lemma legacy_run_equipped (es : list Legacy.event) (w : World) :
  legacy_equipped w → legacy_equipped (Legacy.run w es).
Proof.
  revert w. induction es as [|e es IH]; intros w H; [done |].
  unfold Legacy.run in *. simpl. apply IH. by apply legacy_dispatch_equipped.
Qed.

Lemma returns_of {A : Type} (m : M A) (w w' : World) (a : A) :
  m w = (w', Normal a) → returns m w.
Proof. intros H. exists a. by rewrite H. Qed.

Lemma socket_event_returns (i : nat) (from : list readyState)
    (to : option readyState) (h : M unit) (w : World) :
  returns h (handed to i w) → returns (socket_event i from to h) w.
Proof.
  intros H. unfold returns, handed in *. unfold socket_event. unfold_m.
  destruct (sockets w !! i) as [s|]; [|by exists tt].
  case_bool_decide; [|by exists tt].
  destruct to as [st|]; exact H.
Qed.

Lemma when_installed_returns (h : handler) (body : M unit) (w : World) :
  returns body w → returns (when_installed h body) w.
Proof.
  intros H. unfold returns in *. unfold when_installed. unfold_m.
  case_bool_decide; [exact H | by exists tt].
Qed.

Lemma handed_terminal (to : option readyState) (i : nat) (w : World) :
  terminal (handed to i w) = terminal w ∧ document (handed to i w) = document w.
Proof. by destruct to. Qed.

Lemma on_data_returns (data : string) (w : World) : returns (on_data data) w.
Proof.
  destruct (websocket_is_open w) eqn:Ho.
  - destruct (websocket_is_open_inv w Ho) as (i & s & Hw & Hs & Hst).
    by eapply returns_of, on_data_open.
  - by eapply returns_of, on_data_not_open.
Qed.

Lemma interrupt_returns (w : World) : returns sendKeyboardInterrupt w.
Proof.
  destruct (websocket_is_open w) eqn:Ho.
  - destruct (websocket_is_open_inv w Ho) as (i & s & Hw & Hs & Hst).
    by eapply returns_of, interrupt_open.
  - by eapply returns_of, interrupt_not_open.
Qed.

Lemma input_returns (data : string) (w : World) :
  returns (w ← get;
           match terminal w with
           | Some t => if onData t then on_data data else skip
           | None => skip
           end) w.
Proof.
  pose proof (on_data_returns data w) as H.
  unfold returns in *. unfold mbind, M_bind, get.
  destruct (terminal w) as [t|]; [|by exists tt].
  destruct (onData t); [exact H | by exists tt].
Qed.

Lemma on_keydown_returns (ctrlKey : bool) (key : string) (w : World) :
  returns (on_keydown ctrlKey key) w.
Proof.
  unfold on_keydown. destruct (ctrlKey && String.eqb key "c"); [|by exists tt].
  apply returns_bind; [by exists tt | intros _; apply interrupt_returns].
Qed.

Lemma on_resize_returns (w : World) : returns on_resize w.
Proof.
  unfold returns, on_resize, setTimeout. unfold_m.
  destruct (fitAddon w); by exists tt.
Qed.

Lemma isolated_returns (body : M unit) (w : World) : returns (App.isolated body) w.
Proof.
  unfold returns, App.isolated, try_catch, skip.
  destruct (body w) as [w' [[]|e]]; by exists tt.
Qed.

Lemma run_listeners_returns (ls : list listener) (w : World) :
  returns (App.run_listeners ls) w.
Proof.
  revert w. induction ls as [|l ls IH]; intros w; [by exists tt |].
  cbn [App.run_listeners]. apply returns_bind; [apply isolated_returns | by intros _].
Qed.

Lemma timer_returns (n : nat) (run_callback : callback → M unit) (w : World) :
  (∀ cb w', fitAddon w' = fitAddon w → terminal w' = terminal w →
            returns (run_callback cb) w') →
  returns (w ← get;
           match timers w !! n with
           | Some (cb, _) => modify (set_timers (delete n (timers w)));; run_callback cb
           | None => skip
           end) w.
Proof.
  intros H.
  destruct (timers w !! n) as [[cb ms]|] eqn:Hn.
  - specialize (H cb (set_timers (delete n (timers w)) w) eq_refl eq_refl).
    unfold returns in *. unfold mbind, M_bind, get, modify. by rewrite Hn.
  - unfold returns, mbind, M_bind, get. rewrite Hn. by exists tt.
Qed.

Lemma fit_returns (w : World) : fitAddon w = true → returns fit w.
Proof. intros H. unfold returns, fit. unfold_m. rewrite H. by exists tt. Qed.

Lemma focus_returns (w : World) : returns focus w.
Proof. unfold returns, focus. unfold_m. destruct (terminal w); by exists tt. Qed.

Lemma app_dispatch_returns (e : App.event) (w : World) :
  equipped w → returns (App.dispatch e) w.
Proof.
  intros ([t Ht] & Hfit & [b Hb] & [m Hm] & Hc).
  destruct e; cbn [App.dispatch].
  - apply socket_event_returns.
    destruct (handed_terminal (Some OPEN) sock w) as (Htm & _).
    eapply returns_of, (app_onopen _ t). by rewrite Htm.
  - apply socket_event_returns. by eapply returns_of, (onmessage_writes _ t).
  - apply socket_event_returns. by eapply returns_of, (onerror_reported _ t).
  - apply socket_event_returns.
    destruct (handed_terminal (Some CLOSED) sock w) as (Htm & Hdoc).
    eapply returns_of, (app_onclose _ t b m); by rewrite ?Htm, ?Hdoc.
  - apply input_returns.
  - apply when_installed_returns, on_keydown_returns.
  - apply when_installed_returns, on_resize_returns.
  - apply when_installed_returns. eapply returns_of, on_beforeunload_unloaded.
  - apply when_installed_returns. destruct confirmed; by exists tt.
  - apply when_installed_returns. unfold returns, App.on_minimize_click, setTimeout.
    unfold_m. rewrite bool_decide_true by done. by exists tt.
  - apply when_installed_returns. by exists tt.
  - apply when_installed_returns.
    destruct (theme_controllers (document w) !! controller) as [attr|] eqn:Hk.
    + by eapply returns_of, on_theme_click_stores.
    + unfold returns, App.on_theme_click. unfold_m. rewrite Hk. by exists tt.
  - pose proof (run_listeners_returns (listeners b) w) as H.
    unfold returns in *. unfold mbind, M_bind, get. by rewrite Hb.
  - apply timer_returns. intros cb w' Hf _. destruct cb; cbn [App.run_callback].
    + apply fit_returns. by rewrite Hf.
    + apply focus_returns.
    + by exists tt.
    + by exists tt.
Qed.

Lemma legacy_dispatch_returns (e : Legacy.event) (w : World) :
  legacy_equipped w → returns (Legacy.dispatch e) w.
Proof.
  intros ([t Ht] & Hfit).
  destruct e; cbn [Legacy.dispatch].
  - apply socket_event_returns.
    destruct (handed_terminal (Some OPEN) sock w) as (Htm & _).
    eapply returns_of, (legacy_onopen _ t). by rewrite Htm.
  - apply socket_event_returns. by eapply returns_of, (onmessage_writes _ t).
  - apply socket_event_returns. by eapply returns_of, (onerror_reported _ t).
  - apply socket_event_returns.
    destruct (handed_terminal (Some CLOSED) sock w) as (Htm & Hdoc).
    eapply returns_of, (legacy_onclose _ t); by rewrite ?Htm.
  - apply input_returns.
  - apply when_installed_returns, on_keydown_returns.
  - apply when_installed_returns, on_resize_returns.
  - apply when_installed_returns. eapply returns_of, on_beforeunload_unloaded.
  - apply when_installed_returns. destruct confirmed; by exists tt.
  - apply when_installed_returns. by exists tt.
  - apply when_installed_returns. by exists tt.
  - apply timer_returns. intros cb w' Hf _. destruct cb; cbn [Legacy.run_callback].
    + apply fit_returns. by rewrite Hf.
    + apply focus_returns.
    + by exists tt.
    + eapply returns_of, open_socket_connecting.
Qed.

Lemma app_main_equipped (doc : Document) (protocol host : string)
    (storage : gmap string string) (r : fetch_outcome) :
  "#terminal" ∈ elements doc →
  ".container" ∈ elements doc →
  is_Some (reconnect_btn doc) → is_Some (reconnect_modal doc) →
  equipped (exec (App.main r) (boot doc protocol host storage)).
Proof.
  intros Hmount Hc Hb Hm. unfold exec.
  destruct (decide (control_buttons ⊆ elements doc)) as [H|H].
  - rewrite (app_main_ready r (boot doc protocol host storage) Hmount H).
    unfold boot, equipped.
    destruct r; split_and!; fields; by eauto.
  - destruct (app_main_aborted r (boot doc protocol host storage) Hmount H)
      as [msg ->].
    unfold boot, equipped. destruct r; split_and!; fields; by eauto.
Qed.

Lemma legacy_main_equipped (doc : Document) (protocol host : string)
    (storage : gmap string string) (r : fetch_outcome) :
  legacy_equipped (exec (Legacy.main r) (boot doc protocol host storage)).
Proof.
  unfold exec.
  destruct (decide ("#terminal" ∈ elements doc)) as [Hmount|Hmount].
  - destruct (decide (control_buttons ⊆ elements doc)) as [H|H].
    + rewrite (legacy_main_ready r (boot doc protocol host storage) Hmount H).
      unfold boot, legacy_equipped.
      destruct r; split_and!; fields; by eauto.
    + destruct (legacy_main_aborted r (boot doc protocol host storage) Hmount H)
        as [msg ->].
      unfold boot, legacy_equipped. destruct r; split_and!; fields; by eauto.
  - rewrite (legacy_main_unmounted r (boot doc protocol host storage) Hmount).
    unfold boot, legacy_equipped. destruct r; split_and!; fields; by eauto.
Qed.

(** X16.  After start-up no handler throws.  On a page that has the
    mount element, the container, the reconnect button and the
    dialog, not yet shown, whatever the metadata request gave and
    whatever events came before, every listener, socket handler and
    timer callback of both copies returns normally.  In particular
    input and Ctrl+C never reach [send] on a socket that is still
    connecting.  ([showModal] on a dialog that is already shown as
    modal does nothing, as in the HTML standard.) *)
Theorem handlers_never_throw (doc : Document) (protocol host : string)
    (storage : gmap string string) (r : fetch_outcome)
    (es : list App.event) (e : App.event)
    (es' : list Legacy.event) (e' : Legacy.event) :
  "#terminal" ∈ elements doc →
  ".container" ∈ elements doc →
  is_Some (reconnect_btn doc) →
  reconnect_modal doc = Some false →
  let w := boot doc protocol host storage in
  returns (App.dispatch e) (App.run (exec (App.main r) w) es)
  ∧ returns (Legacy.dispatch e') (Legacy.run (exec (Legacy.main r) w) es').
Proof.
  intros Hmount Hc Hb Hm w. split.
  - apply app_dispatch_returns, app_run_equipped.
    apply app_main_equipped; [done | done | done | by rewrite Hm].
  - apply legacy_dispatch_returns, legacy_run_equipped, legacy_main_equipped.
Qed.

Lemma handlers_never_throw_witness :
  returns (App.dispatch (App.Input "ls"))
    (App.run app_started [App.SocketClose 0; App.ClickReconnect])
  ∧ returns (Legacy.dispatch (Legacy.Keydown true "c"))
      (Legacy.run legacy_started [Legacy.SocketError 0]).
Proof.
  assert ("#terminal" ∈ elements sample_document) as Hmount
    by (apply (bool_decide_unpack _); vm_compute; exact I).
  assert (".container" ∈ elements sample_document) as Hc
    by (apply (bool_decide_unpack _); vm_compute; exact I).
  assert (is_Some (reconnect_btn sample_document)) as Hb by (by eexists).
  assert (reconnect_modal sample_document = Some false) as Hm by reflexivity.
  exact (handlers_never_throw sample_document "http:" "localhost:3000" ∅
           NetworkError [App.SocketClose 0; App.ClickReconnect] (App.Input "ls")
           [Legacy.SocketError 0] (Legacy.Keydown true "c") Hmount Hc Hb Hm).
Defined.

End SafetyFacts.

(** ** What is sent *)

Module InputFacts.
Import Js Page JsString Shared Obs Inv Reasoning Track SharedFacts CycleFacts.

Lemma forwarded_socket (w : World) (i : nat) (s : WebSocket) (data : string) :
  sockets w !! i = Some s →
  sockets (forwarded i data w) !! i = Some (push_sent data s)
  ∧ (∀ j, j ≠ i → sockets (forwarded i data w) !! j = sockets w !! j).
Proof.
  intros Hs. unfold forwarded. cbn [sockets set_sockets set_trace]. split.
  - by rewrite list_lookup_alter_eq, Hs.
  - intros j Hj. by apply list_lookup_alter_ne.
Qed.

Lemma inputs_run (ds : list string) :
  ∀ (w : World) (i : nat) (s : WebSocket) (t : Terminal),
    terminal w = Some t → onData t = true →
    websocket w = Some i → sockets w !! i = Some s → ws_readyState s = OPEN →
    let w' := App.run w (App.Input <$> ds) in
    Legacy.run w (Legacy.Input <$> ds) = w'
    ∧ sockets w' !! i
      = Some {| url := url s; ws_readyState := OPEN; sent := (sent s ++ ds)%list |}
    ∧ (∀ j, j ≠ i → sockets w' !! j = sockets w !! j)
    ∧ trace w' = (trace w ++ (WsSend i <$> ds))%list
    ∧ websocket w' = Some i.
Proof.
  induction ds as [|d ds IH]; intros w i s t Ht Hd Hw Hs Ho w'.
  - subst w'. unfold App.run, Legacy.run. simpl. rewrite !List.app_nil_r.
    split_and!; try done. rewrite Hs. destruct s. simpl in Ho. by subst.
  - destruct (input_forwarded w i s t d Ht Hd Hw Hs Ho) as (Ha & Hl).
    destruct (forwarded_socket w i s d Hs) as (Hi & Hother).
    specialize (IH (forwarded i d w) i (push_sent d s) t Ht Hd Hw Hi Ho).
    cbv zeta in IH. destruct IH as (IHl & IHs & IHo & IHt & IHw).
    subst w'. unfold App.run, Legacy.run in *. rewrite !fmap_cons. cbn [foldl].
    rewrite Ha, Hl. split_and!.
    + exact IHl.
    + rewrite IHs. cbn [push_sent url sent]. by rewrite <- List.app_assoc.
    + intros j Hj. by rewrite IHo, Hother.
    + rewrite IHt. cbn [forwarded trace set_trace]. by rewrite <- List.app_assoc.
    + exact IHw.
Qed.

(** X17.  Typed input reaches the server verbatim and in order.  While
    the widget exists and the socket [this.websocket] names is open,
    a sequence of input callbacks appends exactly the given strings,
    in order, to what was sent on that socket, one [send] per
    callback; no other socket is touched and nothing is added or
    dropped.  Both copies behave the same. *)
Theorem inputs_forwarded_in_order (w : World) (i : nat) (s : WebSocket)
    (t : Terminal) (ds : list string) :
  terminal w = Some t → onData t = true →
  websocket w = Some i → sockets w !! i = Some s → ws_readyState s = OPEN →
  let w' := App.run w (App.Input <$> ds) in
  Legacy.run w (Legacy.Input <$> ds) = w'
  ∧ sockets w' !! i
    = Some {| url := url s; ws_readyState := OPEN; sent := (sent s ++ ds)%list |}
  ∧ (∀ j, j ≠ i → sockets w' !! j = sockets w !! j)
  ∧ trace w' = (trace w ++ (WsSend i <$> ds))%list
  ∧ websocket w' = Some i.
Proof. intros Ht Hd Hw Hs Ho. by apply (inputs_run ds w i s t). Qed.

Lemma inputs_forwarded_in_order_witness :
  sent <$> sockets (App.run app_open [App.Input "l"; App.Input "s"]) !! 0
  = Some ["l"; "s"].
Proof.
  assert (∃ t, terminal app_open = Some t ∧ onData t = true) as (t & Ht & Hd)
    by (eexists; split; vm_compute; reflexivity).
  assert (websocket app_open = Some 0) as Hw by (vm_compute; reflexivity).
  assert (sockets app_open !! 0
          = Some {| url := "ws://localhost:3000/ws"; ws_readyState := OPEN;
                    sent := [] |}) as Hs by (vm_compute; reflexivity).
  destruct (inputs_forwarded_in_order app_open 0 _ t ["l"; "s"] Ht Hd Hw Hs eq_refl)
    as (_ & H & _).
  etrans; [exact (f_equal (fmap sent) H) | reflexivity].
Defined.

End InputFacts.
